(** * The signal lifecycle (ROI) tracker

    A shallow embedding of [ROITracker], the class that follows an open
    trading signal from registration until one of its three profit
    targets or its stop-loss closes it.  The repository carries the
    class twice:

    - [src/trading/roi_tracker.py], the earlier copy, and
    - [src/telegram_bot/roi_tracker.py], the later copy, which adds the
      [entry_price == 0] guards and the retry loop of
      [_update_signal_in_db].

    Both copies are embedded by the same definitions; a [Variant]
    selects the places where they differ.

    Conventions of the embedding.

    - Python floats are exact rationals ([Q]); the comparisons of the
      source are the boolean functions [py_ge], [py_le], [py_gt],
      [py_eq], and a division by zero raises [ZeroDivisionError].
      Rounding, NaN and the infinities are outside the model: where
      the source rounds ([py_div], [py_sum], the percentages), the
      model is exact, and the theorems state of the returns only what
      the additions and multiplications of the source give.  The
      fractions of the position (0.25, 0.5, 0.25 and what they leave of
      1.0) are binary fractions, on which binary64 arithmetic is exact;
      [remaining_percent_float_exact] checks this against the primitive
      floats.
    - The prices and the levels of a signal are numbers.  The source
      keeps a [None] that a definition or a row of the table gives for
      a level ([signal.get("tp1", 0)] defaults only an absent key), and
      the comparison of a price with [None] in [update_signal_price]
      raises [TypeError]; such objects are outside the model.
    - A [ROIMetrics] instance is a mutable object that is shared between
      the local variable [metrics], the dictionary [active_signals] and
      the list [completed_signals]: the model keeps the objects in a
      [heap] and lets the containers hold locations.
    - Everything the class does to the outside (log lines, SQL commits,
      Telegram alerts, [asyncio.sleep]) is appended to a [trace]; what the
      outside answers (the clock, the outcome of a database attempt) is
      read from a [World].  [send_alert] is taken to return: where it
      raises, the source logs an error instead of the line that follows
      the alert; the alert handed over is the same.
    - Embedded from both copies: [register_signal],
      [update_signal_price], the two handlers, the two senders,
      [_calculate_current_roi], [_close_signal], [get_statistics],
      [_save_signal_to_db] and [_update_signal_in_db].  Embedded from
      the later copy, which alone has them: [start_monitoring] with
      [_load_active_signals_from_db], [stop_monitoring], and the
      polling loop [_monitor_signal] with [_get_current_price]; what
      the database and the exchanges answer is an argument of these
      methods, and their log lines are left out of the trace.  Of
      [src/connectors/binance_connector.py], [get_ticker] is embedded,
      whose dictionary [_get_current_price] reads.  Not embedded:
      [init_wal_mode], and the scheduling of the monitor tasks by
      [asyncio]. *)

From Stdlib Require Import QArith Lqa ZArith String Sorted.
From Stdlib Require Import PrimFloat SpecFloat FloatOps.
From stdpp Require Import gmap strings list fin_maps pretty.

(** ** Numbers *)

Definition py_ge (x y : Q) : bool := Qle_bool y x.
Definition py_le (x y : Q) : bool := Qle_bool x y.
Definition py_gt (x y : Q) : bool := negb (Qle_bool x y).
Definition py_eq (x y : Q) : bool := Qeq_bool x y.

(** [sum(xs)]: starts from [0] and adds from the left. *)
Definition py_sum (xs : list Q) : Q := foldl Qplus 0%Q xs.

(** The rational number a binary64 float stands for. *)
Definition float_to_Q (x : float) : option Q :=
  match Prim2SF x with
  | S754_zero _ => Some 0%Q
  | S754_finite s m e =>
      Some (Qred ((if s then -1 else 1) * inject_Z (Z.pos m) * 2 ^ e)%Q)
  | _ => None
  end.

(** [1.0 - sum([0.25 if tp1_hit else 0, 0.5 if tp2_hit else 0,
    0.25 if tp3_hit else 0])], in binary64. *)
Definition remaining_percent_float (h1 h2 h3 : bool) : float :=
  (1 - (((0 + (if h1 then 0.25 else 0)) + (if h2 then 0.5 else 0))
        + (if h3 then 0.25 else 0)))%float.

(** [needle in haystack] on strings. *)
Fixpoint py_in (needle haystack : string) : bool :=
  String.prefix needle haystack ||
  match haystack with
  | EmptyString => false
  | String _ rest => py_in needle rest
  end.

(** ** Time

    A [datetime] is a number of microseconds since the Unix epoch, the
    time zone of the process being UTC; [isoformat] and [fromisoformat]
    are inverse to each other on the values the class produces, so a
    stored ISO string is modelled by the instant itself. *)

Definition datetime := Z.

Definition datetime_min : datetime := (-62135596800 * 1000000)%Z.
Definition datetime_max : datetime := (253402300799 * 1000000 + 999999)%Z.
Definition microseconds_per_day : Z := (86400 * 1000000)%Z.
Definition timedelta_max_days : Z := 999999999%Z.

(** [int(t.timestamp())]: whole seconds, truncated towards zero. *)
Definition timestamp_int (t : datetime) : Z := (t ÷ 1000000)%Z.

(** ** Data model *)

Record Fill := {
  fill_level : string;
  fill_price : Q;
  percentage : Q;
  profit_percent : Q;
  weighted_profit : Q;
  timestamp : datetime;
}.

Definition loc := nat.

Record ROIMetrics := {
  signal_id : string;
  symbol : string;
  direction : string;
  entry_price : Q;
  stop_loss : Q;
  tp1 : Q;
  tp2 : Q;
  tp3 : Q;
  tp1_hit : bool;
  tp2_hit : bool;
  tp3_hit : bool;
  sl_hit : bool;
  current_roi : Q;
  status : string;
  entry_time : datetime;
  close_time : option datetime;
  fills : list Fill;
  quality_score : Q;
}.

(** Attribute assignments [metrics.x = ...]. *)

Definition set_tp1_hit (b : bool) (m : ROIMetrics) : ROIMetrics :=
  {| signal_id := signal_id m; symbol := symbol m; direction := direction m;
     entry_price := entry_price m; stop_loss := stop_loss m;
     tp1 := tp1 m; tp2 := tp2 m; tp3 := tp3 m;
     tp1_hit := b; tp2_hit := tp2_hit m; tp3_hit := tp3_hit m;
     sl_hit := sl_hit m; current_roi := current_roi m; status := status m;
     entry_time := entry_time m; close_time := close_time m;
     fills := fills m; quality_score := quality_score m |}.

Definition set_tp2_hit (b : bool) (m : ROIMetrics) : ROIMetrics :=
  {| signal_id := signal_id m; symbol := symbol m; direction := direction m;
     entry_price := entry_price m; stop_loss := stop_loss m;
     tp1 := tp1 m; tp2 := tp2 m; tp3 := tp3 m;
     tp1_hit := tp1_hit m; tp2_hit := b; tp3_hit := tp3_hit m;
     sl_hit := sl_hit m; current_roi := current_roi m; status := status m;
     entry_time := entry_time m; close_time := close_time m;
     fills := fills m; quality_score := quality_score m |}.

Definition set_tp3_hit (b : bool) (m : ROIMetrics) : ROIMetrics :=
  {| signal_id := signal_id m; symbol := symbol m; direction := direction m;
     entry_price := entry_price m; stop_loss := stop_loss m;
     tp1 := tp1 m; tp2 := tp2 m; tp3 := tp3 m;
     tp1_hit := tp1_hit m; tp2_hit := tp2_hit m; tp3_hit := b;
     sl_hit := sl_hit m; current_roi := current_roi m; status := status m;
     entry_time := entry_time m; close_time := close_time m;
     fills := fills m; quality_score := quality_score m |}.

Definition set_sl_hit (b : bool) (m : ROIMetrics) : ROIMetrics :=
  {| signal_id := signal_id m; symbol := symbol m; direction := direction m;
     entry_price := entry_price m; stop_loss := stop_loss m;
     tp1 := tp1 m; tp2 := tp2 m; tp3 := tp3 m;
     tp1_hit := tp1_hit m; tp2_hit := tp2_hit m; tp3_hit := tp3_hit m;
     sl_hit := b; current_roi := current_roi m; status := status m;
     entry_time := entry_time m; close_time := close_time m;
     fills := fills m; quality_score := quality_score m |}.

Definition set_current_roi (r : Q) (m : ROIMetrics) : ROIMetrics :=
  {| signal_id := signal_id m; symbol := symbol m; direction := direction m;
     entry_price := entry_price m; stop_loss := stop_loss m;
     tp1 := tp1 m; tp2 := tp2 m; tp3 := tp3 m;
     tp1_hit := tp1_hit m; tp2_hit := tp2_hit m; tp3_hit := tp3_hit m;
     sl_hit := sl_hit m; current_roi := r; status := status m;
     entry_time := entry_time m; close_time := close_time m;
     fills := fills m; quality_score := quality_score m |}.

Definition set_status (st : string) (m : ROIMetrics) : ROIMetrics :=
  {| signal_id := signal_id m; symbol := symbol m; direction := direction m;
     entry_price := entry_price m; stop_loss := stop_loss m;
     tp1 := tp1 m; tp2 := tp2 m; tp3 := tp3 m;
     tp1_hit := tp1_hit m; tp2_hit := tp2_hit m; tp3_hit := tp3_hit m;
     sl_hit := sl_hit m; current_roi := current_roi m; status := st;
     entry_time := entry_time m; close_time := close_time m;
     fills := fills m; quality_score := quality_score m |}.

Definition set_close_time (t : option datetime) (m : ROIMetrics) : ROIMetrics :=
  {| signal_id := signal_id m; symbol := symbol m; direction := direction m;
     entry_price := entry_price m; stop_loss := stop_loss m;
     tp1 := tp1 m; tp2 := tp2 m; tp3 := tp3 m;
     tp1_hit := tp1_hit m; tp2_hit := tp2_hit m; tp3_hit := tp3_hit m;
     sl_hit := sl_hit m; current_roi := current_roi m; status := status m;
     entry_time := entry_time m; close_time := t;
     fills := fills m; quality_score := quality_score m |}.

(** [metrics.fills.append(fill)]. *)
Definition append_fill (f : Fill) (m : ROIMetrics) : ROIMetrics :=
  {| signal_id := signal_id m; symbol := symbol m; direction := direction m;
     entry_price := entry_price m; stop_loss := stop_loss m;
     tp1 := tp1 m; tp2 := tp2 m; tp3 := tp3 m;
     tp1_hit := tp1_hit m; tp2_hit := tp2_hit m; tp3_hit := tp3_hit m;
     sl_hit := sl_hit m; current_roi := current_roi m; status := status m;
     entry_time := entry_time m; close_time := close_time m;
     fills := fills m ++ [f]; quality_score := quality_score m |}.

(** The dictionary handed to [register_signal].  The keys read with
    [signal[...]] are fields; the keys read with [signal.get(..., 0)]
    may be absent. *)
Record SignalDef := {
  d_symbol : string;
  d_direction : string;
  d_entry_price : Q;
  d_stop_loss : Q;
  d_tp1 : option Q;
  d_tp2 : option Q;
  d_tp3 : option Q;
  d_quality_score : option Q;
}.

(** The dictionaries returned by the two handlers, tagged by their
    ["type"] key. *)
Inductive Event :=
| EvTpHit (sid : string) (lvl : string) (at_price : Q) (profit : Q)
| EvSlHit (sid : string) (at_price : Q) (loss : Q)
| EvError (sid : string) (reason : string).

(** Values of the dictionary returned by [get_statistics]. *)
Inductive PyVal :=
| PyInt (n : Z)
| PyFloat (q : Q).

(** ** The outside world *)

Inductive Variant := Trading | TelegramBot.

(** The later copy guards every division by [entry_price]. *)
Definition zero_entry_guard (v : Variant) : bool :=
  match v with TelegramBot => true | Trading => false end.

Inductive Exn :=
| ZeroDivisionError
| KeyError (key : string)
| OverflowError
(** Not a Python exception: the answer of the model to a location that
    was never allocated, which no run of the class produces. *)
| Unallocated (l : loc).

Inductive RowKey :=
| BySignalId (sid : string)
| BySymbolTimestamp (sym : string) (t : datetime).

Inductive Sql :=
| InsertSignal (sid : option string) (sym dir : string)
    (entry stop t1 t2 t3 : Q) (st : string) (t : datetime)
| UpdateFinal (k : RowKey) (st : string) (roi : Q) (closed : option datetime)
| UpdateProgress (k : RowKey) (roi : Q) (h1 h2 h3 hs : bool).

Inductive LogLevel := INFO | WARNING | ERROR.

Inductive LogMsg :=
| MsgRegistered (sid : string)
| MsgTpReached (sid lvl : string) (at_price profit weighted : Q)
| MsgStopLossReached (sid : string) (at_price weighted : Q)
| MsgEntryPriceZero (sym : string) (what : string)
| MsgAlertSent (what sym : string)
| MsgClosed (sid st : string) (final_roi : Q)
| MsgDbSaveError
| MsgDbUpdateError
| MsgDbLocked (attempt : nat) (max : nat) (delay : Q).

(** A Telegram message, by template and by the numbers it shows. *)
Record Alert := {
  template : string;
  alert_symbol : string;
  alert_direction : string;
  alert_entry : Q;
  alert_current : Q;
  alert_level : Q;
  alert_percent : Q;
}.

Inductive Effect :=
| Log (lvl : LogLevel) (msg : LogMsg)
| Sleep (seconds : Q)
| SqlCommit (stmt : Sql)
| TelegramAlert (a : Alert).

(** What one attempt on the database ends in. *)
Inductive DbOutcome :=
| Committed
| OperationalError (message : string)
| OtherError.

Record World := {
  clock : nat → datetime;         (* the n-th reading of [datetime.now()] *)
  db_outcome : nat → DbOutcome;   (* the n-th attempt on the database *)
}.

Record Env := {
  trace : list Effect;
  clock_reads : nat;
  db_attempts : nat;
}.

Record Tracker := {
  heap : gmap loc ROIMetrics;
  active_signals : gmap string loc;
  completed_signals : list loc;
  telegram : bool;                (* is a Telegram handler installed? *)
}.

Record State := { tracker : Tracker; env : Env }.

(** The allocation of the position to the three targets: attributes
    that [__init__] sets and nothing changes. *)
Definition tp1_percentage : Q := 0.25.
Definition tp2_percentage : Q := 0.50.
Definition tp3_percentage : Q := 0.25.

(** ** The monad of the class: state and exceptions *)

Inductive Res (A : Type) :=
| Return (a : A)
| Raise (e : Exn).
Arguments Return {A} a.
Arguments Raise {A} e.

Definition M (A : Type) : Type := State → Res A * State.

Definition ret {A} (a : A) : M A := λ s, (Return a, s).
Definition raise {A} (e : Exn) : M A := λ s, (Raise e, s).
Definition bind {A B} (c : M A) (k : A → M B) : M B :=
  λ s, match c s with
       | (Return a, s') => k a s'
       | (Raise e, s') => (Raise e, s')
       end.

Declare Scope tracker_scope.
Delimit Scope tracker_scope with tracker.
Notation "'let*' x := c 'in' k" := (bind c (λ x, k))
  (at level 10, x name, c at level 100, k at level 200) : tracker_scope.
Notation "c ;;; k" := (bind c (λ _, k))
  (at level 100, k at level 200, right associativity) : tracker_scope.
Open Scope tracker_scope.

Definition with_tracker (f : Tracker → Tracker) (s : State) : State :=
  {| tracker := f (tracker s); env := env s |}.
Definition with_env (f : Env → Env) (s : State) : State :=
  {| tracker := tracker s; env := f (env s) |}.

Definition with_heap (h : gmap loc ROIMetrics) (t : Tracker) : Tracker :=
  {| heap := h; active_signals := active_signals t;
     completed_signals := completed_signals t; telegram := telegram t |}.
Definition with_active (a : gmap string loc) (t : Tracker) : Tracker :=
  {| heap := heap t; active_signals := a;
     completed_signals := completed_signals t; telegram := telegram t |}.
Definition with_completed (c : list loc) (t : Tracker) : Tracker :=
  {| heap := heap t; active_signals := active_signals t;
     completed_signals := c; telegram := telegram t |}.

(** *** Objects *)

Definition deref (l : loc) : M ROIMetrics :=
  λ s, match heap (tracker s) !! l with
       | Some m => (Return m, s)
       | None => (Raise (Unallocated l), s)
       end.

Definition assign (l : loc) (f : ROIMetrics → ROIMetrics) : M unit :=
  λ s, match heap (tracker s) !! l with
       | Some m =>
           (Return tt, with_tracker (with_heap (<[l := f m]> (heap (tracker s)))) s)
       | None => (Raise (Unallocated l), s)
       end.

Definition alloc (m : ROIMetrics) : M loc :=
  λ s, let l := fresh (dom (heap (tracker s))) in
       (Return l, with_tracker (with_heap (<[l := m]> (heap (tracker s)))) s).

(** *** The containers of the tracker *)

Definition read {A} (f : Tracker → A) : M A :=
  λ s, (Return (f (tracker s)), s).

Definition write (f : Tracker → Tracker) : M unit :=
  λ s, (Return tt, with_tracker f s).

(** [del self.active_signals[key]]. *)
Definition del_active (key : string) : M unit :=
  let* found := read (λ t, active_signals t !! key) in
  match found with
  | Some _ => write (λ t, with_active (delete key (active_signals t)) t)
  | None => raise (KeyError key)
  end.

(** *** Effects *)

Definition emit (e : Effect) : M unit :=
  λ s, (Return tt,
        with_env (λ n, {| trace := trace n ++ [e];
                          clock_reads := clock_reads n;
                          db_attempts := db_attempts n |}) s).

Definition log (lvl : LogLevel) (msg : LogMsg) : M unit := emit (Log lvl msg).

(** [ROIMetrics(signal_id=..., symbol=signal['symbol'], ...,
    tp1=signal.get('tp1', 0), ...)], with the defaults of the dataclass
    for the fields that [register_signal] does not pass; [entered] is the
    reading of the clock by the default factory of [entry_time]. *)
Definition new_metrics (signal : SignalDef) (sid : string)
    (entered : datetime) : ROIMetrics :=
  {| signal_id := sid; symbol := d_symbol signal;
     direction := d_direction signal;
     entry_price := d_entry_price signal; stop_loss := d_stop_loss signal;
     tp1 := default 0%Q (d_tp1 signal);
     tp2 := default 0%Q (d_tp2 signal);
     tp3 := default 0%Q (d_tp3 signal);
     tp1_hit := false; tp2_hit := false; tp3_hit := false; sl_hit := false;
     current_roi := 0%Q; status := "active";
     entry_time := entered; close_time := None; fills := [];
     quality_score := default 0%Q (d_quality_score signal) |}.

(** ** The class *)

Section ROITracker.

Context (w : World) (v : Variant).

(** [datetime.now()]. *)
Definition now : M datetime :=
  λ s, (Return (clock w (clock_reads (env s))),
        with_env (λ n, {| trace := trace n;
                          clock_reads := S (clock_reads n);
                          db_attempts := db_attempts n |}) s).

(** One [async with aiosqlite.connect(...)] block, up to its commit. *)
Definition db_attempt : M DbOutcome :=
  λ s, (Return (db_outcome w (db_attempts (env s))),
        with_env (λ n, {| trace := trace n;
                          clock_reads := clock_reads n;
                          db_attempts := S (db_attempts n) |}) s).

(** [x / y] on numbers. *)
Definition py_div (x y : Q) : M Q :=
  if py_eq y 0 then raise ZeroDivisionError else ret (x / y)%Q.

(** The return of a position in percent of its entry price, as the three
    methods below compute it in place: [(price - entry) / entry * 100]
    for a long position, [(entry - price) / entry * 100] otherwise. *)
Definition percent_return (m : ROIMetrics) (price : Q) : M Q :=
  if decide (direction m = "long") then
    let* q := py_div (price - entry_price m) (entry_price m) in
    ret (q * 100)%Q
  else
    let* q := py_div (entry_price m - price) (entry_price m) in
    ret (q * 100)%Q.

(** [sum([tp1_percentage if tp1_hit else 0, ...])]. *)
Definition closed_percent (m : ROIMetrics) : Q :=
  py_sum [ if tp1_hit m then tp1_percentage else 0%Q;
           if tp2_hit m then tp2_percentage else 0%Q;
           if tp3_hit m then tp3_percentage else 0%Q ].

(** *** Persistence *)

Definition row_key (m : ROIMetrics) : RowKey :=
  match v with
  | Trading => BySignalId (signal_id m)
  | TelegramBot => BySymbolTimestamp (symbol m) (entry_time m)
  end.

Definition update_statement (m : ROIMetrics) (final : bool) : Sql :=
  if final then UpdateFinal (row_key m) (status m) (current_roi m) (close_time m)
  else UpdateProgress (row_key m) (current_roi m)
         (tp1_hit m) (tp2_hit m) (tp3_hit m) (sl_hit m).

(** The earlier copy writes the identifier to a column of its own. *)
Definition insert_statement (m : ROIMetrics) : Sql :=
  InsertSignal
    (match v with Trading => Some (signal_id m) | TelegramBot => None end)
    (symbol m) (direction m) (entry_price m) (stop_loss m)
    (tp1 m) (tp2 m) (tp3 m) (status m) (entry_time m).

Definition _save_signal_to_db (l : loc) : M unit :=
  let* m := deref l in
  let* outcome := db_attempt in
  match outcome with
  | Committed => emit (SqlCommit (insert_statement m))
  | _ => log ERROR MsgDbSaveError
  end.

Definition max_retries : nat := 10.
Definition retry_delay : Q := 0.2.

(** The body of [for attempt in range(max_retries)] of the later copy,
    over the attempts that are still to come. *)
Fixpoint update_attempts (l : loc) (final : bool) (attempts : list nat) : M unit :=
  match attempts with
  | [] => ret tt
  | attempt :: rest =>
      let* m := deref l in
      let* outcome := db_attempt in
      match outcome with
      | Committed => emit (SqlCommit (update_statement m final))
      | OperationalError e =>
          if py_in "database is locked" e && (attempt <? max_retries - 1)%nat then
            emit (Sleep (retry_delay * 2 ^ Z.of_nat attempt)%Q) ;;;
            log WARNING (MsgDbLocked (attempt + 1) max_retries
                           (retry_delay * 2 ^ Z.of_nat attempt)%Q) ;;;
            update_attempts l final rest
          else log ERROR MsgDbUpdateError
      | OtherError => log ERROR MsgDbUpdateError
      end
  end.

Definition _update_signal_in_db (l : loc) (final : bool) : M unit :=
  match v with
  | TelegramBot => update_attempts l final (seq 0 max_retries)
  | Trading =>
      let* m := deref l in
      let* outcome := db_attempt in
      match outcome with
      | Committed => emit (SqlCommit (update_statement m final))
      | _ => log ERROR MsgDbUpdateError
      end
  end.

(** *** Notifications

    A failure of [send_alert] is caught inside the two senders and only
    logged; the model records the alert that is handed to the handler. *)

Definition _send_tp_notification (l : loc) (tp_level : string)
    (price profit_percent : Q) : M unit :=
  let* handler := read telegram in
  if negb handler then ret tt
  else
    let* m := deref l in
    let is_risky := negb (Qle_bool 50 (quality_score m)) in
    let a :=
      if decide (tp_level = "tp1") then
        {| template := if is_risky then "TP1 (RISKY ENTRY)" else "TP1";
           alert_symbol := symbol m; alert_direction := direction m;
           alert_entry := entry_price m; alert_current := price;
           alert_level := tp1 m; alert_percent := profit_percent |}
      else if decide (tp_level = "tp2") then
        {| template := "TP2";
           alert_symbol := symbol m; alert_direction := direction m;
           alert_entry := entry_price m; alert_current := price;
           alert_level := tp2 m; alert_percent := profit_percent |}
      else
        {| template := "TP3";
           alert_symbol := symbol m; alert_direction := direction m;
           alert_entry := entry_price m; alert_current := price;
           alert_level := tp3 m; alert_percent := profit_percent |} in
    emit (TelegramAlert a) ;;;
    log INFO (MsgAlertSent tp_level (symbol m)).

Definition _send_stop_notification (l : loc) (price loss_percent : Q) : M unit :=
  let* handler := read telegram in
  if negb handler then ret tt
  else
    let* m := deref l in
    emit (TelegramAlert
            {| template := "STOP";
               alert_symbol := symbol m; alert_direction := direction m;
               alert_entry := entry_price m; alert_current := price;
               alert_level := stop_loss m; alert_percent := loss_percent |}) ;;;
    log INFO (MsgAlertSent "STOP" (symbol m)).

(** *** Closing *)

Definition _close_signal (l : loc) (st : string) : M unit :=
  assign l (set_status st) ;;;
  let* t := now in
  assign l (set_close_time (Some t)) ;;;
  let* m := deref l in
  let final_roi := py_sum (weighted_profit <$> fills m) in
  assign l (set_current_roi final_roi) ;;;
  (* self.completed_signals.append(metrics) *)
  write (λ t, with_completed (completed_signals t ++ [l]) t) ;;;
  del_active (signal_id m) ;;;
  _update_signal_in_db l true ;;;
  log INFO (MsgClosed (signal_id m) st final_roi).

(** *** The two handlers *)

Definition _handle_tp_hit (l : loc) (tp_level : string) (price : Q) : M Event :=
  let* m := deref l in
  let close_percent :=
    if decide (tp_level = "tp1") then tp1_percentage
    else if decide (tp_level = "tp2") then tp2_percentage
    else tp3_percentage in
  if zero_entry_guard v && py_eq (entry_price m) 0 then
    log ERROR (MsgEntryPriceZero (symbol m) "TP") ;;;
    ret (EvError (signal_id m) "entry_price_zero")
  else
    let* profit_percent := percent_return m price in
    let weighted_profit := (profit_percent * close_percent)%Q in
    let* t := now in
    assign l (append_fill
                {| fill_level := tp_level; fill_price := price;
                   percentage := close_percent;
                   profit_percent := profit_percent;
                   weighted_profit := weighted_profit;
                   timestamp := t |}) ;;;
    log INFO (MsgTpReached (signal_id m) tp_level price
                profit_percent weighted_profit) ;;;
    _send_tp_notification l tp_level price profit_percent ;;;
    let* m' := deref l in
    (if bool_decide (tp_level = "tp3")
        || (tp1_hit m' && tp2_hit m' && tp3_hit m')
     then _close_signal l "completed" else ret tt) ;;;
    ret (EvTpHit (signal_id m) tp_level price weighted_profit).

Definition _handle_sl_hit (l : loc) (price : Q) : M Event :=
  let* m := deref l in
  if zero_entry_guard v && py_eq (entry_price m) 0 then
    log ERROR (MsgEntryPriceZero (symbol m) "SL") ;;;
    ret (EvError (signal_id m) "entry_price_zero")
  else
    let* loss_percent := percent_return m price in
    let remaining_percent := (1 - closed_percent m)%Q in
    let weighted_loss := (loss_percent * remaining_percent)%Q in
    let* t := now in
    assign l (append_fill
                {| fill_level := "stop_loss"; fill_price := price;
                   percentage := remaining_percent;
                   profit_percent := loss_percent;
                   weighted_profit := weighted_loss;
                   timestamp := t |}) ;;;
    log WARNING (MsgStopLossReached (signal_id m) price weighted_loss) ;;;
    _send_stop_notification l price weighted_loss ;;;
    _close_signal l "stopped" ;;;
    ret (EvSlHit (signal_id m) price weighted_loss).

(** *** The running return *)

Definition _calculate_current_roi (l : loc) (current_price : Q) : M Q :=
  let* m := deref l in
  let closed_roi := py_sum (weighted_profit <$> fills m) in
  let remaining_percent := (1 - closed_percent m)%Q in
  if py_gt remaining_percent 0 then
    if zero_entry_guard v && py_eq (entry_price m) 0 then
      log WARNING (MsgEntryPriceZero (symbol m) "ROI") ;;;
      ret closed_roi
    else
      let* unrealized_profit := percent_return m current_price in
      let unrealized_roi := (unrealized_profit * remaining_percent)%Q in
      ret (closed_roi + unrealized_roi)%Q
  else
    ret (closed_roi + 0)%Q.

(** *** Registration and price updates *)

Definition register_signal (signal : SignalDef) : M string :=
  let* t := now in
  let sid := d_symbol signal +:+ "_" +:+ pretty (timestamp_int t) in
  let* entered := now in
  let* l := alloc (new_metrics signal sid entered) in
  (* self.active_signals[signal_id] = metrics *)
  write (λ t, with_active (<[sid := l]> (active_signals t)) t) ;;;
  _save_signal_to_db l ;;;
  log INFO (MsgRegistered sid) ;;;
  ret sid.

Definition update_signal_price (sid : string) (current_price : Q)
    : M (option Event) :=
  let* found := read (λ t, active_signals t !! sid) in
  match found with
  | None => ret None
  | Some l =>
      (let* m := deref l in
       let* event :=
         if decide (direction m = "long") then
           if negb (tp3_hit m) && py_ge current_price (tp3 m) then
             assign l (set_tp3_hit true) ;;;
             let* e := _handle_tp_hit l "tp3" current_price in ret (Some e)
           else if negb (tp2_hit m) && py_ge current_price (tp2 m) then
             assign l (set_tp2_hit true) ;;;
             let* e := _handle_tp_hit l "tp2" current_price in ret (Some e)
           else if negb (tp1_hit m) && py_ge current_price (tp1 m) then
             assign l (set_tp1_hit true) ;;;
             let* e := _handle_tp_hit l "tp1" current_price in ret (Some e)
           else if negb (sl_hit m) && py_le current_price (stop_loss m) then
             assign l (set_sl_hit true) ;;;
             let* e := _handle_sl_hit l current_price in ret (Some e)
           else ret None
         else if decide (direction m = "short") then
           if negb (tp3_hit m) && py_le current_price (tp3 m) then
             assign l (set_tp3_hit true) ;;;
             let* e := _handle_tp_hit l "tp3" current_price in ret (Some e)
           else if negb (tp2_hit m) && py_le current_price (tp2 m) then
             assign l (set_tp2_hit true) ;;;
             let* e := _handle_tp_hit l "tp2" current_price in ret (Some e)
           else if negb (tp1_hit m) && py_le current_price (tp1 m) then
             assign l (set_tp1_hit true) ;;;
             let* e := _handle_tp_hit l "tp1" current_price in ret (Some e)
           else if negb (sl_hit m) && py_ge current_price (stop_loss m) then
             assign l (set_sl_hit true) ;;;
             let* e := _handle_sl_hit l current_price in ret (Some e)
           else ret None
         else ret None in
       let* roi := _calculate_current_roi l current_price in
       assign l (set_current_roi roi) ;;;
       _update_signal_in_db l false ;;;
       ret event)
  end.

(** *** Statistics *)

(** Reading the objects of a list of references. *)
Fixpoint deref_all (ls : list loc) : M (list ROIMetrics) :=
  match ls with
  | [] => ret []
  | l :: rest =>
      let* m := deref l in
      let* ms := deref_all rest in
      ret (m :: ms)
  end.

(** [datetime.now() - timedelta(days=days)]: the constructor of
    [timedelta] and the subtraction both raise [OverflowError] outside
    their ranges. *)
Definition cutoff (days : Z) : M datetime :=
  let* t := now in
  if (timedelta_max_days <? Z.abs days)%Z then raise OverflowError
  else
    let c := (t - days * microseconds_per_day)%Z in
    if (c <? datetime_min)%Z || (datetime_max <? c)%Z then raise OverflowError
    else ret c.

Definition closed_after (cutoff_date : datetime) (s : ROIMetrics) : bool :=
  match close_time s with
  | Some c => (cutoff_date <? c)%Z
  | None => false
  end.

Definition get_statistics (days : Z) : M (gmap string PyVal) :=
  let* cutoff_date := cutoff days in
  let* refs := read completed_signals in
  let* completed := deref_all refs in
  let recent_signals := List.filter (closed_after cutoff_date) completed in
  match recent_signals with
  | [] =>
      ret (<["total_signals" := PyInt 0]>
           (<["win_rate" := PyFloat 0]>
           (<["average_roi" := PyFloat 0]>
           (<["total_roi" := PyFloat 0]> ∅))))
  | _ =>
      let total := length recent_signals in
      let wins :=
        length (List.filter (λ s, py_gt (current_roi s) 0) recent_signals) in
      let losses :=
        length (List.filter (λ s, py_le (current_roi s) 0) recent_signals) in
      let* win_rate :=
        if (0 <? total)%nat then
          let* q := py_div (inject_Z (Z.of_nat wins))
                           (inject_Z (Z.of_nat total)) in
          ret (q * 100)%Q
        else ret 0%Q in
      let* average_roi :=
        py_div (py_sum (current_roi <$> recent_signals))
               (inject_Z (Z.of_nat total)) in
      let total_roi := py_sum (current_roi <$> recent_signals) in
      ret (<["total_signals" := PyInt (Z.of_nat total)]>
           (<["wins" := PyInt (Z.of_nat wins)]>
           (<["losses" := PyInt (Z.of_nat losses)]>
           (<["win_rate" := PyFloat win_rate]>
           (<["average_roi" := PyFloat average_roi]>
           (<["total_roi" := PyFloat total_roi]>
           (<["period_days" := PyInt days]> ∅)))))))
  end.

End ROITracker.

(** [ROITracker(telegram_handler)]: nothing tracked, nothing archived.
    The later copy also schedules [init_wal_mode], which sets two pragmas
    of the database and is not embedded. *)
Definition __init__ (telegram_handler : bool) : State :=
  {| tracker := {| heap := ∅; active_signals := ∅; completed_signals := [];
                   telegram := telegram_handler |};
     env := {| trace := []; clock_reads := 0; db_attempts := 0 |} |}.

(** Feeding a price path to one signal, tick by tick: one call of
    [update_signal_price] per price, the outcome of every call kept.  As
    in the loop of [_monitor_signal], a call that raises does not stop
    the ticks that follow; the ticks after the closing of the signal,
    which the loop would not make, are calls on an identifier that is no
    longer active. *)
Fixpoint feed (w : World) (v : Variant) (sid : string) (path : list Q)
    (s : State) : list (Res (option Event)) * State :=
  match path with
  | [] => ([], s)
  | p :: rest =>
      let '(r, s1) := update_signal_price w v sid p s in
      let '(rs, s2) := feed w v sid rest s1 in
      (r :: rs, s2)
  end.

(** ** The threshold evaluator of the specification

    Written from the words of the specification, to be compared with
    what [update_signal_price] does: the levels, their priority, and
    when a level is due. *)

Inductive Level := TP1 | TP2 | TP3 | STOP.

#[global] Instance Level_eq_dec : EqDecision Level.
Proof. solve_decision. Defined.

Definition priority (lvl : Level) : nat :=
  match lvl with TP3 => 3 | TP2 => 2 | TP1 => 1 | STOP => 0 end.

Definition hit (m : ROIMetrics) (lvl : Level) : bool :=
  match lvl with
  | TP1 => tp1_hit m | TP2 => tp2_hit m | TP3 => tp3_hit m | STOP => sl_hit m
  end.

(** The price condition of a level: [>=] for the targets and [<=] for the
    stop of a long position, mirrored for a short one. *)
Definition reached (m : ROIMetrics) (lvl : Level) (price : Q) : bool :=
  if decide (direction m = "long") then
    match lvl with
    | TP1 => py_ge price (tp1 m) | TP2 => py_ge price (tp2 m)
    | TP3 => py_ge price (tp3 m) | STOP => py_le price (stop_loss m)
    end
  else if decide (direction m = "short") then
    match lvl with
    | TP1 => py_le price (tp1 m) | TP2 => py_le price (tp2 m)
    | TP3 => py_le price (tp3 m) | STOP => py_ge price (stop_loss m)
    end
  else false.

(** A level is due when its flag is not yet set and its condition holds. *)
Definition due (m : ROIMetrics) (price : Q) (lvl : Level) : bool :=
  negb (hit m lvl) && reached m lvl price.

(** The level the evaluator reports: the due level of highest priority. *)
Definition evaluate (m : ROIMetrics) (price : Q) : option Level :=
  if due m price TP3 then Some TP3
  else if due m price TP2 then Some TP2
  else if due m price TP1 then Some TP1
  else if due m price STOP then Some STOP
  else None.

(** The level an event dictionary speaks of. *)
Definition event_level (e : Event) : option Level :=
  match e with
  | EvTpHit _ lvl _ _ =>
      if decide (lvl = "tp1") then Some TP1
      else if decide (lvl = "tp2") then Some TP2
      else if decide (lvl = "tp3") then Some TP3
      else None
  | EvSlHit _ _ _ => Some STOP
  | EvError _ _ => None
  end.

(** The threshold event a call produced, if it produced one. *)
Definition produced (r : Res (option Event)) : option Level :=
  match r with
  | Return (Some e) => event_level e
  | _ => None
  end.

(** ** One call of [update_signal_price], seen from the object

    The pure counterparts of the methods, used to describe what a call
    leaves in the heap. *)

Definition level_name (lvl : Level) : string :=
  match lvl with
  | TP1 => "tp1" | TP2 => "tp2" | TP3 => "tp3" | STOP => "stop_loss"
  end.

Definition set_hit (lvl : Level) : ROIMetrics → ROIMetrics :=
  match lvl with
  | TP1 => set_tp1_hit true | TP2 => set_tp2_hit true
  | TP3 => set_tp3_hit true | STOP => set_sl_hit true
  end.

(** The fraction of the position a level closes. *)
Definition allocation (m : ROIMetrics) (lvl : Level) : Q :=
  match lvl with
  | TP1 => tp1_percentage | TP2 => tp2_percentage | TP3 => tp3_percentage
  | STOP => (1 - closed_percent m)%Q
  end.

Definition pct (m : ROIMetrics) (price : Q) : Q :=
  if decide (direction m = "long")
  then ((price - entry_price m) / entry_price m * 100)%Q
  else ((entry_price m - price) / entry_price m * 100)%Q.

Definition fill_of (m : ROIMetrics) (lvl : Level) (price : Q) (t : datetime) : Fill :=
  {| fill_level := level_name lvl; fill_price := price;
     percentage := allocation m lvl;
     profit_percent := pct m price;
     weighted_profit := (pct m price * allocation m lvl)%Q;
     timestamp := t |}.

Definition event_of (m : ROIMetrics) (lvl : Level) (price : Q) : Event :=
  match lvl with
  | STOP => EvSlHit (signal_id m) price (pct m price * allocation m STOP)%Q
  | _ => EvTpHit (signal_id m) (level_name lvl) price
           (pct m price * allocation m lvl)%Q
  end.

(** Does the handler of [lvl] close the signal?  [m] already carries the
    flag of [lvl]. *)
Definition closes (m : ROIMetrics) (lvl : Level) : bool :=
  match lvl with
  | TP3 | STOP => true
  | _ => tp1_hit m && tp2_hit m && tp3_hit m
  end.

Definition final_status (lvl : Level) : string :=
  match lvl with STOP => "stopped" | _ => "completed" end.

Definition closed_obj (st : string) (t : datetime) (m : ROIMetrics) : ROIMetrics :=
  set_current_roi (py_sum (weighted_profit <$> fills m))
    (set_close_time (Some t) (set_status st m)).

(** The value or the exception of [_calculate_current_roi]. *)
Definition roi (v : Variant) (m : ROIMetrics) (price : Q) : Res Q :=
  let closed_roi := py_sum (weighted_profit <$> fills m) in
  if py_gt (1 - closed_percent m) 0 then
    if py_eq (entry_price m) 0 then
      if zero_entry_guard v then Return closed_roi else Raise ZeroDivisionError
    else Return (closed_roi + pct m price * (1 - closed_percent m))%Q
  else Return (closed_roi + 0)%Q.

(** What a piece of a call comes to: what it returns, the object it
    leaves under the location, whether the object was moved to the
    archive, and how often the clock was read. *)
Record Outcome (A : Type) := {
  result : Res A;
  object : ROIMetrics;
  archived : bool;
  reads : nat;
}.
Arguments result {A} o.
Arguments object {A} o.
Arguments archived {A} o.
Arguments reads {A} o.

(** The handler of the level [lvl], on an object [m] that already carries
    the flag of [lvl]; the clock has been read [n] times before. *)
Definition handle (w : World) (v : Variant) (n : nat) (m : ROIMetrics)
    (lvl : Level) (price : Q) : Outcome Event :=
  if py_eq (entry_price m) 0 then
    {| result := if zero_entry_guard v
                 then Return (EvError (signal_id m) "entry_price_zero")
                 else Raise ZeroDivisionError;
       object := m; archived := false; reads := 0 |}
  else
    let filled := append_fill (fill_of m lvl price (clock w n)) m in
    if closes m lvl then
      {| result := Return (event_of m lvl price);
         object := closed_obj (final_status lvl) (clock w (S n)) filled;
         archived := true; reads := 2 |}
    else
      {| result := Return (event_of m lvl price);
         object := filled; archived := false; reads := 1 |}.

(** After the handler: the recomputed return is stored, unless the
    handler or the computation raises. *)
Definition store_roi (v : Variant) (price : Q) (o : Outcome (option Event))
    : Outcome (option Event) :=
  match result o with
  | Raise _ => o
  | Return _ =>
      match roi v (object o) price with
      | Return r =>
          {| result := result o; object := set_current_roi r (object o);
             archived := archived o; reads := reads o |}
      | Raise x =>
          {| result := Raise x; object := object o;
             archived := archived o; reads := reads o |}
      end
  end.

Definition some_event (o : Outcome Event) : Outcome (option Event) :=
  {| result := match result o with
               | Return e => Return (Some e)
               | Raise x => Raise x
               end;
     object := object o; archived := archived o; reads := reads o |}.

(** The outcome of a call of [update_signal_price] on the object [m] it
    finds under the identifier. *)
Definition step_obj (w : World) (v : Variant) (n : nat) (m : ROIMetrics)
    (price : Q) : Outcome (option Event) :=
  match evaluate m price with
  | None =>
      store_roi v price
        {| result := Return None; object := m; archived := false; reads := 0 |}
  | Some lvl =>
      store_roi v price (some_event (handle w v n (set_hit lvl m) lvl price))
  end.

(** The tracker a call leaves. *)
Definition step_tracker {A} (sid : string) (l : loc) (o : Outcome A)
    (t : Tracker) : Tracker :=
  {| heap := <[l := object o]> (heap t);
     active_signals :=
       if archived o then delete sid (active_signals t) else active_signals t;
     completed_signals :=
       if archived o then completed_signals t ++ [l] else completed_signals t;
     telegram := telegram t |}.

(** ** Runs

    [runs c t n r t' n']: started on the tracker [t] after [n] readings
    of the clock, the computation [c] ends in [r], leaves the tracker
    [t'] and has read the clock [n' - n] times, whatever the trace and
    the database did so far. *)
Definition runs {A} (c : M A) (t : Tracker) (n : nat)
    (r : Res A) (t' : Tracker) (n' : nat) : Prop :=
  ∀ e, clock_reads e = n →
    ∃ e', clock_reads e' = n' ∧
          c {| tracker := t; env := e |} = (r, {| tracker := t'; env := e' |}).

(** The four ways a call on an active signal can go: no level is due;
    a level is due but the entry price is zero; a level is due and its
    fill leaves the signal open; a level is due and its fill closes the
    signal. *)
Inductive step_shape (w : World) (n : nat) (m : ROIMetrics) (price : Q)
    (o : Outcome (option Event)) : Prop :=
| shape_idle :
    evaluate m price = None →
    archived o = false → reads o = 0 →
    (object o = m ∨ ∃ r, object o = set_current_roi r m) →
    (result o = Return None ∨ ∃ x, result o = Raise x) →
    step_shape w n m price o
| shape_zero lvl :
    evaluate m price = Some lvl →
    py_eq (entry_price m) 0 = true →
    archived o = false → reads o = 0 →
    (object o = set_hit lvl m ∨
     ∃ r, object o = set_current_roi r (set_hit lvl m)) →
    produced (result o) = None →
    step_shape w n m price o
| shape_fill lvl r :
    evaluate m price = Some lvl →
    py_eq (entry_price m) 0 = false →
    closes (set_hit lvl m) lvl = false →
    archived o = false → reads o = 1 →
    object o =
      set_current_roi r
        (append_fill (fill_of (set_hit lvl m) lvl price (clock w n))
           (set_hit lvl m)) →
    result o = Return (Some (event_of (set_hit lvl m) lvl price)) →
    step_shape w n m price o
| shape_close lvl r :
    evaluate m price = Some lvl →
    py_eq (entry_price m) 0 = false →
    closes (set_hit lvl m) lvl = true →
    archived o = true → reads o = 2 →
    object o =
      set_current_roi r
        (closed_obj (final_status lvl) (clock w (S n))
           (append_fill (fill_of (set_hit lvl m) lvl price (clock w n))
              (set_hit lvl m))) →
    result o = Return (Some (event_of (set_hit lvl m) lvl price)) →
    step_shape w n m price o.

(** ** Following one signal

    A call always overwrites [current_roi]; everything else about an
    object is told by the object with that field cleared. *)
Definition norm (m : ROIMetrics) : ROIMetrics := set_current_roi 0%Q m.

(** In the state [s] the identifier [sid] is active and leads, through
    the location [l], to the object [m] up to its [current_roi]. *)
Definition tracks (s : State) (sid : string) (l : loc) (m : ROIMetrics)
    : Prop :=
  active_signals (tracker s) !! sid = Some l
  ∧ signal_id m = sid
  ∧ ∃ m', heap (tracker s) !! l = Some m' ∧ norm m' = norm m.

(** The object a fill of [lvl] at [price] leaves, before any closing. *)
Definition filled (m : ROIMetrics) (lvl : Level) (price : Q) (t : datetime)
    : ROIMetrics :=
  append_fill (fill_of (set_hit lvl m) lvl price t) (set_hit lvl m).

(** A long signal with the levels of [m0], an entry price other than
    zero, the given target flags and the stop not hit. *)
Definition long_phase (m0 m : ROIMetrics) (h1 h2 h3 : bool) : Prop :=
  direction m = "long" ∧ py_eq (entry_price m) 0 = false
  ∧ stop_loss m = stop_loss m0
  ∧ tp1 m = tp1 m0 ∧ tp2 m = tp2 m0 ∧ tp3 m = tp3 m0
  ∧ tp1_hit m = h1 ∧ tp2_hit m = h2 ∧ tp3_hit m = h3 ∧ sl_hit m = false.

(** ** Reachable states

    The states a tracker goes through from its construction, by
    registrations and price updates. *)

Inductive reachable (w : World) (v : Variant) : State → Prop :=
| reach_init tg : reachable w v (__init__ tg)
| reach_register s d :
    reachable w v s → reachable w v (register_signal w v d s).2
| reach_update s sid p :
    reachable w v s → reachable w v (update_signal_price w v sid p s).2.

(** Every active identifier leads to an object that carries this
    identifier and is still open. *)
Definition wf (t : Tracker) : Prop :=
  ∀ sid l, active_signals t !! sid = Some l →
    ∃ m, heap t !! l = Some m ∧ signal_id m = sid ∧ status m = "active".

(** The sum of the fractions closed by the fills of a signal. *)
Definition filled_fraction (m : ROIMetrics) : Q :=
  py_sum (percentage <$> fills m).

(** The accounting of the fractions of one signal: a stopped signal has
    closed everything, any other signal has closed the allocations of the
    targets whose flag is set. *)
Definition fractions_ok (m : ROIMetrics) : Prop :=
  (status m = "stopped" ∧ (filled_fraction m == 1)%Q)
  ∨ ((status m = "active" ∨ status m = "completed")
     ∧ (filled_fraction m == closed_percent m)%Q).

(** The invariant of the tracker. *)
Definition inv (t : Tracker) : Prop :=
  wf t
  ∧ ∀ l m, heap t !! l = Some m → ¬ (entry_price m == 0)%Q → fractions_ok m.

(** The levels fired along a price path, in order. *)
Definition fired (rs : list (Res (option Event))) : list Level :=
  omap produced rs.

(** ** Registration, seen from the tracker *)

(** The identifier [register_signal] forms: the symbol and the whole
    seconds of the clock. *)
Definition new_id (d : SignalDef) (t : datetime) : string :=
  d_symbol d +:+ "_" +:+ pretty (timestamp_int t).

(** The tracker a registration leaves: a fresh object, filed under the
    new identifier. *)
Definition registered (w : World) (d : SignalDef) (n : nat) (t : Tracker)
    : Tracker :=
  {| heap := <[fresh (dom (heap t)) :=
                 new_metrics d (new_id d (clock w n)) (clock w (S n))]> (heap t);
     active_signals :=
       <[new_id d (clock w n) := fresh (dom (heap t))]> (active_signals t);
     completed_signals := completed_signals t;
     telegram := telegram t |}.

(** ** Statistics, seen from the archive *)

(** A signal counts as a win when its return is above zero. *)
Definition is_win (x : ROIMetrics) : bool := py_gt (current_roi x) 0.

(** The dictionary of a window without signals. *)
Definition empty_statistics : gmap string PyVal :=
  <["total_signals" := PyInt 0]>
  (<["win_rate" := PyFloat 0]>
  (<["average_roi" := PyFloat 0]>
  (<["total_roi" := PyFloat 0]> ∅))).

(** The dictionary of a window with the signals [recent]. *)
Definition full_statistics (days : Z) (recent : list ROIMetrics)
    : gmap string PyVal :=
  let total := length recent in
  let wins := length (List.filter is_win recent) in
  let losses := length (List.filter (λ x, negb (is_win x)) recent) in
  <["total_signals" := PyInt (Z.of_nat total)]>
  (<["wins" := PyInt (Z.of_nat wins)]>
  (<["losses" := PyInt (Z.of_nat losses)]>
  (<["win_rate" :=
      PyFloat (inject_Z (Z.of_nat wins) / inject_Z (Z.of_nat total) * 100)]>
  (<["average_roi" :=
      PyFloat (py_sum (current_roi <$> recent) / inject_Z (Z.of_nat total))]>
  (<["total_roi" := PyFloat (py_sum (current_roi <$> recent))]>
  (<["period_days" := PyInt days]> ∅)))))).

(** ** Contention on the database *)

(** The outcome is the error that SQLite reports for a locked database. *)
Definition locked (o : DbOutcome) : bool :=
  match o with
  | OperationalError e => py_in "database is locked" e
  | _ => false
  end.

(** What [k] failed attempts, from attempt number [a] on, leave in the
    trace of the later copy: a sleep of [retry_delay * 2 ** attempt] and a
    warning for each. *)
Definition backoff (a k : nat) : list Effect :=
  flat_map
    (λ i, [ Sleep (retry_delay * 2 ^ Z.of_nat i)%Q;
            Log WARNING (MsgDbLocked (i + 1) max_retries
                           (retry_delay * 2 ^ Z.of_nat i)%Q) ])
    (seq a k).

(** ** A running example

    The long position of [src/test_roi.py]: entry 50000, stop 49000,
    targets 50500, 51000 and 51500, on a database that accepts every
    write. *)

Definition example_world : World :=
  {| clock := λ n, (1700000000000000 + Z.of_nat n)%Z;
     db_outcome := λ _, Committed |}.

Definition example_long : SignalDef :=
  {| d_symbol := "BTCUSDT"; d_direction := "long";
     d_entry_price := 50000; d_stop_loss := 49000;
     d_tp1 := Some 50500%Q; d_tp2 := Some 51000%Q; d_tp3 := Some 51500%Q;
     d_quality_score := Some 80%Q |}.

Definition example_id : string := "BTCUSDT_1700000000".

Definition example_metrics : ROIMetrics :=
  {| signal_id := example_id; symbol := "BTCUSDT"; direction := "long";
     entry_price := 50000; stop_loss := 49000;
     tp1 := 50500; tp2 := 51000; tp3 := 51500;
     tp1_hit := false; tp2_hit := false; tp3_hit := false; sl_hit := false;
     current_roi := 0; status := "active";
     entry_time := 1700000000000001%Z; close_time := None; fills := [];
     quality_score := 80 |}.

(** A definition with entry price 0, and the object it is stored as. *)
Definition example_zero : SignalDef :=
  {| d_symbol := "ETHUSDT"; d_direction := "long";
     d_entry_price := 0; d_stop_loss := 0;
     d_tp1 := None; d_tp2 := None; d_tp3 := None;
     d_quality_score := None |}.

Definition example_zero_metrics : ROIMetrics :=
  new_metrics example_zero "ETHUSDT_1700000000" 1700000000000001%Z.

(** A database that is locked whenever it is tried. *)
Definition locked_world : World :=
  {| clock := λ n, (1700000000000000 + Z.of_nat n)%Z;
     db_outcome := λ _, OperationalError "database is locked" |}.

(** The tracker after the registration of the example. *)
Definition example_state (v : Variant) : State :=
  (register_signal example_world v example_long (__init__ false)).2.

(** ** Restart: reading the tracked set back (later copy)

    [_load_active_signals_from_db], [stop_monitoring], [_monitor_signal]
    and [_get_current_price] exist in the later copy only.  What the
    database answers to the query and what the exchanges answer to a
    poll are arguments of the methods.  The log lines of these four
    methods are not recorded in the trace. *)

(** A row of [SELECT id, symbol, direction, entry_price, stop_loss, tp1,
    tp2, tp3, status, timestamp FROM signals].  The entry price may be
    NULL, and the timestamp may be NULL or empty; the rows covered are
    those whose other columns hold values of their declared types. *)
Record DbRow := {
  row_id : Z;
  row_symbol : string;
  row_direction : string;
  row_entry_price : option Q;
  row_stop_loss : Q;
  row_tp1 : Q;
  row_tp2 : Q;
  row_tp3 : Q;
  row_status : string;
  row_timestamp : option datetime;
}.

(** [f"{row[1]}_{row[0]}"]. *)
Definition row_signal_id (row : DbRow) : string :=
  row_symbol row +:+ "_" +:+ pretty (row_id row).

(** [ROIMetrics(signal_id=..., symbol=row[1], ..., status=row[8],
    entry_time=...)]: the flags, the fills, the return and the quality
    score take the defaults of the dataclass. *)
Definition row_metrics (row : DbRow) (entry : Q) (entered : datetime)
    : ROIMetrics :=
  {| signal_id := row_signal_id row; symbol := row_symbol row;
     direction := row_direction row;
     entry_price := entry; stop_loss := row_stop_loss row;
     tp1 := row_tp1 row; tp2 := row_tp2 row; tp3 := row_tp3 row;
     tp1_hit := false; tp2_hit := false; tp3_hit := false; sl_hit := false;
     current_roi := 0%Q; status := row_status row;
     entry_time := entered; close_time := None; fills := [];
     quality_score := 0%Q |}.

(** The rows the loop passes over: [row[3] == 0 or row[3] is None]. *)
Definition skipped (row : DbRow) : bool :=
  match row_entry_price row with
  | Some entry => py_eq entry 0
  | None => true
  end.

(** [for row in rows: ...]. *)
Fixpoint load_rows (w : World) (rows : list DbRow) : M unit :=
  match rows with
  | [] => ret tt
  | row :: rest =>
      match row_entry_price row with
      | None => load_rows w rest
      | Some entry =>
          if py_eq entry 0 then load_rows w rest
          else
            (* row[9] or datetime.now().isoformat() *)
            let* entered := match row_timestamp row with
                            | Some t => ret t
                            | None => now w
                            end in
            let* l := alloc (row_metrics row entry entered) in
            write (λ t, with_active (<[row_signal_id row := l]>
                                       (active_signals t)) t) ;;;
            load_rows w rest
      end
  end.

(** [answer] is what the connection and the query come to: the rows, or
    [None] where one of them raises, which the method catches. *)
Definition _load_active_signals_from_db (w : World)
    (answer : option (list DbRow)) : M unit :=
  match answer with
  | Some rows => load_rows w rows
  | None => ret tt
  end.

(** [self.active_signals.clear()]. *)
Definition stop_monitoring : M unit := write (with_active ∅).

(** ** Prices from the exchanges (later copy) *)

(** The values of a ticker dictionary and of the JSON object it is made
    from: numbers, strings and [None]. *)
Inductive TickerVal :=
| VNum (q : Q)
| VStr (s : string)
| VNone.

Definition Ticker := gmap string TickerVal.

(** What [await connector.get_ticker(symbol)] comes to. *)
Inductive Answer :=
| Raises
| Answers (ticker : option Ticker).

(** The bot, as far as the tracker looks at it: a connector is [None]
    where the attribute is missing or falsy. *)
Record Bot := {
  binance_connector : option (string → Answer);
  bybit_connector : option (string → Answer);
}.

(** Truth value of a ticker value. *)
Definition truthy (x : TickerVal) : bool :=
  match x with
  | VNum q => negb (py_eq q 0)
  | VStr s => negb (String.eqb s "")
  | VNone => false
  end.

(** [x or y]. *)
Definition py_or (x y : TickerVal) : TickerVal := if truthy x then x else y.

(** [int(q)] on a number: truncation towards zero. *)
Definition py_trunc (q : Q) : Z := (Qnum q ÷ Z.pos (Qden q))%Z.

(** What a request to the REST interface comes to: an exception of the
    client, or a status with the JSON body, [None] where the body does
    not parse. *)
Inductive HttpResult :=
| HttpError
| HttpResponse (status : Z) (body : option (gmap string TickerVal)).

Section Exchanges.

(** [float(s)] and [int(s)] on strings, [None] where they raise; and
    [DataValidator.validate_price], which is not part of the sources. *)
Context (float_of_str : string → option Q) (int_of_str : string → option Z).
Context (validate_price : Q → string → bool).

(** [float(x)], [None] where it raises. *)
Definition py_float (x : TickerVal) : option Q :=
  match x with
  | VNum q => Some q
  | VStr s => float_of_str s
  | VNone => None
  end.

(** [int(x)], [None] where it raises. *)
Definition py_int (x : TickerVal) : option Z :=
  match x with
  | VNum q => Some (py_trunc q)
  | VStr s => int_of_str s
  | VNone => None
  end.

(** [EnhancedBinanceConnector.get_ticker]: every exception inside is
    caught and answered by [None], as is every status other than 200. *)
Definition get_ticker (response : HttpResult) (symbol : string)
    : option Ticker :=
  match response with
  | HttpError => None
  | HttpResponse status body =>
      if (status =? 200)%Z then
        data ← body;
        sym ← data !! "symbol";
        last_price ← data !! "lastPrice" ≫= py_float;
        price_24h_pcnt ← data !! "priceChangePercent" ≫= py_float;
        volume_24h ← data !! "volume" ≫= py_float;
        quote_volume_24h ← data !! "quoteVolume" ≫= py_float;
        high_24h ← data !! "highPrice" ≫= py_float;
        low_24h ← data !! "lowPrice" ≫= py_float;
        bid_price ← data !! "bidPrice" ≫= py_float;
        ask_price ← data !! "askPrice" ≫= py_float;
        open_price ← data !! "openPrice" ≫= py_float;
        trades_count ← data !! "count" ≫= py_int;
        let ticker : Ticker :=
          <["symbol" := sym]>
          (<["last_price" := VNum last_price]>
          (<["price_24h_pcnt" := VNum price_24h_pcnt]>
          (<["volume_24h" := VNum volume_24h]>
          (<["quote_volume_24h" := VNum quote_volume_24h]>
          (<["high_24h" := VNum high_24h]>
          (<["low_24h" := VNum low_24h]>
          (<["bid_price" := VNum bid_price]>
          (<["ask_price" := VNum ask_price]>
          (<["open_price" := VNum open_price]>
          (<["trades_count" := VNum (inject_Z trades_count)]> ∅)))))))))) in
        if validate_price last_price symbol then Some ticker else None
      else None
  end.

(** The first [try] block of [_get_current_price]: the price it returns,
    or [None] where control goes on to the second block. *)
Definition binance_price (a : Answer) : option Q :=
  match a with
  | Answers (Some ticker) =>
      (* if ticker and "price" in ticker *)
      if negb (size ticker =? 0)%nat then
        match ticker !! "price" with
        | Some x =>
            match py_float x with
            | Some price => if py_gt price 0 then Some price else None
            | None => None
            end
        | None => None
        end
      else None
  | _ => None
  end.

(** The second [try] block. *)
Definition bybit_price (a : Answer) : option Q :=
  match a with
  | Answers (Some ticker) =>
      if negb (size ticker =? 0)%nat then
        match py_float (py_or (default (VNum 0) (ticker !! "lastPrice"))
                              (default (VNum 0) (ticker !! "last_price"))) with
        | Some price => if py_gt price 0 then Some price else None
        | None => None
        end
      else None
  | _ => None
  end.

(** [bot] is [self.bot], [None] where the attribute is missing or
    falsy. *)
Definition _get_current_price (bot : option Bot) (symbol : string)
    : option Q :=
  match bot with
  | None => None
  | Some b =>
      match
        match binance_connector b with
        | Some connector => binance_price (connector symbol)
        | None => None
        end
      with
      | Some price => Some price
      | None =>
          match bybit_connector b with
          | Some connector => bybit_price (connector symbol)
          | None => None
          end
      end
  end.

End Exchanges.

(** ** Polling (later copy) *)

(** [try: c except Exception: ...]: what [c] did to the state before it
    raised stays done. *)
Definition catch {A} (c : M A) : M (option A) :=
  λ s, match c s with
       | (Return a, s') => (Return (Some a), s')
       | (Raise _, s') => (Return None, s')
       end.

(** How the model leaves the loop of [_monitor_signal]: the identifier
    is no longer active, or the polls that were given are used up while
    it still is. *)
Inductive LoopEnd := Exited | Polling.

(** The loop of [_monitor_signal], over the state of the bot at each
    poll.  A cancellation of the task is outside the model. *)
Fixpoint _monitor_signal (w : World) (float_of_str : string → option Q)
    (sid : string) (polls : list (option Bot)) : M LoopEnd :=
  let* found := read (λ t, active_signals t !! sid) in
  match found with
  | None => ret Exited
  | Some l =>
      match polls with
      | [] => ret Polling
      | bot :: rest =>
          let* m := deref l in
          catch
            (match _get_current_price float_of_str bot (symbol m) with
             | Some current_price =>
                 (* if current_price: *)
                 if py_eq current_price 0 then ret tt
                 else
                   update_signal_price w TelegramBot sid current_price ;;;
                   ret tt
             | None => ret tt
             end) ;;;
          emit (Sleep 15) ;;;
          _monitor_signal w float_of_str sid rest
      end
  end.

(** [start_monitoring]: the tracked set is read back, and a task running
    [_monitor_signal] is created for every identifier that is active
    then; the set of these identifiers is returned.  The scheduling of
    the tasks is outside the model. *)
Definition start_monitoring (w : World) (answer : option (list DbRow))
    : M (gset string) :=
  _load_active_signals_from_db w answer ;;;
  read (λ t, dom (active_signals t)).

(** One turn of the loop of [_monitor_signal], seen from the state: the
    price of the poll, if there is one, is handed to
    [update_signal_price]. *)
Definition poll (w : World) (float_of_str : string → option Q) (sid : string)
    (bot : option Bot) (sym : string) (s : State) : State :=
  match _get_current_price float_of_str bot sym with
  | Some price => (update_signal_price w TelegramBot sid price s).2
  | None => s
  end.

(** ** The lifetime of a signal *)

(** The levels a signal fires from first to last: the targets 1 and 2
    at most once each, in either order, and after them at most one
    closing level. *)
Definition lifetime (lvls : list Level) : Prop :=
  ∃ pre last,
    lvls = pre ++ last
    ∧ NoDup pre ∧ Forall (λ lvl, lvl = TP1 ∨ lvl = TP2) pre
    ∧ (last = [] ∨ last = [TP3] ∨ last = [STOP]).

(** The fills of a signal and its flags tell the same: the fills are
    fills of levels that differ from each other, and these levels are
    the ones whose flag is set. *)
Definition ledger_ok (m : ROIMetrics) : Prop :=
  ∃ lvls, fill_level <$> fills m = level_name <$> lvls
          ∧ NoDup lvls
          ∧ ∀ lvl, hit m lvl = true ↔ lvl ∈ lvls.

Definition ledger (t : Tracker) : Prop :=
  ∀ l m, heap t !! l = Some m → ¬ (entry_price m == 0)%Q → ledger_ok m.

(** ** The archive *)

(** An archived signal: its status is final and its closing time is set. *)
Definition closed (m : ROIMetrics) : Prop :=
  (status m = "completed" ∨ status m = "stopped") ∧ is_Some (close_time m).

(** The invariant of the tracker, with the archive: no location is
    archived twice, and every archived location holds a closed signal. *)
Definition sound (t : Tracker) : Prop :=
  inv t
  ∧ NoDup (completed_signals t)
  ∧ ∀ l, l ∈ completed_signals t → ∃ m, heap t !! l = Some m ∧ closed m.

(** The archive of [t'] continues the archive of [t], and the objects
    archived in [t] are as they were. *)
Definition extends (t t' : Tracker) : Prop :=
  completed_signals t `prefix_of` completed_signals t'
  ∧ ∀ l, l ∈ completed_signals t → heap t' !! l = heap t !! l.

(** The states that calls of the public methods lead to from a state.
    The methods of the later copy are calls of the later copy only, and
    the rows that the database answers satisfy the
    [WHERE status = 'active'] of the query. *)
Inductive evolves (w : World) (v : Variant) (s : State) : State → Prop :=
| evolves_refl : evolves w v s s
| evolves_register s' d :
    evolves w v s s' → evolves w v s (register_signal w v d s').2
| evolves_update s' sid price :
    evolves w v s s' → evolves w v s (update_signal_price w v sid price s').2
| evolves_statistics s' days :
    evolves w v s s' → evolves w v s (get_statistics w days s').2
| evolves_start s' rows :
    v = TelegramBot →
    Forall (λ row, row_status row = "active") rows →
    evolves w v s s' → evolves w v s (start_monitoring w (Some rows) s').2
| evolves_start_failed s' :
    v = TelegramBot →
    evolves w v s s' → evolves w v s (start_monitoring w None s').2
| evolves_monitor s' float_of_str sid polls :
    v = TelegramBot →
    evolves w v s s' →
    evolves w v s (_monitor_signal w float_of_str sid polls s').2
| evolves_stop s' :
    v = TelegramBot →
    evolves w v s s' → evolves w v s (stop_monitoring s').2.

(** Computations that leave the tracker as it is. *)
Definition keeps {A} (c : M A) : Prop := ∀ s, tracker (c s).2 = tracker s.

(** ** Mirror images *)

(** The mirror image of a price about the entry price of a signal. *)
Definition mirror_price (m : ROIMetrics) (p : Q) : Q :=
  (2 * entry_price m - p)%Q.

(** The mirror image of a signal: the other direction, and every level
    mirrored about the entry price. *)
Definition mirror (m : ROIMetrics) : ROIMetrics :=
  {| signal_id := signal_id m; symbol := symbol m;
     direction := if decide (direction m = "long") then "short" else "long";
     entry_price := entry_price m;
     stop_loss := mirror_price m (stop_loss m);
     tp1 := mirror_price m (tp1 m); tp2 := mirror_price m (tp2 m);
     tp3 := mirror_price m (tp3 m);
     tp1_hit := tp1_hit m; tp2_hit := tp2_hit m; tp3_hit := tp3_hit m;
     sl_hit := sl_hit m; current_roi := current_roi m; status := status m;
     entry_time := entry_time m; close_time := close_time m;
     fills := fills m; quality_score := quality_score m |}.

(** ** More of the running example *)

(** A database that is locked for the first [k] attempts and accepts
    every write after them. *)
Definition busy_world (k : nat) : World :=
  {| clock := λ n, (1700000000000000 + Z.of_nat n)%Z;
     db_outcome := λ n, if (n <? k)%nat
                        then OperationalError "database is locked"
                        else Committed |}.

(** A short position with the entry price and the first target of
    [src/test_roi.py]. *)
Definition example_short : SignalDef :=
  {| d_symbol := "ETHUSDT"; d_direction := "short";
     d_entry_price := 3000; d_stop_loss := 3030;
     d_tp1 := Some 2970%Q; d_tp2 := Some 2940%Q; d_tp3 := Some 2910%Q;
     d_quality_score := None |}.

(** The tracker after the registration of both positions. *)
Definition example_pair (v : Variant) : State :=
  (register_signal example_world v example_short (example_state v)).2.

(** Three rows of the table: one to be tracked, one with entry price 0,
    one without entry price and without timestamp. *)
Definition example_rows : list DbRow :=
  [ {| row_id := 7; row_symbol := "BTCUSDT"; row_direction := "long";
       row_entry_price := Some 50000%Q; row_stop_loss := 49000;
       row_tp1 := 50500; row_tp2 := 51000; row_tp3 := 51500;
       row_status := "active";
       row_timestamp := Some 1700000000000001%Z |};
    {| row_id := 8; row_symbol := "ETHUSDT"; row_direction := "long";
       row_entry_price := Some 0%Q; row_stop_loss := 0;
       row_tp1 := 0; row_tp2 := 0; row_tp3 := 0;
       row_status := "active";
       row_timestamp := Some 1700000000000002%Z |};
    {| row_id := 9; row_symbol := "SOLUSDT"; row_direction := "short";
       row_entry_price := None; row_stop_loss := 110;
       row_tp1 := 95; row_tp2 := 90; row_tp3 := 85;
       row_status := "active"; row_timestamp := None |} ].

(** A bot with a Bybit connector only, whose ticker carries the given
    last price. *)
Definition example_bot (price : Q) : option Bot :=
  Some {| binance_connector := None;
          bybit_connector :=
            Some (λ _, Answers (Some {[ "lastPrice" := VNum price ]})) |}.

(** [float] and [int] on the strings of the examples. *)
Definition example_float (s : string) : option Q :=
  if String.eqb s "50600.00" then Some 50600%Q
  else if String.eqb s "1.5" then Some 1.5%Q
  else None.

Definition example_int (s : string) : option Z :=
  if String.eqb s "100" then Some 100%Z else None.

(** A body of [/api/v3/ticker/24hr], with its numbers as strings. *)
Definition example_body : gmap string TickerVal :=
  <["symbol" := VStr "BTCUSDT"]>
  (<["lastPrice" := VStr "50600.00"]>
  (<["priceChangePercent" := VStr "1.5"]>
  (<["volume" := VStr "1.5"]>
  (<["quoteVolume" := VStr "1.5"]>
  (<["highPrice" := VStr "50600.00"]>
  (<["lowPrice" := VStr "50600.00"]>
  (<["bidPrice" := VStr "50600.00"]>
  (<["askPrice" := VStr "50600.00"]>
  (<["openPrice" := VStr "50600.00"]>
  (<["count" := VNum 100]> ∅)))))))))).

(** ** Telegram messages *)

(** The Telegram messages of a trace. *)
Definition alert_of (x : Effect) : option Alert :=
  match x with TelegramAlert a => Some a | _ => None end.

Definition alerts (tr : list Effect) : list Alert := omap alert_of tr.

(** [says c t n out]: started on the tracker [t] after [n] readings of
    the clock, the computation [c] hands the messages [out] to
    Telegram, whatever the database does. *)
Definition says {A} (c : M A) (t : Tracker) (n : nat) (out : list Alert)
    : Prop :=
  ∀ e, clock_reads e = n →
    alerts (trace (env (c {| tracker := t; env := e |}).2))
    = alerts (trace e) ++ out.

(** The message of a level: the template, and the figures it shows. *)
Definition alert_with (m : ROIMetrics) (lvl : Level) (price percent : Q)
    : Alert :=
  {| template :=
       match lvl with
       | TP1 => if negb (Qle_bool 50 (quality_score m))
                then "TP1 (RISKY ENTRY)" else "TP1"
       | TP2 => "TP2" | TP3 => "TP3" | STOP => "STOP"
       end;
     alert_symbol := symbol m; alert_direction := direction m;
     alert_entry := entry_price m; alert_current := price;
     alert_level :=
       match lvl with
       | TP1 => tp1 m | TP2 => tp2 m | TP3 => tp3 m | STOP => stop_loss m
       end;
     alert_percent := percent |}.

(** The message of a threshold event: a target shows the return of the
    position in per cent, the stop shows the loss weighted by the share
    it closes. *)
Definition alert_for (m : ROIMetrics) (lvl : Level) (price : Q) : Alert :=
  alert_with m lvl price
    match lvl with
    | STOP => (pct m price * allocation m STOP)%Q
    | _ => pct m price
    end.

(** The messages of a handler. *)
Definition handle_alerts (t : Tracker) (m : ROIMetrics) (lvl : Level)
    (price : Q) : list Alert :=
  if py_eq (entry_price m) 0 then []
  else if telegram t then [alert_for m lvl price] else [].

(** The messages of a price update: those of the handler of the level
    that fires. *)
Definition update_alerts (t : Tracker) (m : ROIMetrics) (price : Q)
    : list Alert :=
  match evaluate m price with
  | Some lvl => handle_alerts t m lvl price
  | None => []
  end.

(** The tracker of the running example with a Telegram handler attached. *)
Definition example_notifying : State :=
  (register_signal example_world TelegramBot example_long (__init__ true)).2.

(** * Properties *)

(** ** Comparisons *)

Lemma py_ge_spec x y : reflect (y <= x)%Q (py_ge x y).
Proof.
  unfold py_ge. destruct (Qle_bool y x) eqn:E; constructor.
  - by apply Qle_bool_iff.
  - intros H. apply Qle_bool_iff in H. congruence.
Qed.

Lemma py_le_spec x y : reflect (x <= y)%Q (py_le x y).
Proof. apply py_ge_spec. Qed.

Lemma py_gt_spec x y : reflect (y < x)%Q (py_gt x y).
Proof.
  unfold py_gt. destruct (Qle_bool x y) eqn:E; constructor.
  - apply Qle_bool_iff in E. lra.
  - destruct (Qlt_le_dec y x) as [|H]; [done|].
    apply Qle_bool_iff in H. congruence.
Qed.

Lemma py_eq_spec x y : reflect (x == y)%Q (py_eq x y).
Proof.
  unfold py_eq. destruct (Qeq_bool x y) eqn:E; constructor.
  - by apply Qeq_bool_iff.
  - by apply Qeq_bool_neq.
Qed.

Lemma py_sum_app xs x : py_sum (xs ++ [x]) = (py_sum xs + x)%Q.
Proof. unfold py_sum. by rewrite foldl_app. Qed.

(** The open fraction is computed without rounding: for every setting of
    the three flags, the binary64 value is the rational one. *)
Lemma remaining_percent_float_exact h1 h2 h3 :
  float_to_Q (remaining_percent_float h1 h2 h3)
  = Some (Qred (1 - py_sum [ if h1 then tp1_percentage else 0;
                             if h2 then tp2_percentage else 0;
                             if h3 then tp3_percentage else 0 ])%Q).
Proof. destruct h1, h2, h3; vm_compute; reflexivity. Qed.

(** ** Rules of the run judgement *)

(** Closes a run whose computation has been evaluated. *)
Ltac run_done := eexists; (split; [|reflexivity]); cbn; done.

Section Rules.

Context (w : World).

Lemma runs_ret {A} (a : A) t n : runs (ret a) t n (Return a) t n.
Proof. intros e He. by exists e. Qed.

Lemma runs_raise {A} x t n : runs (@raise A x) t n (Raise x) t n.
Proof. intros e He. by exists e. Qed.

Lemma runs_bind {A B} (c : M A) (k : A → M B) t n a t1 n1 r t2 n2 :
  runs c t n (Return a) t1 n1 → runs (k a) t1 n1 r t2 n2 →
  runs (bind c k) t n r t2 n2.
Proof.
  intros Hc Hk e He. destruct (Hc e He) as (e1 & He1 & Hrun).
  destruct (Hk e1 He1) as (e2 & He2 & Hrun2).
  exists e2. split; [done|]. unfold bind. by rewrite Hrun.
Qed.

Lemma runs_bind_raise {A B} (c : M A) (k : A → M B) t n x t1 n1 :
  runs c t n (Raise x) t1 n1 → runs (bind c k) t n (Raise x) t1 n1.
Proof.
  intros Hc e He. destruct (Hc e He) as (e1 & He1 & Hrun).
  exists e1. split; [done|]. unfold bind. by rewrite Hrun.
Qed.

Lemma runs_deref l m t n :
  heap t !! l = Some m → runs (deref l) t n (Return m) t n.
Proof.
  intros Hl e He. exists e. split; [done|]. unfold deref; cbn. by rewrite Hl.
Qed.

Lemma runs_assign l f m t n :
  heap t !! l = Some m →
  runs (assign l f) t n (Return tt) (with_heap (<[l := f m]> (heap t)) t) n.
Proof.
  intros Hl e He. exists e. split; [done|]. unfold assign; cbn. by rewrite Hl.
Qed.

Lemma runs_emit x t n : runs (emit x) t n (Return tt) t n.
Proof. intros e He. run_done. Qed.

Lemma runs_log lvl msg t n : runs (log lvl msg) t n (Return tt) t n.
Proof. apply runs_emit. Qed.

Lemma runs_write f t n : runs (write f) t n (Return tt) (f t) n.
Proof. intros e He. by exists e. Qed.

Lemma runs_read {A} (f : Tracker → A) t n :
  runs (read f) t n (Return (f t)) t n.
Proof. intros e He. by exists e. Qed.

Lemma runs_del_active key l t n :
  active_signals t !! key = Some l →
  runs (del_active key) t n (Return tt)
    (with_active (delete key (active_signals t)) t) n.
Proof.
  intros Ha. unfold del_active.
  eapply runs_bind; [apply (runs_read (λ t, active_signals t !! key))|].
  cbv beta. rewrite Ha.
  apply (runs_write (λ t, with_active (delete key (active_signals t)) t)).
Qed.

Lemma runs_now t n : runs (now w) t n (Return (clock w n)) t (S n).
Proof. intros e <-. run_done. Qed.

(** The database is only ever written to: whatever it answers, an update
    returns normally and leaves the tracker as it found it. *)
Lemma runs_update_attempts v l final m atts t n :
  heap t !! l = Some m →
  runs (update_attempts w v l final atts) t n (Return tt) t n.
Proof.
  intros Hl. induction atts as [|a atts IH]; intros e He; cbn.
  - by exists e.
  - unfold bind at 1, deref; cbn. rewrite Hl. cbn.
    destruct (db_outcome _ _); cbn; [run_done| |run_done].
    destruct (_ && _); cbn; [|run_done].
    apply IH. done.
Qed.

Lemma runs_update_signal_in_db v l final m t n :
  heap t !! l = Some m →
  runs (_update_signal_in_db w v l final) t n (Return tt) t n.
Proof.
  intros Hl. unfold _update_signal_in_db. destruct v.
  - intros e He. unfold bind, deref; cbn. rewrite Hl; cbn.
    destruct (db_outcome _ _); cbn; run_done.
  - by eapply runs_update_attempts.
Qed.

Lemma runs_save_signal_to_db v l m t n :
  heap t !! l = Some m →
  runs (_save_signal_to_db w v l) t n (Return tt) t n.
Proof.
  intros Hl e He. unfold _save_signal_to_db, bind, deref; cbn. rewrite Hl; cbn.
  destruct (db_outcome _ _); cbn; run_done.
Qed.

End Rules.

(** ** What the methods do to the tracker *)

Section Methods.

Context (w : World).

Lemma runs_eq {A} (c : M A) t n r r' t1 t2 n1 n2 :
  runs c t n r t1 n1 → r = r' → t1 = t2 → n1 = n2 → runs c t n r' t2 n2.
Proof. by intros H <- <- <-. Qed.

Lemma tracker_eq t1 t2 :
  heap t1 = heap t2 → active_signals t1 = active_signals t2 →
  completed_signals t1 = completed_signals t2 → telegram t1 = telegram t2 →
  t1 = t2.
Proof. destruct t1, t2; cbn; by intros -> -> -> ->. Qed.

Lemma runs_send_tp_notification l lvl price pp m t n :
  heap t !! l = Some m →
  runs (_send_tp_notification l lvl price pp) t n (Return tt) t n.
Proof.
  intros Hl e He. unfold _send_tp_notification, bind, read, deref; cbn.
  destruct (telegram t); cbn; [|run_done]. rewrite Hl; cbn. run_done.
Qed.

Lemma runs_send_stop_notification l price lp m t n :
  heap t !! l = Some m →
  runs (_send_stop_notification l price lp) t n (Return tt) t n.
Proof.
  intros Hl e He. unfold _send_stop_notification, bind, read, deref; cbn.
  destruct (telegram t); cbn; [|run_done]. rewrite Hl; cbn. run_done.
Qed.

Lemma runs_percent_return m price t n :
  runs (percent_return m price) t n
    (if py_eq (entry_price m) 0 then Raise ZeroDivisionError
     else Return (pct m price)) t n.
Proof.
  intros e He. unfold percent_return, pct, py_div, bind.
  destruct (decide _), (py_eq _ _); cbn; run_done.
Qed.

Lemma runs_close_signal v l st m x t n :
  heap t !! l = Some m → active_signals t !! signal_id m = Some x →
  runs (_close_signal w v l st) t n (Return tt)
    {| heap := <[l := closed_obj st (clock w n) m]> (heap t);
       active_signals := delete (signal_id m) (active_signals t);
       completed_signals := completed_signals t ++ [l];
       telegram := telegram t |} (S n).
Proof.
  intros Hl Ha. unfold _close_signal.
  eapply runs_eq; [|reflexivity| |reflexivity].
  { eapply runs_bind; [by eapply runs_assign|].
    eapply runs_bind; [apply runs_now|].
    eapply runs_bind; [eapply runs_assign; cbn; apply lookup_insert_eq|].
    eapply runs_bind; [eapply runs_deref; cbn; apply lookup_insert_eq|].
    eapply runs_bind; [eapply runs_assign; cbn; apply lookup_insert_eq|].
    eapply runs_bind; [apply runs_write|].
    eapply runs_bind; [eapply runs_del_active; cbn; exact Ha|].
    eapply runs_bind;
      [eapply runs_update_signal_in_db; cbn; apply lookup_insert_eq|].
    apply runs_log. }
  apply tracker_eq; cbn; [|done..].
  by rewrite !insert_insert_eq.
Qed.

Lemma step_tracker_same {A} (o : Outcome A) sid l m t :
  heap t !! l = Some m → object o = m → archived o = false →
  step_tracker sid l o t = t.
Proof.
  intros Hl Ho Ha. apply tracker_eq; unfold step_tracker; cbn; rewrite ?Ha, ?Ho; try done.
  by apply insert_id.
Qed.

Lemma runs_handle_tp_hit v l lvl price m x t n :
  heap t !! l = Some m → active_signals t !! signal_id m = Some x →
  lvl ≠ STOP →
  runs (_handle_tp_hit w v l (level_name lvl) price) t n
    (result (handle w v n m lvl price))
    (step_tracker (signal_id m) l (handle w v n m lvl price) t)
    (n + reads (handle w v n m lvl price)).
Proof.
  intros Hl Ha Hlvl. unfold _handle_tp_hit, handle.
  eapply runs_bind; [by eapply runs_deref|]. cbv beta.
  destruct (py_eq (entry_price m) 0) eqn:Hz.
  - destruct (zero_entry_guard v); cbn [andb].
    + eapply runs_eq;
        [eapply runs_bind; [apply runs_log|apply runs_ret]
        |reflexivity
        |symmetry; by eapply step_tracker_same
        |cbn; lia].
    + eapply runs_eq;
        [apply runs_bind_raise;
         generalize (runs_percent_return m price t n); by rewrite Hz
        |reflexivity
        |symmetry; by eapply step_tracker_same
        |cbn; lia].
  - rewrite andb_false_r.
    eapply runs_bind.
    { generalize (runs_percent_return m price t n). rewrite Hz. done. }
    eapply runs_bind; [apply runs_now|].
    eapply runs_bind; [by eapply runs_assign|].
    eapply runs_bind; [apply runs_log|].
    eapply runs_bind;
      [eapply runs_send_tp_notification; cbn; apply lookup_insert_eq|].
    eapply runs_bind; [eapply runs_deref; cbn; apply lookup_insert_eq|].
    cbv beta.
    assert (Hfill :
      {| fill_level := level_name lvl; fill_price := price;
         percentage :=
           if decide (level_name lvl = "tp1") then tp1_percentage
           else if decide (level_name lvl = "tp2") then tp2_percentage
           else tp3_percentage;
         profit_percent := pct m price;
         weighted_profit :=
           (pct m price *
            (if decide (level_name lvl = "tp1") then tp1_percentage
             else if decide (level_name lvl = "tp2") then tp2_percentage
             else tp3_percentage))%Q;
         timestamp := clock w n |} = fill_of m lvl price (clock w n)).
    { by destruct lvl. }
    assert (Hev :
      EvTpHit (signal_id m) (level_name lvl) price
        (pct m price *
           (if decide (level_name lvl = "tp1") then tp1_percentage
            else if decide (level_name lvl = "tp2") then tp2_percentage
            else tp3_percentage))%Q = event_of m lvl price).
    { by destruct lvl. }
    rewrite Hfill, Hev.
    assert (Hcl :
      bool_decide (level_name lvl = "tp3")
      || tp1_hit (append_fill (fill_of m lvl price (clock w n)) m)
         && tp2_hit (append_fill (fill_of m lvl price (clock w n)) m)
         && tp3_hit (append_fill (fill_of m lvl price (clock w n)) m)
      = closes m lvl).
    { by destruct lvl. }
    rewrite Hcl. destruct (closes m lvl) eqn:Hc.
    + eapply runs_eq.
      { eapply runs_bind; [|apply runs_ret].
        eapply runs_close_signal; cbn; [apply lookup_insert_eq|exact Ha]. }
      { reflexivity. }
      { apply tracker_eq; cbn; [|done..].
        rewrite insert_insert_eq. by destruct lvl. }
      { cbn; lia. }
    + eapply runs_eq.
      { eapply runs_bind; [apply runs_ret|apply runs_ret]. }
      { reflexivity. }
      { by apply tracker_eq. }
      { cbn; lia. }
Qed.

Lemma runs_handle_sl_hit v l price m x t n :
  heap t !! l = Some m → active_signals t !! signal_id m = Some x →
  runs (_handle_sl_hit w v l price) t n
    (result (handle w v n m STOP price))
    (step_tracker (signal_id m) l (handle w v n m STOP price) t)
    (n + reads (handle w v n m STOP price)).
Proof.
  intros Hl Ha. unfold _handle_sl_hit, handle.
  eapply runs_bind; [by eapply runs_deref|]. cbv beta.
  destruct (py_eq (entry_price m) 0) eqn:Hz.
  - destruct (zero_entry_guard v); cbn [andb].
    + eapply runs_eq;
        [eapply runs_bind; [apply runs_log|apply runs_ret]
        |reflexivity
        |symmetry; by eapply step_tracker_same
        |cbn; lia].
    + eapply runs_eq;
        [apply runs_bind_raise;
         generalize (runs_percent_return m price t n); by rewrite Hz
        |reflexivity
        |symmetry; by eapply step_tracker_same
        |cbn; lia].
  - rewrite andb_false_r.
    eapply runs_bind.
    { generalize (runs_percent_return m price t n). rewrite Hz. done. }
    eapply runs_bind; [apply runs_now|].
    eapply runs_bind; [by eapply runs_assign|].
    eapply runs_bind; [apply runs_log|].
    eapply runs_bind;
      [eapply runs_send_stop_notification; cbn; apply lookup_insert_eq|].
    eapply runs_eq.
    { eapply runs_bind; [|apply runs_ret].
      eapply runs_close_signal; cbn; [apply lookup_insert_eq|exact Ha]. }
    { reflexivity. }
    { apply tracker_eq; cbn; [|done..]. by rewrite insert_insert_eq. }
    { cbn; lia. }
Qed.

Lemma runs_calculate_current_roi v l price m t n :
  heap t !! l = Some m →
  runs (_calculate_current_roi v l price) t n (roi v m price) t n.
Proof.
  intros Hl. unfold _calculate_current_roi, roi.
  eapply runs_bind; [by eapply runs_deref|]. cbv beta.
  destruct (py_gt _ _); [|apply runs_ret].
  destruct (py_eq (entry_price m) 0) eqn:Hz.
  - destruct (zero_entry_guard v); cbn [andb].
    + eapply runs_bind; [apply runs_log|]. apply runs_ret.
    + apply runs_bind_raise.
      generalize (runs_percent_return m price t n). by rewrite Hz.
  - rewrite andb_false_r. eapply runs_bind; [|apply runs_ret].
    generalize (runs_percent_return m price t n). by rewrite Hz.
Qed.

Lemma runs_bind_map {A B} (c : M A) (f : A → B) t n r t1 n1 :
  runs c t n r t1 n1 →
  runs (bind c (λ a, ret (f a))) t n
    (match r with Return a => Return (f a) | Raise x => Raise x end) t1 n1.
Proof.
  intros Hc. destruct r.
  - eapply runs_bind; [exact Hc|apply runs_ret].
  - by apply runs_bind_raise.
Qed.

(** Setting the flag of a level and running its handler. *)
Lemma runs_fire v sid l m lvl price t n :
  active_signals t !! sid = Some l → heap t !! l = Some m →
  signal_id m = sid →
  runs (assign l (set_hit lvl) ;;;
        let* e := match lvl with
                  | STOP => _handle_sl_hit w v l price
                  | _ => _handle_tp_hit w v l (level_name lvl) price
                  end in
        ret (Some e)) t n
    (result (some_event (handle w v n (set_hit lvl m) lvl price)))
    (step_tracker sid l (some_event (handle w v n (set_hit lvl m) lvl price)) t)
    (n + reads (handle w v n (set_hit lvl m) lvl price)).
Proof.
  intros Ha Hl Hsid.
  assert (Hsid' : signal_id (set_hit lvl m) = sid) by by destruct lvl.
  eapply runs_bind; [by eapply runs_assign|]. cbv beta.
  eapply runs_eq.
  - apply runs_bind_map.
    destruct lvl.
    1-3: eapply runs_handle_tp_hit; cbn [heap with_heap active_signals];
      [apply lookup_insert_eq|rewrite Hsid'; exact Ha|done].
    eapply runs_handle_sl_hit; cbn [heap with_heap active_signals];
      [apply lookup_insert_eq|rewrite Hsid'; exact Ha].
  - reflexivity.
  - rewrite Hsid'. apply tracker_eq; cbn; [|done..].
    by rewrite insert_insert_eq.
  - reflexivity.
Qed.

(** Storing the recomputed return and writing it to the database. *)
Lemma runs_finish v l price (o : Outcome (option Event)) ev t n :
  result o = Return ev → heap t !! l = Some (object o) →
  runs (let* r := _calculate_current_roi v l price in
        assign l (set_current_roi r) ;;;
        _update_signal_in_db w v l false ;;;
        ret ev) t n
    (result (store_roi v price o))
    (with_heap (<[l := object (store_roi v price o)]> (heap t)) t) n.
Proof.
  intros Hr Hl. unfold store_roi. rewrite Hr.
  pose proof (runs_calculate_current_roi v l price _ t n Hl) as Hroi.
  destruct (roi v (object o) price) as [r|x]; cbn [result object].
  - eapply runs_bind; [exact Hroi|].
    eapply runs_bind; [by eapply runs_assign|].
    eapply runs_bind;
      [eapply runs_update_signal_in_db; cbn; apply lookup_insert_eq|].
    apply runs_ret.
  - eapply runs_eq; [by apply runs_bind_raise|done| |done].
    apply tracker_eq; cbn; [|done..]. symmetry. by apply insert_id.
Qed.

Lemma store_roi_archived v price o :
  archived (store_roi v price o) = archived o.
Proof.
  unfold store_roi. destruct (result o); [|done].
  by destruct (roi v (object o) price).
Qed.

Lemma store_roi_reads v price o : reads (store_roi v price o) = reads o.
Proof.
  unfold store_roi. destruct (result o); [|done].
  by destruct (roi v (object o) price).
Qed.

(** A call of [update_signal_price] on an active signal does what
    [step_obj] says. *)
Lemma runs_update_signal_price v sid price l m t n :
  active_signals t !! sid = Some l → heap t !! l = Some m →
  signal_id m = sid →
  runs (update_signal_price w v sid price) t n
    (result (step_obj w v n m price))
    (step_tracker sid l (step_obj w v n m price) t)
    (n + reads (step_obj w v n m price)).
Proof.
  intros Ha Hl Hsid.
  set (o := match evaluate m price with
            | None => {| result := Return None; object := m;
                         archived := false; reads := 0 |}
            | Some lvl => some_event (handle w v n (set_hit lvl m) lvl price)
            end).
  assert (Ho : step_obj w v n m price = store_roi v price o).
  { unfold step_obj, o. by destruct (evaluate m price). }
  rewrite Ho, store_roi_reads. clear Ho.
  unfold update_signal_price.
  eapply runs_bind; [apply (runs_read (λ t, active_signals t !! sid))|].
  cbv beta. rewrite Ha.
  eapply runs_bind; [by eapply runs_deref|]. cbv beta.
  assert (Hnone : step_tracker sid l
            {| result := Return (@None Event); object := m;
               archived := false; reads := 0 |} t = t)
    by by eapply step_tracker_same.
  assert (Hev : ∀ k,
    (∀ ev, result o = Return ev →
       runs (k ev) (step_tracker sid l o t) (n + reads o)
         (result (store_roi v price o))
         (step_tracker sid l (store_roi v price o) t) (n + reads o)) →
    ∀ c, runs c t n (result o) (step_tracker sid l o t) (n + reads o) →
    runs (bind c k) t n (result (store_roi v price o))
      (step_tracker sid l (store_roi v price o) t) (n + reads o)).
  { intros k Hk c Hc. destruct (result o) as [ev|x] eqn:Hr.
    - eapply runs_bind; [exact Hc|]. by apply Hk.
    - replace (store_roi v price o) with o by (unfold store_roi; by rewrite Hr).
      rewrite Hr. by apply runs_bind_raise. }
  apply Hev.
  { intros ev Hr. eapply runs_eq.
    - apply (runs_finish v l price o ev); [done|]. cbn. apply lookup_insert_eq.
    - done.
    - apply tracker_eq; cbn; rewrite ?store_roi_archived; [|done..].
      by rewrite insert_insert_eq.
    - done. }
  clear Hev. subst o. unfold evaluate, due, reached, hit.
  destruct (decide (direction m = "long"));
    [|destruct (decide (direction m = "short"))].
  - destruct (negb (tp3_hit m) && py_ge price (tp3 m));
      [by apply (runs_fire v sid l m TP3)|].
    destruct (negb (tp2_hit m) && py_ge price (tp2 m));
      [by apply (runs_fire v sid l m TP2)|].
    destruct (negb (tp1_hit m) && py_ge price (tp1 m));
      [by apply (runs_fire v sid l m TP1)|].
    destruct (negb (sl_hit m) && py_le price (stop_loss m));
      [by apply (runs_fire v sid l m STOP)|].
    rewrite Hnone, Nat.add_0_r. apply runs_ret.
  - destruct (negb (tp3_hit m) && py_le price (tp3 m));
      [by apply (runs_fire v sid l m TP3)|].
    destruct (negb (tp2_hit m) && py_le price (tp2 m));
      [by apply (runs_fire v sid l m TP2)|].
    destruct (negb (tp1_hit m) && py_le price (tp1 m));
      [by apply (runs_fire v sid l m TP1)|].
    destruct (negb (sl_hit m) && py_ge price (stop_loss m));
      [by apply (runs_fire v sid l m STOP)|].
    rewrite Hnone, Nat.add_0_r. apply runs_ret.
  - rewrite !andb_false_r. rewrite Hnone, Nat.add_0_r. apply runs_ret.
Qed.

End Methods.

(** ** Calls on states *)

Section Calls.

Context (w : World) (v : Variant).

(** The run judgement, read on a state. *)
Lemma update_signal_price_active sid price s l m :
  active_signals (tracker s) !! sid = Some l →
  heap (tracker s) !! l = Some m →
  signal_id m = sid →
  ∃ e',
    update_signal_price w v sid price s =
      (result (step_obj w v (clock_reads (env s)) m price),
       {| tracker := step_tracker sid l
                       (step_obj w v (clock_reads (env s)) m price) (tracker s);
          env := e' |})
    ∧ clock_reads e' =
        clock_reads (env s) + reads (step_obj w v (clock_reads (env s)) m price).
Proof.
  intros Ha Hl Hsid. destruct s as [t e]; cbn in *.
  destruct (runs_update_signal_price w v sid price l m t (clock_reads e)
              Ha Hl Hsid e eq_refl) as (e' & He' & Hrun).
  by exists e'.
Qed.

Lemma update_signal_price_inactive sid price s :
  active_signals (tracker s) !! sid = None →
  update_signal_price w v sid price s = (Return None, s).
Proof.
  intros Ha. unfold update_signal_price, bind, read. by rewrite Ha.
Qed.

End Calls.

(** ** The evaluator *)

Lemma set_hit_entry_price lvl m : entry_price (set_hit lvl m) = entry_price m.
Proof. by destruct lvl. Qed.

Lemma set_hit_signal_id lvl m : signal_id (set_hit lvl m) = signal_id m.
Proof. by destruct lvl. Qed.

(** [evaluate] reports a level exactly when it is the due level of highest
    priority. *)
Lemma evaluate_Some m price lvl :
  evaluate m price = Some lvl ↔
  due m price lvl = true ∧
  ∀ lvl', due m price lvl' = true → priority lvl' ≤ priority lvl.
Proof.
  unfold evaluate. split.
  - destruct (due m price TP3) eqn:H3; [intros [= <-]|].
    { split; [done|]. intros []; cbn; lia. }
    destruct (due m price TP2) eqn:H2; [intros [= <-]|].
    { split; [done|]. intros [] ?; cbn; try lia; congruence. }
    destruct (due m price TP1) eqn:H1; [intros [= <-]|].
    { split; [done|]. intros [] ?; cbn; try lia; congruence. }
    destruct (due m price STOP) eqn:H0; [intros [= <-]|done].
    split; [done|]. intros [] ?; cbn; try lia; congruence.
  - intros [Hdue Hmax].
    destruct (due m price TP3) eqn:H3.
    { specialize (Hmax TP3 H3). destruct lvl; cbn in Hmax; try lia. done. }
    destruct (due m price TP2) eqn:H2.
    { specialize (Hmax TP2 H2).
      destruct lvl; cbn in Hmax; try lia; congruence. }
    destruct (due m price TP1) eqn:H1.
    { specialize (Hmax TP1 H1).
      destruct lvl; cbn in Hmax; try lia; congruence. }
    destruct lvl; try congruence. by rewrite Hdue.
Qed.

Lemma evaluate_None m price :
  evaluate m price = None ↔ ∀ lvl, due m price lvl = false.
Proof.
  unfold evaluate. split.
  - destruct (due m price TP3) eqn:H3; [done|].
    destruct (due m price TP2) eqn:H2; [done|].
    destruct (due m price TP1) eqn:H1; [done|].
    destruct (due m price STOP) eqn:H0; [done|].
    by intros _ [].
  - intros H. by rewrite !H.
Qed.

Lemma event_level_event_of m lvl price :
  event_level (event_of m lvl price) = Some lvl.
Proof. by destruct lvl. Qed.

Lemma roi_nonzero v m price :
  py_eq (entry_price m) 0 = false → ∃ r, roi v m price = Return r.
Proof.
  intros Hz. unfold roi. rewrite Hz. destruct (py_gt _ _); eauto.
Qed.

(** What a call on an active signal produces. *)
Lemma produced_step_obj w v n m price :
  produced (result (step_obj w v n m price)) =
  if py_eq (entry_price m) 0 then None else evaluate m price.
Proof.
  unfold step_obj. destruct (evaluate m price) as [lvl|].
  - unfold store_roi, some_event, handle; cbn [result].
    rewrite set_hit_entry_price.
    destruct (py_eq (entry_price m) 0) eqn:Hz.
    + cbn [result object]. destruct (zero_entry_guard v); [|done].
      by destruct (roi v (set_hit lvl m) price).
    + destruct (closes (set_hit lvl m) lvl); cbn [result object].
      * edestruct (roi_nonzero v) as [r ->];
          [|cbn; apply event_level_event_of].
        cbn. by rewrite set_hit_entry_price.
      * edestruct (roi_nonzero v) as [r ->];
          [|cbn; apply event_level_event_of].
        cbn. by rewrite set_hit_entry_price.
  - unfold store_roi; cbn.
    destruct (roi v m price); cbn; by destruct (py_eq _ _).
Qed.

Lemma step_obj_shape w v n m price :
  step_shape w n m price (step_obj w v n m price).
Proof.
  unfold step_obj. destruct (evaluate m price) as [lvl|] eqn:Hev.
  - unfold store_roi, some_event, handle; cbn [result object].
    rewrite set_hit_entry_price.
    destruct (py_eq (entry_price m) 0) eqn:Hz; cbn [result object].
    + destruct (zero_entry_guard v).
      * destruct (roi v (set_hit lvl m) price);
          eapply shape_zero; cbn; eauto.
      * eapply shape_zero; cbn; eauto.
    + destruct (closes (set_hit lvl m) lvl) eqn:Hc; cbn [result object].
      * edestruct (roi_nonzero v) as [r ->];
          [|by eapply (shape_close _ _ _ _ _ lvl r)].
        cbn. by rewrite set_hit_entry_price.
      * edestruct (roi_nonzero v) as [r ->];
          [|by eapply (shape_fill _ _ _ _ _ lvl r)].
        cbn. by rewrite set_hit_entry_price.
  - unfold store_roi; cbn [result object].
    destruct (roi v m price); eapply shape_idle; cbn; eauto.
Qed.

(** ** Threshold events *)

(** C1. A call of [update_signal_price] on an active signal produces at
    most one threshold event, and only for the due level of highest
    priority (TP3, then TP2, then TP1, then STOP; due: flag not yet set
    and price condition met, [>=]/[<=] mirrored for a short position).
    If no level is due, no event is produced.  When the entry price is
    not zero, the due level of highest priority does produce its event.
    In any case the call appends at most one fill. *)
Theorem update_fires_highest_due_level w v sid price s l m :
  active_signals (tracker s) !! sid = Some l →
  heap (tracker s) !! l = Some m →
  signal_id m = sid →
  let r := (update_signal_price w v sid price s).1 in
  let s' := (update_signal_price w v sid price s).2 in
  (∀ lvl, produced r = Some lvl →
     due m price lvl = true ∧
     ∀ lvl', due m price lvl' = true → priority lvl' ≤ priority lvl)
  ∧ ((∀ lvl, due m price lvl = false) → ∀ e, r ≠ Return (Some e))
  ∧ (¬ (entry_price m == 0)%Q →
     ∀ lvl, due m price lvl = true →
       (∀ lvl', due m price lvl' = true → priority lvl' ≤ priority lvl) →
       produced r = Some lvl)
  ∧ (∃ m', heap (tracker s') !! l = Some m' ∧
           (fills m' = fills m ∨ ∃ f, fills m' = fills m ++ [f])).
Proof.
  intros Ha Hl Hsid.
  destruct (update_signal_price_active w v sid price s l m Ha Hl Hsid)
    as (e' & -> & _).
  cbn [fst snd]. set (o := step_obj _ _ _ _ _).
  pose proof (produced_step_obj w v (clock_reads (env s)) m price) as Hp.
  fold o in Hp. split; [|split; [|split]].
  - intros lvl Hlvl. apply evaluate_Some. rewrite <- Hlvl, Hp.
    destruct (py_eq _ _); [|done]. by rewrite Hp in Hlvl.
  - intros Hnone e He. apply evaluate_None in Hnone.
    destruct (step_obj_shape w v (clock_reads (env s)) m price)
      as [_ _ _ _ [Hr|[x Hr]]|lvl Hev|lvl r Hev|lvl r Hev];
      [fold o in Hr; congruence..|congruence|congruence|congruence].
  - intros Hz lvl Hdue Hmax. rewrite Hp.
    destruct (py_eq_spec (entry_price m) 0); [done|].
    by apply evaluate_Some.
  - exists (object o). split; [cbn; apply lookup_insert_eq|].
    destruct (step_obj_shape w v (clock_reads (env s)) m price)
      as [_ _ _ [Ho|[r Ho]] _|lvl _ _ _ _ [Ho|[r Ho]] _
         |lvl r _ _ _ _ _ Ho _|lvl r _ _ _ _ _ Ho _];
      fold o in Ho; rewrite Ho; destruct lvl || idtac; cbn; eauto.
Qed.

Lemma update_fires_highest_due_level_witness :
  active_signals (tracker (example_state TelegramBot)) !! example_id = Some 0
  ∧ heap (tracker (example_state TelegramBot)) !! 0 = Some example_metrics
  ∧ signal_id example_metrics = example_id
  ∧ produced
      (update_signal_price example_world TelegramBot example_id 50600
         (example_state TelegramBot)).1 = Some TP1.
Proof.
  assert (Ha : active_signals (tracker (example_state TelegramBot))
                 !! example_id = Some 0) by (vm_compute; reflexivity).
  assert (Hl : heap (tracker (example_state TelegramBot)) !! 0
               = Some example_metrics) by (vm_compute; reflexivity).
  assert (Hsid : signal_id example_metrics = example_id) by reflexivity.
  split; [exact Ha|split; [exact Hl|split; [exact Hsid|]]].
  apply (update_fires_highest_due_level example_world TelegramBot
           example_id 50600 (example_state TelegramBot) 0 example_metrics
           Ha Hl Hsid).
  - intros H. vm_compute in H. discriminate.
  - vm_compute. reflexivity.
  - intros lvl' H. destruct lvl'; vm_compute in H |- *; try discriminate;
      lia.
Defined.

(** The scenarios of [src/test_roi.py] on the model: the three targets in
    turn give 0.25 + 1.0 + 0.75; two targets and then the stop give
    0.25 + 1.0 - 0.5, and fractions that make 1.0. *)
Example test_roi_scenarios :
  let archived path :=
    heap (tracker (feed example_world TelegramBot example_id path
                     (example_state TelegramBot)).2) !! 0 in
  ((λ m, (status m, Qred (py_sum (weighted_profit <$> fills m))))
     <$> archived [50500; 51000; 51500]%Q) = Some ("completed", 2%Q)
  ∧ ((λ m, (status m, Qred (py_sum (weighted_profit <$> fills m)),
            Qred (filled_fraction m)))
     <$> archived [50500; 51000; 49000]%Q) = Some ("stopped", 3 # 4, 1)%Q.
Proof. split; vm_compute; reflexivity. Qed.

(** A short position mirrors the comparisons: entry 3000, stop 3030,
    targets 2970, 2940 and 2910; at 2960 the first target is due, at 3030
    the stop. *)
Example short_position_mirrors :
  let m := new_metrics
             {| d_symbol := "ETHUSDT"; d_direction := "short";
                d_entry_price := 3000; d_stop_loss := 3030;
                d_tp1 := Some 2970%Q; d_tp2 := Some 2940%Q;
                d_tp3 := Some 2910%Q; d_quality_score := None |}
             "ETHUSDT_1" 0%Z in
  evaluate m 2960 = Some TP1 ∧ evaluate m 2980 = None
  ∧ evaluate m 3030 = Some STOP ∧ evaluate m 2900 = Some TP3.
Proof. done. Qed.

(** C9. A call of [update_signal_price] with an identifier that is not in
    the active set returns [None] and leaves the whole state as it is;
    this is the case of the identifier of a signal that a call has just
    moved to the archive. *)
Theorem update_unknown_signal_is_noop w v sid price s :
  (active_signals (tracker s) !! sid = None →
   update_signal_price w v sid price s = (Return None, s))
  ∧ (∀ p0,
       wf (tracker s) →
       let s1 := (update_signal_price w v sid p0 s).2 in
       completed_signals (tracker s1) ≠ completed_signals (tracker s) →
       update_signal_price w v sid price s1 = (Return None, s1)).
Proof.
  split; [apply update_signal_price_inactive|].
  intros p0 Hwf s1 Hmoved. apply update_signal_price_inactive.
  destruct (active_signals (tracker s) !! sid) as [l|] eqn:Ha.
  - destruct (Hwf sid l Ha) as (m & Hl & Hsid & _).
    destruct (update_signal_price_active w v sid p0 s l m Ha Hl Hsid)
      as (e' & Hrun & _).
    subst s1. rewrite Hrun in *. cbn in *.
    destruct (archived _); [apply lookup_delete_eq|done].
  - subst s1. rewrite (update_signal_price_inactive w v sid p0 s Ha) in *.
    done.
Qed.

Lemma update_unknown_signal_is_noop_witness :
  active_signals (tracker (example_state Trading)) !! "ETHUSDT_1" = None
  ∧ update_signal_price example_world Trading "ETHUSDT_1" 3000
      (example_state Trading) = (Return None, example_state Trading).
Proof.
  assert (Ha : active_signals (tracker (example_state Trading))
                 !! "ETHUSDT_1" = None) by (vm_compute; reflexivity).
  split; [exact Ha|].
  exact (proj1 (update_unknown_signal_is_noop example_world Trading
                  "ETHUSDT_1" 3000 (example_state Trading)) Ha).
Defined.

(** ** Registration *)

(** What [register_signal] does, in full: two readings of the clock, one
    attempt on the database, and no way to fail. *)
Lemma register_signal_spec w v d s :
  register_signal w v d s =
    (Return (new_id d (clock w (clock_reads (env s)))),
     {| tracker := registered w d (clock_reads (env s)) (tracker s);
        env :=
          {| trace :=
               trace (env s) ++
               [ match db_outcome w (db_attempts (env s)) with
                 | Committed =>
                     SqlCommit
                       (insert_statement v
                          (new_metrics d
                             (new_id d (clock w (clock_reads (env s))))
                             (clock w (S (clock_reads (env s))))))
                 | _ => Log ERROR MsgDbSaveError
                 end;
                 Log INFO
                   (MsgRegistered (new_id d (clock w (clock_reads (env s))))) ];
             clock_reads := S (S (clock_reads (env s)));
             db_attempts := S (db_attempts (env s)) |} |}).
Proof.
  destruct s as [t e].
  unfold register_signal, _save_signal_to_db, bind, now, db_attempt, alloc,
    write, deref, log, emit, ret, with_tracker, with_env, registered, new_id.
  cbn [tracker env heap with_heap active_signals with_active
       completed_signals telegram trace clock_reads db_attempts fst snd].
  rewrite lookup_insert_eq.
  cbn [tracker env heap with_heap active_signals with_active
       completed_signals telegram trace clock_reads db_attempts fst snd].
  destruct (db_outcome w (db_attempts e));
    cbn [tracker env heap with_heap active_signals with_active
         completed_signals telegram trace clock_reads db_attempts];
    by rewrite <- app_assoc.
Qed.

(** C3, as the code has it.  [register_signal] does not validate: for
    every definition, whatever the order and the sign of its prices, it
    returns the identifier made of the symbol and the clock, files a
    fresh object under it in the active set (a missing target read as 0,
    no flag set, status "active"), and tries once to insert the object in
    the database.  No definition is rejected. *)
Theorem register_accepts_every_definition w v d s :
  let sid := new_id d (clock w (clock_reads (env s))) in
  let s' := (register_signal w v d s).2 in
  (register_signal w v d s).1 = Return sid
  ∧ (∃ l m,
       active_signals (tracker s') !! sid = Some l
       ∧ heap (tracker s') !! l = Some m
       ∧ m = new_metrics d sid (clock w (S (clock_reads (env s))))
       ∧ (db_outcome w (db_attempts (env s)) = Committed →
          SqlCommit (insert_statement v m) ∈ trace (env s'))).
Proof.
  rewrite register_signal_spec. cbn [fst snd]. split; [done|].
  eexists _, _. split; [cbn; apply lookup_insert_eq|].
  split; [cbn; apply lookup_insert_eq|]. split; [done|].
  intros ->. cbn. set_solver.
Qed.

(** C3, as stated, fails: a long position whose stop lies above its entry
    and whose targets lie below it, at a negative entry price, is
    registered and is active afterwards. *)
Lemma register_rejects_invalid_counterexample :
  let d := {| d_symbol := "BTCUSDT"; d_direction := "long";
              d_entry_price := -1; d_stop_loss := 49000;
              d_tp1 := Some 3%Q; d_tp2 := Some 2%Q; d_tp3 := Some 1%Q;
              d_quality_score := None |} in
  (register_signal example_world Trading d (__init__ false)).1
    = Return "BTCUSDT_1700000000"
  ∧ (register_signal example_world TelegramBot d (__init__ false)).1
    = Return "BTCUSDT_1700000000"
  ∧ is_Some (active_signals
       (tracker (register_signal example_world Trading d (__init__ false)).2)
       !! "BTCUSDT_1700000000")
  ∧ is_Some (active_signals
       (tracker (register_signal example_world TelegramBot d (__init__ false)).2)
       !! "BTCUSDT_1700000000").
Proof. vm_compute. repeat split; eauto. Qed.

Lemma register_accepts_every_definition_witness :
  db_outcome example_world
    (db_attempts (env (__init__ false))) = Committed
  ∧ SqlCommit
      (insert_statement TelegramBot
         (new_metrics example_long example_id 1700000000000001%Z))
    ∈ trace (env (example_state TelegramBot)).
Proof.
  split; [reflexivity|].
  destruct (register_accepts_every_definition example_world TelegramBot
              example_long (__init__ false))
    as (_ & l & m & Ha & Hl & Hm & Hdb).
  subst m. exact (Hdb eq_refl).
Defined.

(** C10, as the code has it.  [register_signal] stores 0 for each target
    that the definition does not give.  For a long signal registered
    without targets and with an entry price other than zero, the first
    call of [update_signal_price] with a price that is not negative
    fires TP3 and closes the signal: it leaves the active set and enters
    the archive with status "completed". *)
Theorem untargeted_long_closes_at_first_update w v d s :
  let sid := new_id d (clock w (clock_reads (env s))) in
  let s1 := (register_signal w v d s).2 in
  (∃ l m, active_signals (tracker s1) !! sid = Some l
          ∧ heap (tracker s1) !! l = Some m
          ∧ tp1 m = default 0%Q (d_tp1 d)
          ∧ tp2 m = default 0%Q (d_tp2 d)
          ∧ tp3 m = default 0%Q (d_tp3 d))
  ∧ ∀ price,
      d_direction d = "long" →
      d_tp1 d = None → d_tp2 d = None → d_tp3 d = None →
      ¬ (d_entry_price d == 0)%Q →
      (0 <= price)%Q →
      let r := (update_signal_price w v sid price s1).1 in
      let s2 := (update_signal_price w v sid price s1).2 in
      produced r = Some TP3
      ∧ active_signals (tracker s2) !! sid = None
      ∧ ∃ l m', completed_signals (tracker s2)
                  = completed_signals (tracker s) ++ [l]
                ∧ heap (tracker s2) !! l = Some m'
                ∧ status m' = "completed"
                ∧ tp3_hit m' = true.
Proof.
  intros sid s1. subst s1. rewrite register_signal_spec. cbn [snd].
  set (l := fresh (dom (heap (tracker s)))).
  set (m := new_metrics d sid (clock w (S (clock_reads (env s))))).
  assert (Ha : active_signals (registered w d (clock_reads (env s)) (tracker s))
                 !! sid = Some l) by (cbn; apply lookup_insert_eq).
  assert (Hl : heap (registered w d (clock_reads (env s)) (tracker s))
                 !! l = Some m) by (cbn; apply lookup_insert_eq).
  split; [by exists l, m|].
  intros price Hdir H1 H2 H3 Hz Hp.
  match goal with
  | |- context [update_signal_price w v sid price ?s1] =>
      destruct (update_signal_price_active w v sid price s1 l m Ha Hl eq_refl)
        as (e' & -> & _)
  end.
  cbn [fst snd tracker env clock_reads].
  assert (Hdue : evaluate m price = Some TP3).
  { unfold evaluate, due, reached, hit, m; cbn.
    rewrite Hdir, H3; cbn. rewrite decide_True by done.
    by destruct (py_ge_spec price 0). }
  assert (Hnz : py_eq (entry_price m) 0 = false).
  { cbn. by destruct (py_eq_spec (d_entry_price d) 0). }
  destruct (step_obj_shape w v (S (S (clock_reads (env s)))) m price)
    as [Hev|lvl Hev Hz'|lvl r Hev _ Hc|lvl r Hev _ _ Harch _ Ho Hr];
    try congruence.
  { assert (lvl = TP3) as -> by congruence. done. }
  assert (lvl = TP3) as -> by congruence.
  rewrite Hr. split; [done|]. cbn. rewrite Harch.
  split; [apply lookup_delete_eq|].
  eexists l, _. split; [done|]. split; [apply lookup_insert_eq|].
  by rewrite Ho.
Qed.

Lemma untargeted_long_closes_at_first_update_witness :
  let d := {| d_symbol := "ETHUSDT"; d_direction := "long";
              d_entry_price := 3000; d_stop_loss := 2900;
              d_tp1 := None; d_tp2 := None; d_tp3 := None;
              d_quality_score := None |} in
  (d_direction d = "long" ∧ d_tp1 d = None ∧ d_tp2 d = None
   ∧ d_tp3 d = None ∧ ¬ (d_entry_price d == 0)%Q ∧ (0 <= 2950)%Q)
  ∧ produced
      (update_signal_price example_world TelegramBot "ETHUSDT_1700000000" 2950
         (register_signal example_world TelegramBot d (__init__ true)).2).1
    = Some TP3.
Proof.
  intros d.
  assert (Hz : ¬ (d_entry_price d == 0)%Q) by (intros H; vm_compute in H; discriminate).
  assert (Hp : (0 <= 2950)%Q) by (intros H; vm_compute in H; discriminate).
  split; [by repeat split|].
  exact (proj1 (proj2 (untargeted_long_closes_at_first_update example_world
           TelegramBot d (__init__ true)) 2950%Q eq_refl eq_refl eq_refl eq_refl
           Hz Hp)).
Defined.

(** C10, as stated, fails in the copy it is drawn from: a long signal
    registered without targets and with entry price 0 is not closed by
    its first update.  The handler returns its error dictionary, no TP3
    event is produced, and the signal stays active. *)
Lemma untargeted_long_zero_entry_counterexample :
  let d := {| d_symbol := "ETHUSDT"; d_direction := "long";
              d_entry_price := 0; d_stop_loss := 0;
              d_tp1 := None; d_tp2 := None; d_tp3 := None;
              d_quality_score := None |} in
  let s1 := (register_signal example_world TelegramBot d (__init__ false)).2 in
  let call := update_signal_price example_world TelegramBot
                "ETHUSDT_1700000000" 5 s1 in
  call.1 = Return (Some (EvError "ETHUSDT_1700000000" "entry_price_zero"))
  ∧ produced call.1 = None
  ∧ active_signals (tracker call.2) !! "ETHUSDT_1700000000" = Some 0
  ∧ completed_signals (tracker call.2) = [].
Proof. vm_compute. done. Qed.

(** ** Following one signal along a price path *)

Lemma norm_inv m m' :
  norm m' = norm m →
  signal_id m' = signal_id m ∧ entry_price m' = entry_price m
  ∧ fills m' = fills m ∧ status m' = status m
  ∧ closed_percent m' = closed_percent m
  ∧ (∀ p, evaluate m' p = evaluate m p)
  ∧ (∀ lvl, closes (set_hit lvl m') lvl = closes (set_hit lvl m) lvl)
  ∧ (∀ lvl p, event_of (set_hit lvl m') lvl p = event_of (set_hit lvl m) lvl p)
  ∧ (∀ lvl p t, norm (filled m' lvl p t) = norm (filled m lvl p t))
  ∧ (∀ lvl p t st t',
       norm (closed_obj st t' (filled m' lvl p t))
       = norm (closed_obj st t' (filled m lvl p t))).
Proof.
  destruct m, m'; unfold norm; cbn. intros [= -> -> -> -> -> -> -> -> -> -> -> -> -> -> -> -> ->].
  repeat split; try done; by intros [].
Qed.

Lemma norm_set_current_roi r m : norm (set_current_roi r m) = norm m.
Proof. done. Qed.

Lemma feed_cons w v sid p path s :
  feed w v sid (p :: path) s =
  ((update_signal_price w v sid p s).1
     :: (feed w v sid path (update_signal_price w v sid p s).2).1,
   (feed w v sid path (update_signal_price w v sid p s).2).2).
Proof.
  cbn [feed]. destruct (update_signal_price w v sid p s) as [r s1].
  cbn [fst snd]. destruct (feed w v sid path s1). reflexivity.
Qed.

Lemma feed_app w v sid path1 path2 s :
  feed w v sid (path1 ++ path2) s =
  ((feed w v sid path1 s).1 ++ (feed w v sid path2 (feed w v sid path1 s).2).1,
   (feed w v sid path2 (feed w v sid path1 s).2).2).
Proof.
  revert s. induction path1 as [|p path1 IH]; intros s.
  - cbn. by destruct (feed w v sid path2 s).
  - rewrite <- app_comm_cons, !feed_cons, IH. done.
Qed.

(** Once the identifier has left the active set, no tick does anything. *)
Lemma feed_inactive w v sid path s :
  active_signals (tracker s) !! sid = None →
  feed w v sid path s = (replicate (length path) (Return None), s).
Proof.
  intros Ha. induction path as [|p path IH]; [done|].
  rewrite feed_cons, (update_signal_price_inactive w v sid p s Ha).
  cbn [fst snd]. by rewrite IH.
Qed.

Lemma fired_replicate_None n : fired (replicate n (Return None)) = [].
Proof. induction n; [done|]. by cbn. Qed.

Lemma fired_app rs1 rs2 : fired (rs1 ++ rs2) = fired rs1 ++ fired rs2.
Proof. apply omap_app. Qed.

Lemma fired_cons r rs :
  fired (r :: rs) =
  match produced r with Some lvl => lvl :: fired rs | None => fired rs end.
Proof. done. Qed.

(** One tick on a tracked signal. *)
Lemma tracks_step w v sid l m p s :
  tracks s sid l m →
  let r := (update_signal_price w v sid p s).1 in
  let s' := (update_signal_price w v sid p s).2 in
  let n := clock_reads (env s) in
  (evaluate m p = None →
     produced r = None ∧ tracks s' sid l m
     ∧ completed_signals (tracker s') = completed_signals (tracker s))
  ∧ (∀ lvl, evaluate m p = Some lvl → py_eq (entry_price m) 0 = false →
       produced r = Some lvl
       ∧ if closes (set_hit lvl m) lvl then
           active_signals (tracker s') !! sid = None
           ∧ completed_signals (tracker s')
             = completed_signals (tracker s) ++ [l]
           ∧ ∃ m', heap (tracker s') !! l = Some m'
                   ∧ norm m' = norm (closed_obj (final_status lvl)
                                       (clock w (S n))
                                       (filled m lvl p (clock w n)))
         else
           tracks s' sid l (filled m lvl p (clock w n))
           ∧ completed_signals (tracker s') = completed_signals (tracker s)).
Proof.
  intros (Ha & Hsid & m' & Hl & Hn).
  destruct (norm_inv m m' Hn)
    as (Hsid' & Hentry & _ & _ & _ & Hev & Hcl & Hevt & Hfill & Hclosed).
  assert (Hsid'' : signal_id m' = sid) by congruence.
  destruct (update_signal_price_active w v sid p s l m' Ha Hl Hsid'')
    as (e' & -> & _).
  cbn [fst snd tracker]. rewrite <- Hev, <- Hentry.
  destruct (step_obj_shape w v (clock_reads (env s)) m' p)
    as [Hnone Harch _ Ho Hr|lvl Hsome Hz Harch _ Ho Hr
       |lvl r Hsome Hz Hc Harch _ Ho Hr|lvl r Hsome Hz Hc Harch _ Ho Hr];
    (split; [intros Hnone'|intros lvl' Hsome' Hz']); try congruence.
  - split; [by destruct Hr as [->|[x ->]]|]. unfold tracks; cbn.
    rewrite Harch. split; [|done]. split; [done|]. split; [done|].
    eexists. split; [apply lookup_insert_eq|].
    by destruct Ho as [->|[r ->]].
  - assert (lvl' = lvl) as -> by congruence.
    rewrite Hr, <- Hcl, Hc; cbn [produced].
    split; [apply event_level_event_of|]. unfold tracks; cbn.
    rewrite Harch. split; [|done]. split; [done|].
    split; [by rewrite <- Hsid; destruct lvl|].
    eexists. split; [apply lookup_insert_eq|].
    rewrite Ho. apply Hfill.
  - assert (lvl' = lvl) as -> by congruence.
    rewrite Hr, <- Hcl, Hc; cbn [produced].
    split; [apply event_level_event_of|]. cbn. rewrite Harch.
    split; [apply lookup_delete_eq|]. split; [done|].
    eexists. split; [apply lookup_insert_eq|].
    rewrite Ho. apply Hclosed.
Qed.

(** Ticks at which nothing is due leave a tracked signal as it is. *)
Lemma feed_idle w v sid l m path s :
  tracks s sid l m →
  Forall (λ q, evaluate m q = None) path →
  fired (feed w v sid path s).1 = []
  ∧ tracks (feed w v sid path s).2 sid l m
  ∧ completed_signals (tracker (feed w v sid path s).2)
    = completed_signals (tracker s).
Proof.
  intros Ht Hpath. revert s Ht.
  induction Hpath as [|q path Hq _ IH]; intros s Ht; [done|].
  rewrite feed_cons; cbn [fst snd].
  destruct (tracks_step w v sid l m q s Ht) as [Hidle _].
  destruct (Hidle Hq) as (Hp & Ht' & Hc).
  destruct (IH _ Ht') as (Hf & Ht'' & Hc').
  rewrite fired_cons, Hp, Hf. split; [done|]. split; [done|]. congruence.
Qed.

Lemma tracks_intro s sid l m :
  active_signals (tracker s) !! sid = Some l →
  heap (tracker s) !! l = Some m →
  signal_id m = sid →
  tracks s sid l m.
Proof. intros Ha Hl Hsid. split; [done|]. split; [done|]. by exists m. Qed.

(** C5, as the code has it.  On a signal whose entry price is not zero,
    along a price path on which the stop is the first level to come
    due, exactly one event fires, the STOP event.  The fill it appends
    closes the fraction that is still open: 1.0 minus 0.25 if TP1 was
    hit, minus 0.5 if TP2 was hit, minus 0.25 if TP3 was hit.  The
    signal leaves the active set with status "stopped"; if no target was
    hit before, the fill closes the whole position. *)
Theorem stop_loss_closes_what_is_left w v sid l m s pre p post :
  active_signals (tracker s) !! sid = Some l →
  heap (tracker s) !! l = Some m →
  signal_id m = sid →
  ¬ (entry_price m == 0)%Q →
  Forall (λ q, evaluate m q = None) pre →
  evaluate m p = Some STOP →
  let rs := (feed w v sid (pre ++ p :: post) s).1 in
  let s' := (feed w v sid (pre ++ p :: post) s).2 in
  fired rs = [STOP]
  ∧ active_signals (tracker s') !! sid = None
  ∧ ∃ m' f, heap (tracker s') !! l = Some m'
      ∧ fills m' = fills m ++ [f]
      ∧ fill_level f = "stop_loss"
      ∧ (percentage f
         == 1 - ((if tp1_hit m then 25 # 100 else 0)
                 + (if tp2_hit m then 50 # 100 else 0)
                 + (if tp3_hit m then 25 # 100 else 0)))%Q
      ∧ status m' = "stopped"
      ∧ (tp1_hit m = false → tp2_hit m = false → tp3_hit m = false →
         (percentage f == 1)%Q).
Proof.
  intros Ha Hl Hsid Hz Hpre Hp.
  pose proof (tracks_intro s sid l m Ha Hl Hsid) as Ht.
  rewrite feed_app, feed_cons; cbn [fst snd].
  destruct (feed_idle w v sid l m pre s Ht Hpre) as (Hf & Ht1 & _).
  set (s1 := (feed w v sid pre s).2) in *.
  destruct (tracks_step w v sid l m p s1 Ht1) as [_ Hstep].
  destruct (Hstep STOP Hp) as (Hprod & Hinact & _ & m' & Hl' & Hn).
  { by destruct (py_eq_spec (entry_price m) 0). }
  set (s2 := (update_signal_price w v sid p s1).2) in *.
  rewrite (feed_inactive w v sid post s2 Hinact); cbn [fst snd].
  rewrite fired_app, Hf, fired_cons, Hprod, fired_replicate_None.
  split; [done|]. split; [done|].
  destruct (norm_inv _ _ Hn) as (_ & _ & Hfills & Hst & _).
  eexists m', _. split; [done|]. split; [exact Hfills|].
  split; [done|]. split; [|split; [done|]].
  - cbn. unfold closed_percent, py_sum; cbn.
    by destruct (tp1_hit m), (tp2_hit m), (tp3_hit m).
  - intros H1 H2 H3. cbn. unfold closed_percent; cbn. by rewrite H1, H2, H3.
Qed.

Lemma stop_loss_closes_what_is_left_witness :
  let s := (update_signal_price example_world Trading example_id 50600
              (example_state Trading)).2 in
  ∃ m,
    (active_signals (tracker s) !! example_id = Some 0
     ∧ heap (tracker s) !! 0 = Some m
     ∧ signal_id m = example_id
     ∧ ¬ (entry_price m == 0)%Q
     ∧ Forall (λ q, evaluate m q = None) [50400; 49200]%Q
     ∧ evaluate m 48900 = Some STOP)
    ∧ tp1_hit m = true
    ∧ fired (feed example_world Trading example_id
               ([50400; 49200] ++ 48900 :: [52000])%Q s).1 = [STOP]
    ∧ ∃ m' f,
        heap (tracker (feed example_world Trading example_id
                         ([50400; 49200] ++ 48900 :: [52000])%Q s).2) !! 0
          = Some m'
        ∧ fills m' = fills m ++ [f]
        ∧ (percentage f == 75 # 100)%Q.
Proof.
  intros s.
  destruct (heap (tracker s) !! 0) as [m|] eqn:Hl;
    [|vm_compute in Hl; discriminate].
  assert (Hm : Some m = heap (tracker s) !! 0) by done.
  vm_compute in Hm. injection Hm as Hm.
  exists m.
  assert (Ha : active_signals (tracker s) !! example_id = Some 0)
    by (vm_compute; reflexivity).
  assert (Hsid : signal_id m = example_id) by (by rewrite Hm).
  assert (Hz : ¬ (entry_price m == 0)%Q)
    by (rewrite Hm; intros H; vm_compute in H; discriminate).
  assert (Hpre : Forall (λ q, evaluate m q = None) [50400; 49200]%Q)
    by (rewrite Hm; repeat constructor).
  assert (Hp : evaluate m 48900 = Some STOP) by (by rewrite Hm).
  assert (H1 : tp1_hit m = true) by (by rewrite Hm).
  split; [done|]. split; [done|].
  destruct (stop_loss_closes_what_is_left example_world Trading example_id 0
              m s [50400; 49200]%Q 48900%Q [52000]%Q Ha Hl Hsid Hz Hpre Hp)
    as (Hf & _ & m' & f & Hl' & Hfills & _ & Hpc & _).
  split; [exact Hf|]. exists m', f. split; [exact Hl'|].
  split; [exact Hfills|]. rewrite Hpc. by rewrite Hm.
Defined.

(** C5, as stated, fails at entry price zero.  A long signal with entry
    0, stop 0 and targets 10, 20, 30 meets the price 0: the stop is the
    first level due and no target was hit, but no STOP event fires.  The
    later copy sets the flag and returns its error dictionary: no fill
    is appended and the signal stays active, also on the ticks that
    follow.  The earlier copy raises [ZeroDivisionError] in the handler,
    after the flag is set and before the fill. *)
Lemma stop_loss_zero_entry_counterexample :
  let d := {| d_symbol := "X"; d_direction := "long";
              d_entry_price := 0; d_stop_loss := 0;
              d_tp1 := Some 10%Q; d_tp2 := Some 20%Q; d_tp3 := Some 30%Q;
              d_quality_score := None |} in
  let s v := (register_signal example_world v d (__init__ false)).2 in
  let later := feed example_world TelegramBot "X_1700000000" [0; 0; -5]%Q
                 (s TelegramBot) in
  let earlier := update_signal_price example_world Trading "X_1700000000" 0
                   (s Trading) in
  (∃ m, heap (tracker (s TelegramBot)) !! 0 = Some m
        ∧ evaluate m 0 = Some STOP
        ∧ tp1_hit m = false ∧ tp2_hit m = false ∧ tp3_hit m = false)
  ∧ later.1 = [Return (Some (EvError "X_1700000000" "entry_price_zero"));
               Return None; Return None]
  ∧ fired later.1 = []
  ∧ active_signals (tracker later.2) !! "X_1700000000" = Some 0
  ∧ completed_signals (tracker later.2) = []
  ∧ (∃ m', heap (tracker later.2) !! 0 = Some m'
           ∧ sl_hit m' = true ∧ fills m' = [] ∧ status m' = "active")
  ∧ earlier.1 = Raise ZeroDivisionError
  ∧ produced earlier.1 = None
  ∧ ∃ m', heap (tracker earlier.2) !! 0 = Some m'
          ∧ sl_hit m' = true ∧ fills m' = [] ∧ status m' = "active".
Proof.
  intros d s later earlier.
  split; [eexists; split; [vm_compute; reflexivity|by vm_compute]|].
  split; [vm_compute; reflexivity|].
  split; [vm_compute; reflexivity|].
  split; [vm_compute; reflexivity|].
  split; [vm_compute; reflexivity|].
  split; [eexists; split; [vm_compute; reflexivity|by vm_compute]|].
  split; [vm_compute; reflexivity|].
  split; [vm_compute; reflexivity|].
  eexists; split; [vm_compute; reflexivity|by vm_compute].
Qed.

(** ** A rising path on a long signal *)

Section Rising.

Context (w : World) (v : Variant) (sid : string) (l : loc) (m0 : ROIMetrics).
Hypothesis Horder : (tp1 m0 < tp2 m0 < tp3 m0)%Q.

Lemma long_phase_filled m h1 h2 h3 lvl p t :
  long_phase m0 m h1 h2 h3 → lvl ≠ STOP →
  long_phase m0 (filled m lvl p t)
    (match lvl with TP1 => true | _ => h1 end)
    (match lvl with TP2 => true | _ => h2 end)
    (match lvl with TP3 => true | _ => h3 end).
Proof.
  intros (?&?&?&?&?&?&?&?&?&?) Hlvl. by destruct lvl.
Qed.

(** What is due in each phase, by the band the price lies in. *)
Lemma evaluate_long m h1 h2 h3 p :
  long_phase m0 m h1 h2 h3 → (stop_loss m0 < p)%Q →
  evaluate m p =
    if negb h3 && py_ge p (tp3 m0) then Some TP3
    else if negb h2 && py_ge p (tp2 m0) then Some TP2
    else if negb h1 && py_ge p (tp1 m0) then Some TP1
    else None.
Proof.
  intros (Hd&_&Hs&H1&H2&H3&F1&F2&F3&Fs) Hp.
  unfold evaluate, due, reached, hit.
  rewrite Hd, Hs, H1, H2, H3, F1, F2, F3, Fs.
  destruct (decide ("long" = "long")); [cbn|done].
  by destruct (py_le_spec p (stop_loss m0)); [lra|].
Qed.

(** Third phase: TP1 and TP2 are hit, TP3 is still to come. *)
Lemma rising_tp3 path s m :
  tracks s sid l m → long_phase m0 m true true false →
  Forall (λ p, stop_loss m0 < p)%Q path →
  Exists (λ p, tp3 m0 <= p)%Q path →
  fired (feed w v sid path s).1 = [TP3].
Proof.
  intros Ht Hph Hsl Hex. revert s Ht.
  induction path as [|p path IH]; intros s Ht; [by inversion Hex|].
  apply Forall_cons_1 in Hsl as [Hp Hsl].
  rewrite feed_cons; cbn [fst snd]; rewrite fired_cons.
  destruct (tracks_step w v sid l m p s Ht) as [Hidle Hfire].
  pose proof (evaluate_long m _ _ _ p Hph Hp) as Hev. cbn in Hev.
  destruct (py_ge_spec p (tp3 m0)) as [Hge|Hlt].
  - destruct (Hfire TP3 Hev) as (-> & Hinact & _); [apply Hph|].
    rewrite (feed_inactive w v sid path _ Hinact); cbn [fst].
    by rewrite fired_replicate_None.
  - destruct (Hidle Hev) as (-> & Ht' & _).
    apply IH; [done| |done]. inversion Hex; [done|]. done.
Qed.

(** Second phase: TP1 is hit. *)
Lemma rising_tp2 path s m :
  tracks s sid l m → long_phase m0 m true false false →
  StronglySorted Qle path →
  Forall (λ p, stop_loss m0 < p)%Q path →
  Exists (λ p, tp2 m0 <= p < tp3 m0)%Q path →
  Exists (λ p, tp3 m0 <= p)%Q path →
  fired (feed w v sid path s).1 = [TP2; TP3].
Proof.
  intros Ht Hph Hsorted Hsl Hex2 Hex3. revert s Ht.
  induction path as [|p path IH]; intros s Ht; [by inversion Hex3|].
  apply Forall_cons_1 in Hsl as [Hp Hsl].
  apply StronglySorted_inv in Hsorted as [Hsorted Hle].
  rewrite feed_cons; cbn [fst snd]; rewrite fired_cons.
  destruct (tracks_step w v sid l m p s Ht) as [Hidle Hfire].
  pose proof (evaluate_long m _ _ _ p Hph Hp) as Hev. cbn in Hev.
  destruct (py_ge_spec p (tp3 m0)) as [Hge3|Hlt3].
  { exfalso. apply Exists_cons in Hex2 as [[? ?]|Hex2]; [lra|].
    apply Exists_exists in Hex2 as (x & Hx & ? & ?).
    rewrite Forall_forall in Hle. specialize (Hle x Hx). lra. }
  destruct (py_ge_spec p (tp2 m0)) as [Hge2|Hlt2].
  - destruct (Hfire TP2 Hev) as (-> & Hnext); [apply Hph|].
    assert (Hc : closes (set_hit TP2 m) TP2 = false).
    { destruct Hph as (_&_&_&_&_&_&F1&F2&F3&_). cbn. by rewrite F1, F3. }
    rewrite Hc in Hnext. destruct Hnext as [Ht' _]. f_equal.
    eapply rising_tp3; [exact Ht'| |done|].
    + by apply (long_phase_filled m true false false TP2).
    + apply Exists_cons in Hex3 as [?|?]; [lra|done].
  - destruct (Hidle Hev) as (-> & Ht' & _).
    apply IH; try done.
    + apply Exists_cons in Hex2 as [[? ?]|?]; [lra|done].
    + apply Exists_cons in Hex3 as [?|?]; [lra|done].
Qed.

(** First phase: no target is hit yet. *)
Lemma rising_tp1 path s m :
  tracks s sid l m → long_phase m0 m false false false →
  StronglySorted Qle path →
  Forall (λ p, stop_loss m0 < p)%Q path →
  Exists (λ p, tp1 m0 <= p < tp2 m0)%Q path →
  Exists (λ p, tp2 m0 <= p < tp3 m0)%Q path →
  Exists (λ p, tp3 m0 <= p)%Q path →
  fired (feed w v sid path s).1 = [TP1; TP2; TP3].
Proof.
  intros Ht Hph Hsorted Hsl Hex1 Hex2 Hex3. revert s Ht.
  induction path as [|p path IH]; intros s Ht; [by inversion Hex3|].
  apply Forall_cons_1 in Hsl as [Hp Hsl].
  apply StronglySorted_inv in Hsorted as [Hsorted Hle].
  rewrite feed_cons; cbn [fst snd]; rewrite fired_cons.
  destruct (tracks_step w v sid l m p s Ht) as [Hidle Hfire].
  pose proof (evaluate_long m _ _ _ p Hph Hp) as Hev. cbn in Hev.
  destruct (py_ge_spec p (tp2 m0)) as [Hge2|Hlt2].
  { exfalso. apply Exists_cons in Hex1 as [[? ?]|Hex1]; [lra|].
    apply Exists_exists in Hex1 as (x & Hx & ? & ?).
    rewrite Forall_forall in Hle. specialize (Hle x Hx). lra. }
  destruct (py_ge_spec p (tp3 m0)) as [Hge3|Hlt3]; [lra|].
  destruct (py_ge_spec p (tp1 m0)) as [Hge1|Hlt1].
  - destruct (Hfire TP1 Hev) as (-> & Hnext); [apply Hph|].
    assert (Hc : closes (set_hit TP1 m) TP1 = false).
    { destruct Hph as (_&_&_&_&_&_&F1&F2&F3&_). cbn. by rewrite F2. }
    rewrite Hc in Hnext. destruct Hnext as [Ht' _]. f_equal.
    eapply rising_tp2; [exact Ht'| |done|done| |].
    + by apply (long_phase_filled m false false false TP1).
    + apply Exists_cons in Hex2 as [[? ?]|?]; [lra|done].
    + apply Exists_cons in Hex3 as [?|?]; [lra|done].
  - destruct (Hidle Hev) as (-> & Ht' & _).
    apply IH; try done.
    + apply Exists_cons in Hex1 as [[? ?]|?]; [lra|done].
    + apply Exists_cons in Hex2 as [[? ?]|?]; [lra|done].
    + apply Exists_cons in Hex3 as [?|?]; [lra|done].
Qed.

End Rising.

(** C7, as the code has it.  On a long signal with [tp1 < tp2 < tp3], an
    entry price other than zero and no flag set, a price path that never
    falls (each tick at least the one before), that stays above the
    stop-loss, and that has a tick in [[tp1, tp2)], a tick in
    [[tp2, tp3)] and a tick at or above [tp3], fires TP1, TP2 and TP3 once
    each, in this order, and fires no STOP. *)
Theorem targets_fire_in_order w v sid l m s path :
  active_signals (tracker s) !! sid = Some l →
  heap (tracker s) !! l = Some m →
  signal_id m = sid →
  direction m = "long" →
  ¬ (entry_price m == 0)%Q →
  (tp1 m < tp2 m < tp3 m)%Q →
  tp1_hit m = false → tp2_hit m = false → tp3_hit m = false →
  sl_hit m = false →
  StronglySorted Qle path →
  Forall (λ p, stop_loss m < p)%Q path →
  Exists (λ p, tp1 m <= p < tp2 m)%Q path →
  Exists (λ p, tp2 m <= p < tp3 m)%Q path →
  Exists (λ p, tp3 m <= p)%Q path →
  fired (feed w v sid path s).1 = [TP1; TP2; TP3].
Proof.
  intros Ha Hl Hsid Hd Hz Horder F1 F2 F3 Fs Hsorted Hsl H1 H2 H3.
  eapply (rising_tp1 w v sid l m Horder path s m); try done.
  - by apply tracks_intro.
  - repeat split; try done. by destruct (py_eq_spec (entry_price m) 0).
Qed.

Lemma targets_fire_in_order_witness :
  fired (feed example_world TelegramBot example_id
           [50000; 50600; 51100; 51600]%Q (example_state TelegramBot)).1
  = [TP1; TP2; TP3].
Proof.
  apply (targets_fire_in_order example_world TelegramBot example_id 0
           example_metrics (example_state TelegramBot)).
  - vm_compute; reflexivity.
  - vm_compute; reflexivity.
  - reflexivity.
  - reflexivity.
  - intros H; vm_compute in H; discriminate.
  - split; reflexivity.
  - reflexivity.
  - reflexivity.
  - reflexivity.
  - reflexivity.
  - repeat constructor; intros H; vm_compute in H; discriminate.
  - repeat constructor.
  - apply Exists_cons_tl, Exists_cons_hd.
    split; [intros H; vm_compute in H; discriminate|reflexivity].
  - apply Exists_cons_tl, Exists_cons_tl, Exists_cons_hd.
    split; [intros H; vm_compute in H; discriminate|reflexivity].
  - apply Exists_cons_tl, Exists_cons_tl, Exists_cons_tl, Exists_cons_hd.
    intros H; vm_compute in H; discriminate.
Defined.

(** C7, as stated, fails.  On the long position of the example (entry
    50000 < 50500 < 51000 < 51500), the rising path 50000, 52000 jumps
    over all three targets in one tick: TP3 alone fires and the signal is
    closed, TP1 and TP2 never fire.  The rising path 50000, 51200, 51300,
    52000 jumps over the first two: TP2 fires before TP1.  The rising
    path 48900, 50600, 51100, 51600 starts at the stop: STOP fires and
    nothing else.  And on a long position with entry 0 < 1 < 2 < 3 the
    path 1.5, 2.5, 3.5 visits every band and fires nothing: the handlers
    of the later copy return their error dictionary. *)
Lemma targets_fire_in_order_counterexample :
  let d := {| d_symbol := "X"; d_direction := "long";
              d_entry_price := 0; d_stop_loss := -1;
              d_tp1 := Some 1%Q; d_tp2 := Some 2%Q; d_tp3 := Some 3%Q;
              d_quality_score := None |} in
  StronglySorted Qlt [50000; 52000]%Q
  ∧ fired (feed example_world TelegramBot example_id [50000; 52000]%Q
             (example_state TelegramBot)).1 = [TP3]
  ∧ fired (feed example_world Trading example_id [50000; 52000]%Q
             (example_state Trading)).1 = [TP3]
  ∧ StronglySorted Qlt [50000; 51200; 51300; 52000]%Q
  ∧ fired (feed example_world TelegramBot example_id
             [50000; 51200; 51300; 52000]%Q
             (example_state TelegramBot)).1 = [TP2; TP1; TP3]
  ∧ fired (feed example_world TelegramBot example_id
             [48900; 50600; 51100; 51600]%Q
             (example_state TelegramBot)).1 = [STOP]
  ∧ fired (feed example_world TelegramBot "X_1700000000"
             [1.5; 2.5; 3.5]%Q
             (register_signal example_world TelegramBot d
                (__init__ false)).2).1 = [].
Proof.
  intros d.
  split; [repeat constructor|].
  split; [vm_compute; reflexivity|].
  split; [vm_compute; reflexivity|].
  split; [repeat constructor|].
  split; [vm_compute; reflexivity|].
  split; vm_compute; reflexivity.
Qed.

(** ** The invariant of the reachable states *)

Lemma closed_percent_set_hit m lvl :
  hit m lvl = false → lvl ≠ STOP →
  (closed_percent (set_hit lvl m) == closed_percent m + allocation m lvl)%Q.
Proof.
  intros Hhit Hlvl. unfold closed_percent, py_sum.
  destruct lvl; cbn in *; try done; rewrite Hhit;
    destruct (tp1_hit m), (tp2_hit m), (tp3_hit m); cbn;
    unfold tp1_percentage, tp2_percentage, tp3_percentage; lra.
Qed.

Lemma filled_fraction_filled m lvl p t :
  filled_fraction (filled m lvl p t)
  = (filled_fraction m + allocation (set_hit lvl m) lvl)%Q.
Proof.
  unfold filled_fraction, filled; cbn [fills append_fill].
  rewrite fmap_app. cbn [fmap list_fmap]. rewrite py_sum_app.
  by destruct lvl.
Qed.

Lemma evaluate_not_hit m p lvl : evaluate m p = Some lvl → hit m lvl = false.
Proof.
  intros H. apply evaluate_Some in H as [Hdue _]. unfold due in Hdue.
  by destruct (hit m lvl).
Qed.

(** A fill keeps the accounts of an open signal. *)
Lemma fractions_ok_filled m lvl p t :
  status m = "active" → fractions_ok m → hit m lvl = false →
  let m2 := filled m lvl p t in
  (lvl ≠ STOP → (filled_fraction m2 == closed_percent m2)%Q)
  ∧ (lvl = STOP → (filled_fraction m2 == 1)%Q).
Proof.
  intros Hst [[Hst' _]|[_ Hok]] Hhit m2; [congruence|].
  subst m2. rewrite filled_fraction_filled. split.
  - intros Hlvl.
    assert (Hc : closed_percent (filled m lvl p t)
                 = closed_percent (set_hit lvl m)) by done.
    rewrite Hc, closed_percent_set_hit, Hok by done.
    by destruct lvl.
  - intros ->.
    change (allocation (set_hit STOP m) STOP) with (1 - closed_percent m)%Q.
    rewrite Hok. lra.
Qed.

Lemma fractions_ok_step w v n m p :
  status m = "active" → ¬ (entry_price m == 0)%Q → fractions_ok m →
  fractions_ok (object (step_obj w v n m p)).
Proof.
  intros Hst Hz Hok.
  destruct (step_obj_shape w v n m p)
    as [_ _ _ Ho _|lvl _ Hz' _ _ _ _
       |lvl r Hev _ Hc _ _ Ho _|lvl r Hev _ Hc _ _ Ho _].
  - destruct Ho as [->|[r ->]]; [done|]. exact Hok.
  - by destruct (py_eq_spec (entry_price m) 0).
  - rewrite Ho. pose proof (evaluate_not_hit m p lvl Hev) as Hhit.
    assert (Hlvl : lvl ≠ STOP) by (by intros ->).
    destruct (fractions_ok_filled m lvl p (clock w n) Hst Hok Hhit)
      as [Htp _].
    right. split; [left; by destruct lvl|]. by apply Htp.
  - rewrite Ho. pose proof (evaluate_not_hit m p lvl Hev) as Hhit.
    destruct (fractions_ok_filled m lvl p (clock w n) Hst Hok Hhit)
      as [Htp Hstop].
    destruct (decide (lvl = STOP)) as [->|Hlvl].
    + left. split; [done|]. by apply Hstop.
    + right. split; [right; by destruct lvl|]. by apply Htp.
Qed.

Lemma step_obj_static w v n m p :
  signal_id (object (step_obj w v n m p)) = signal_id m
  ∧ entry_price (object (step_obj w v n m p)) = entry_price m
  ∧ (archived (step_obj w v n m p) = false →
     status (object (step_obj w v n m p)) = status m).
Proof.
  destruct (step_obj_shape w v n m p)
    as [_ _ _ Ho _|lvl _ _ _ _ Ho _
       |lvl r _ _ _ _ _ Ho _|lvl r _ _ _ Ha _ Ho _].
  - by destruct Ho as [->|[r ->]].
  - destruct Ho as [->|[r ->]]; by destruct lvl.
  - rewrite Ho. by destruct lvl.
  - rewrite Ho, Ha. by destruct lvl.
Qed.

Lemma inv_update w v sid p s :
  inv (tracker s) → inv (tracker (update_signal_price w v sid p s).2).
Proof.
  intros [Hwf Hok].
  destruct (active_signals (tracker s) !! sid) as [l|] eqn:Ha;
    [|by rewrite update_signal_price_inactive].
  destruct (Hwf sid l Ha) as (m & Hl & Hsid & Hst).
  destruct (update_signal_price_active w v sid p s l m Ha Hl Hsid)
    as (e' & -> & _). cbn [snd tracker].
  set (o := step_obj w v (clock_reads (env s)) m p).
  destruct (step_obj_static w v (clock_reads (env s)) m p)
    as (Hsid' & Hentry & Hstatus). fold o in Hsid', Hentry, Hstatus.
  assert (Hother : ∀ sid' l', sid' ≠ sid →
            active_signals (tracker s) !! sid' = Some l' → l' ≠ l).
  { intros sid' l' Hne Ha' ->.
    destruct (Hwf sid' l Ha') as (m' & Hl' & Hsid'' & _). congruence. }
  split.
  - intros sid' l' Ha'. cbn in Ha'. cbn [heap step_tracker].
    destruct (decide (sid' = sid)) as [->|Hne].
    + destruct (archived o) eqn:Harch;
        [by rewrite lookup_delete_eq in Ha'|].
      assert (l' = l) as -> by congruence.
      exists (object o). rewrite lookup_insert_eq.
      split; [done|]. split; [congruence|]. rewrite Hstatus; done.
    + assert (Ha'' : active_signals (tracker s) !! sid' = Some l').
      { destruct (archived o); [by rewrite lookup_delete_ne in Ha'|done]. }
      destruct (Hwf sid' l' Ha'') as (m' & Hl' & Hm').
      exists m'. split; [|done].
      rewrite lookup_insert_ne; [done|]. intros <-. by eapply Hother.
  - intros l' m' Hl' Hz. cbn in Hl'.
    destruct (decide (l' = l)) as [->|Hne].
    + rewrite lookup_insert_eq in Hl'. injection Hl' as <-.
      rewrite Hentry in Hz. apply fractions_ok_step; [done..|].
      by eapply Hok.
    + rewrite lookup_insert_ne in Hl' by done. by eapply Hok.
Qed.

Lemma inv_register w v d s :
  inv (tracker s) → inv (tracker (register_signal w v d s).2).
Proof.
  intros [Hwf Hok]. rewrite register_signal_spec. cbn [snd tracker].
  set (l := fresh (dom (heap (tracker s)))).
  assert (Hfresh : heap (tracker s) !! l = None).
  { apply not_elem_of_dom. apply is_fresh. }
  split.
  - intros sid' l' Ha'. cbn in Ha'. cbn [heap registered]. fold l in Ha' |- *.
    destruct (decide (sid' = new_id d (clock w (clock_reads (env s)))))
      as [->|Hne].
    + rewrite lookup_insert_eq in Ha'. injection Ha' as <-.
      eexists. rewrite lookup_insert_eq. done.
    + rewrite lookup_insert_ne in Ha' by done.
      destruct (Hwf sid' l' Ha') as (m' & Hl' & Hm').
      exists m'. split; [|done].
      rewrite lookup_insert_ne; [done|]. intros <-. congruence.
  - intros l' m' Hl' Hz. cbn in Hl'. fold l in Hl'.
    destruct (decide (l' = l)) as [->|Hne].
    + rewrite lookup_insert_eq in Hl'. injection Hl' as <-.
      right. split; [by left|]. reflexivity.
    + rewrite lookup_insert_ne in Hl' by done. by eapply Hok.
Qed.

Lemma reachable_inv w v s : reachable w v s → inv (tracker s).
Proof.
  induction 1 as [tg|s d _ IH|s sid p _ IH].
  - split; [intros sid l Ha|intros l m Hl]; by cbn in *.
  - by apply inv_register.
  - by apply inv_update.
Qed.

Lemma reachable_wf w v s : reachable w v s → wf (tracker s).
Proof. intros H. by destruct (reachable_inv w v s H). Qed.

(** C2, as the code has it.  In every state that registrations and price
    updates reach from a new tracker, for every signal
    with an entry price other than zero: the status is one of "active",
    "completed" and "stopped"; while the signal is active, and still when
    it is completed, the fractions of its fills plus the fraction that
    the flags leave open (1.0 minus the allocations of the targets whose
    flag is set) make 1.0; when it is stopped, the fractions of its fills
    alone make 1.0; a completed signal has filled the allocations of the
    targets it hit, which make 1.0 when it hit all three. *)
Theorem fractions_add_up w v s l m :
  reachable w v s →
  heap (tracker s) !! l = Some m →
  ¬ (entry_price m == 0)%Q →
  (status m = "active" ∨ status m = "completed" ∨ status m = "stopped")
  ∧ (status m = "active" ∨ status m = "completed" →
     (filled_fraction m + (1 - closed_percent m) == 1)%Q)
  ∧ (status m = "stopped" → (filled_fraction m == 1)%Q)
  ∧ (status m = "completed" →
     tp1_hit m = true → tp2_hit m = true → tp3_hit m = true →
     (filled_fraction m == 1)%Q).
Proof.
  intros Hreach Hl Hz.
  destruct (reachable_inv w v s Hreach) as [_ Hok].
  destruct (Hok l m Hl Hz) as [[Hst Hsum]|[Hst Hsum]].
  - split; [auto|]. split; [intros [?|?]; congruence|].
    split; [done|]. congruence.
  - split; [destruct Hst; auto|]. split; [intros _; rewrite Hsum; lra|].
    split; [destruct Hst; congruence|].
    intros _ H1 H2 H3. rewrite Hsum. unfold closed_percent.
    by rewrite H1, H2, H3.
Qed.

Lemma fractions_add_up_witness :
  let s := (update_signal_price example_world TelegramBot example_id 48900
              (example_state TelegramBot)).2 in
  ∃ m, (reachable example_world TelegramBot s
        ∧ heap (tracker s) !! 0 = Some m
        ∧ ¬ (entry_price m == 0)%Q)
       ∧ status m = "stopped" ∧ (filled_fraction m == 1)%Q.
Proof.
  intros s.
  assert (Hreach : reachable example_world TelegramBot s)
    by (apply reach_update, reach_register, reach_init).
  destruct (heap (tracker s) !! 0) as [m|] eqn:Hl;
    [|vm_compute in Hl; discriminate].
  assert (Hm : entry_price m = 50000%Q ∧ status m = "stopped")
    by (vm_compute in Hl; injection Hl as <-; done).
  destruct Hm as [Hentry Hst].
  assert (Hz : ¬ (entry_price m == 0)%Q)
    by (rewrite Hentry; intros H; vm_compute in H; discriminate).
  exists m. split; [done|]. split; [done|].
  exact (proj1 (proj2 (proj2 (fractions_add_up example_world TelegramBot
           s 0 m Hreach Hl Hz))) Hst).
Defined.

(** C2, as stated, fails.  On the long position of the example the price
    52000 is above all three targets: TP3 fires, its fill closes the
    allocation of TP3 only, and the signal is completed.  The state is
    reachable, the status is terminal, and the fractions of the fills do
    not make 1.0.  With an entry price of 0 the later copy sets the flag
    of the level and skips its fill: the signal stays active with no
    fill and an open fraction of 0.75. *)
Lemma fractions_add_up_counterexample :
  let s := (update_signal_price example_world TelegramBot example_id 52000
              (example_state TelegramBot)).2 in
  let z := (update_signal_price example_world TelegramBot
              "ETHUSDT_1700000000" 5
              (register_signal example_world TelegramBot example_zero
                 (__init__ false)).2).2 in
  (reachable example_world TelegramBot s
   ∧ ∃ m, heap (tracker s) !! 0 = Some m
          ∧ completed_signals (tracker s) = [0]
          ∧ status m = "completed"
          ∧ (filled_fraction m == 0.25)%Q
          ∧ ¬ (filled_fraction m == 1)%Q)
  ∧ (reachable example_world TelegramBot z
     ∧ ∃ m, heap (tracker z) !! 0 = Some m
            ∧ active_signals (tracker z) !! "ETHUSDT_1700000000" = Some 0
            ∧ status m = "active"
            ∧ (filled_fraction m + (1 - closed_percent m) == 0.75)%Q).
Proof.
  intros s z. split.
  - split; [apply reach_update, reach_register, reach_init|].
    destruct (heap (tracker s) !! 0) as [m|] eqn:Hl;
      [|vm_compute in Hl; discriminate].
    exists m. split; [done|]. split; [vm_compute; reflexivity|].
    vm_compute in Hl. injection Hl as <-.
    split; [reflexivity|]. split; [reflexivity|].
    intros H; vm_compute in H; discriminate.
  - split; [apply reach_update, reach_register, reach_init|].
    destruct (heap (tracker z) !! 0) as [m|] eqn:Hl;
      [|vm_compute in Hl; discriminate].
    exists m. split; [done|]. split; [vm_compute; reflexivity|].
    vm_compute in Hl. injection Hl as <-.
    split; reflexivity.
Qed.

(** ** The running return at entry price zero *)

Lemma calculate_current_roi_result v l price s m :
  heap (tracker s) !! l = Some m →
  (_calculate_current_roi v l price s).1 = roi v m price
  ∧ tracker (_calculate_current_roi v l price s).2 = tracker s.
Proof.
  intros Hl. destruct s as [t e]. cbn in Hl.
  destruct (runs_calculate_current_roi v l price m t (clock_reads e) Hl
              e eq_refl) as (e' & _ & ->). done.
Qed.

(** C4.  In the later copy, [_calculate_current_roi] on a signal whose
    entry price is 0 returns the sum of the weighted contributions of the
    fills (0 when there are none) and never divides.  The earlier copy
    has no such guard: as long as a fraction of the position is open, it
    divides by the entry price and raises [ZeroDivisionError]. *)
Theorem zero_entry_roi_is_closed_roi l price s m :
  heap (tracker s) !! l = Some m →
  (entry_price m == 0)%Q →
  (∃ r, (_calculate_current_roi TelegramBot l price s).1 = Return r
        ∧ (r == py_sum (weighted_profit <$> fills m))%Q
        ∧ (fills m = [] → (r == 0)%Q))
  ∧ ((0 < 1 - closed_percent m)%Q →
     (_calculate_current_roi Trading l price s).1 = Raise ZeroDivisionError).
Proof.
  intros Hl Hz. split.
  - destruct (calculate_current_roi_result TelegramBot l price s m Hl)
      as [-> _].
    unfold roi. destruct (py_eq_spec (entry_price m) 0); [|done]. cbn.
    destruct (py_gt _ _); eexists; (split; [reflexivity|]);
      (split; [|intros ->; cbn]); try reflexivity; unfold py_sum; cbn; lra.
  - intros Hopen.
    destruct (calculate_current_roi_result Trading l price s m Hl) as [-> _].
    unfold roi. destruct (py_gt_spec (1 - closed_percent m) 0); [|done].
    by destruct (py_eq_spec (entry_price m) 0).
Qed.

Lemma zero_entry_roi_is_closed_roi_witness :
  let s := (register_signal example_world Trading example_zero
              (__init__ false)).2 in
  (heap (tracker s) !! 0 = Some example_zero_metrics
   ∧ (entry_price example_zero_metrics == 0)%Q
   ∧ (0 < 1 - closed_percent example_zero_metrics)%Q)
  ∧ (_calculate_current_roi Trading 0 5 s).1 = Raise ZeroDivisionError.
Proof.
  intros s.
  assert (Hl : heap (tracker s) !! 0 = Some example_zero_metrics)
    by (vm_compute; reflexivity).
  assert (Hz : (entry_price example_zero_metrics == 0)%Q) by reflexivity.
  assert (Hopen : (0 < 1 - closed_percent example_zero_metrics)%Q)
    by reflexivity.
  split; [done|].
  exact (proj2 (zero_entry_roi_is_closed_roi 0 5%Q s example_zero_metrics
                  Hl Hz) Hopen).
Defined.

(** ** Contention on the database *)

Lemma backoff_cons a k :
  backoff a (S k) =
  [ Sleep (retry_delay * 2 ^ Z.of_nat a)%Q;
    Log WARNING (MsgDbLocked (a + 1) max_retries
                   (retry_delay * 2 ^ Z.of_nat a)%Q) ] ++ backoff (S a) k.
Proof. done. Qed.

Lemma locked_inv o :
  locked o = true →
  ∃ e, o = OperationalError e ∧ py_in "database is locked" e = true.
Proof. destruct o; try done. eauto. Qed.

(** The loop of the later copy against a database that stays locked: a
    sleep and a warning after each attempt but the last, an error after
    the last. *)
Lemma update_attempts_locked w v l final m t k :
  heap t !! l = Some m →
  ∀ a e,
    a + S k = max_retries →
    (∀ j, j < S k → locked (db_outcome w (db_attempts e + j)) = true) →
    update_attempts w v l final (seq a (S k)) {| tracker := t; env := e |} =
    (Return tt,
     {| tracker := t;
        env := {| trace := trace e ++ backoff a k
                           ++ [Log ERROR MsgDbUpdateError];
                  clock_reads := clock_reads e;
                  db_attempts := db_attempts e + S k |} |}).
Proof.
  intros Hl. induction k as [|k IH]; intros a e Ha Hlocked.
  - destruct (locked_inv _ (Hlocked 0 ltac:(lia))) as (msg & Ho & Hin).
    rewrite Nat.add_0_r in Ho.
    assert (a = 9) as -> by (unfold max_retries in Ha; lia).
    cbn [seq update_attempts]. unfold bind, deref, db_attempt; cbn.
    rewrite Hl; cbn. rewrite Ho, Hin; cbn.
    by rewrite Nat.add_1_r.
  - destruct (locked_inv _ (Hlocked 0 ltac:(lia))) as (msg & Ho & Hin).
    rewrite Nat.add_0_r in Ho.
    assert (Hlt : (a <? max_retries - 1) = true)
      by (apply Nat.ltb_lt; unfold max_retries in *; lia).
    rewrite backoff_cons.
    change (seq a (S (S k))) with (a :: seq (S a) (S k)).
    cbn [update_attempts]. unfold bind at 1 2, deref, db_attempt;
      cbn -[Nat.ltb Nat.sub max_retries py_in seq update_attempts].
    rewrite Hl; cbn -[Nat.ltb Nat.sub max_retries py_in seq update_attempts].
    rewrite Ho, Hin, Hlt;
      cbn -[Nat.ltb Nat.sub max_retries py_in seq update_attempts].
    unfold with_env; cbn -[seq update_attempts backoff max_retries].
    rewrite IH; cbn -[backoff max_retries].
    + do 3 f_equal; [by rewrite <- !app_assoc|lia].
    + lia.
    + intros j Hj. cbn [db_attempts Nat.add].
      replace (S (db_attempts e + j)) with (db_attempts e + S j) by lia.
      apply Hlocked. lia.
Qed.

(** C6.  Against a database that answers every attempt with "database is
    locked", [_update_signal_in_db] of the later copy makes
    [max_retries = 10] attempts, sleeps [retry_delay * 2 ** attempt] after
    each of the first nine, logs an error after the tenth, and returns:
    the update is dropped and the tracker is as before.  The earlier copy
    makes one attempt, logs the error and returns; it never retries. *)
Theorem locked_update_backs_off_and_drops w l final s m :
  heap (tracker s) !! l = Some m →
  (∀ j, j < max_retries →
     locked (db_outcome w (db_attempts (env s) + j)) = true) →
  _update_signal_in_db w TelegramBot l final s =
    (Return tt,
     {| tracker := tracker s;
        env := {| trace := trace (env s) ++ backoff 0 9
                           ++ [Log ERROR MsgDbUpdateError];
                  clock_reads := clock_reads (env s);
                  db_attempts := db_attempts (env s) + max_retries |} |})
  ∧ _update_signal_in_db w Trading l final s =
    (Return tt,
     {| tracker := tracker s;
        env := {| trace := trace (env s) ++ [Log ERROR MsgDbUpdateError];
                  clock_reads := clock_reads (env s);
                  db_attempts := db_attempts (env s) + 1 |} |}).
Proof.
  intros Hl Hlocked. destruct s as [t e]; cbn [tracker env] in *. split.
  - exact (update_attempts_locked w TelegramBot l final m t 9 Hl 0 e
             eq_refl Hlocked).
  - destruct (locked_inv _ (Hlocked 0 ltac:(unfold max_retries; lia)))
      as (msg & Ho & Hin).
    rewrite Nat.add_0_r in Ho.
    unfold _update_signal_in_db, bind, deref, db_attempt; cbn.
    rewrite Hl; cbn. rewrite Ho; cbn. by rewrite Nat.add_1_r.
Qed.

Lemma locked_update_backs_off_and_drops_witness :
  let s := (register_signal locked_world TelegramBot example_long
              (__init__ false)).2 in
  (∃ m, heap (tracker s) !! 0 = Some m)
  ∧ (∀ j, j < max_retries →
       locked (db_outcome locked_world (db_attempts (env s) + j)) = true)
  ∧ trace (env (_update_signal_in_db locked_world TelegramBot 0 false s).2)
    = trace (env s) ++ backoff 0 9 ++ [Log ERROR MsgDbUpdateError]
  ∧ trace (env (_update_signal_in_db locked_world Trading 0 false s).2)
    = trace (env s) ++ [Log ERROR MsgDbUpdateError].
Proof.
  intros s.
  destruct (heap (tracker s) !! 0) as [m|] eqn:Hl;
    [|vm_compute in Hl; discriminate].
  assert (Hlocked : ∀ j, j < max_retries →
            locked (db_outcome locked_world (db_attempts (env s) + j)) = true)
    by (intros j _; reflexivity).
  split; [by exists m|]. split; [exact Hlocked|].
  destruct (locked_update_backs_off_and_drops locked_world 0 false s m
              Hl Hlocked) as [-> ->].
  done.
Defined.

(** ** Statistics *)

Lemma runs_deref_all ls objs t n :
  mapM (λ l, heap t !! l) ls = Some objs →
  runs (deref_all ls) t n (Return objs) t n.
Proof.
  revert objs. induction ls as [|l ls IH]; intros objs Hobjs.
  - cbn in Hobjs. injection Hobjs as <-. apply runs_ret.
  - cbn in Hobjs. destruct (heap t !! l) as [m|] eqn:Hl; [|done].
    cbn in Hobjs. destruct (mapM _ ls) as [ms|]; [|done].
    cbn in Hobjs. injection Hobjs as <-. cbn [deref_all].
    eapply runs_bind; [by apply runs_deref|].
    eapply runs_bind; [by apply IH|]. apply runs_ret.
Qed.

Lemma runs_cutoff w days t n :
  (Z.abs days ≤ timedelta_max_days)%Z →
  (datetime_min ≤ clock w n - days * microseconds_per_day ≤ datetime_max)%Z →
  runs (cutoff w days) t n
    (Return (clock w n - days * microseconds_per_day)%Z) t (S n).
Proof.
  intros Hdays [Hmin Hmax]. unfold cutoff.
  eapply runs_bind; [apply runs_now|]. cbv beta.
  destruct (Z.ltb_spec timedelta_max_days (Z.abs days)); [lia|].
  destruct (Z.ltb_spec (clock w n - days * microseconds_per_day) datetime_min);
    [lia|].
  destruct (Z.ltb_spec datetime_max (clock w n - days * microseconds_per_day));
    [lia|].
  apply runs_ret.
Qed.

Lemma py_eq_length_nonzero k : py_eq (inject_Z (Z.of_nat (S k))) 0 = false.
Proof.
  destruct (py_eq_spec (inject_Z (Z.of_nat (S k))) 0) as [H|]; [|done].
  unfold Qeq in H; cbn in H. lia.
Qed.

Lemma filter_wins_losses (xs : list ROIMetrics) :
  length (List.filter is_win xs)
  + length (List.filter (λ x, negb (is_win x)) xs) = length xs.
Proof.
  induction xs as [|x xs IH]; [done|]. cbn.
  destruct (is_win x); cbn; lia.
Qed.

Lemma runs_get_statistics w days objs t n :
  mapM (λ l, heap t !! l) (completed_signals t) = Some objs →
  (Z.abs days ≤ timedelta_max_days)%Z →
  (datetime_min ≤ clock w n - days * microseconds_per_day ≤ datetime_max)%Z →
  runs (get_statistics w days) t n
    (Return
       (match List.filter
                (closed_after (clock w n - days * microseconds_per_day)%Z)
                objs
        with
        | [] => empty_statistics
        | recent => full_statistics days recent
        end)) t (S n).
Proof.
  intros Hobjs Hdays Hc. unfold get_statistics.
  eapply runs_bind; [by apply runs_cutoff|].
  eapply runs_bind; [apply (runs_read completed_signals)|].
  eapply runs_bind; [by apply runs_deref_all|]. cbv beta.
  destruct (List.filter _ objs) as [|x recent]; [apply runs_ret|].
  set (xs := x :: recent).
  assert (Hnz : py_eq (inject_Z (Z.of_nat (length xs))) 0 = false)
    by apply py_eq_length_nonzero.
  change (0 <? length xs) with true. cbv iota.
  unfold py_div. rewrite Hnz.
  eapply runs_eq.
  - eapply runs_bind; [eapply runs_bind; apply runs_ret|].
    eapply runs_bind; [apply runs_ret|].
    apply runs_ret.
  - unfold full_statistics. do 4 f_equal.
    apply (f_equal (λ k, PyInt (Z.of_nat k))), (f_equal (@length ROIMetrics)).
    apply filter_ext. intros a. unfold is_win, py_gt, py_le.
    by rewrite negb_involutive.
  - done.
  - done.
Qed.

(** What the archive holds as [current_roi].  [_close_signal] stores the
    sum of the fills, but the object is shared with the caller, and
    [update_signal_price] goes on to store the running return over it,
    computed from the target flags alone: after the stop of the example
    at 48900 the fills give -2.2, the archived object says -4.4; after
    the jump over TP3 at 52000 the fills give 1.0, the archived object
    says 4.0.  [get_statistics] reads the archived field. *)
Example archived_return_is_recomputed :
  let after p :=
    heap (tracker (update_signal_price example_world TelegramBot example_id p
                     (example_state TelegramBot)).2) !! 0 in
  ((λ m, (Qred (py_sum (weighted_profit <$> fills m)), Qred (current_roi m)))
     <$> after 48900%Q) = Some (-11 # 5, -22 # 5)%Q
  ∧ ((λ m, (Qred (py_sum (weighted_profit <$> fills m)), Qred (current_roi m)))
     <$> after 52000%Q) = Some (1, 4)%Q.
Proof. split; vm_compute; reflexivity. Qed.

(** C8, as the code has it.  For a window that [datetime] can represent,
    [get_statistics days] reads the clock once, leaves the tracker as it
    is, and computes over exactly the archived signals whose [close_time]
    is later than [now - days].  When there is at least one, the
    dictionary gives [total_signals], [wins], [losses], [win_rate],
    [average_roi] and [total_roi], where a signal is a win exactly when
    its [current_roi] is above zero, [wins + losses = total],
    [win_rate = wins / total * 100] and [average_roi = total_roi / total].
    When there is none, the dictionary gives [total_signals = 0] and zero
    for the two rates and the sum, and has no [wins] and no [losses]. *)
Theorem statistics_over_window w days s objs :
  mapM (λ l, heap (tracker s) !! l) (completed_signals (tracker s))
    = Some objs →
  (Z.abs days ≤ timedelta_max_days)%Z →
  let c := (clock w (clock_reads (env s)) - days * microseconds_per_day)%Z in
  (datetime_min ≤ c ≤ datetime_max)%Z →
  let recent := List.filter (closed_after c) objs in
  let total := length recent in
  let wins := length (List.filter is_win recent) in
  let losses := length (List.filter (λ x, negb (is_win x)) recent) in
  ∃ stats,
    (get_statistics w days s).1 = Return stats
    ∧ tracker (get_statistics w days s).2 = tracker s
    ∧ (∀ x, x ∈ recent ↔
            x ∈ objs ∧ ∃ ct, close_time x = Some ct ∧ (c < ct)%Z)
    ∧ (∀ x, is_win x = true ↔ (0 < current_roi x)%Q)
    ∧ wins + losses = total
    ∧ (recent = [] →
       stats = empty_statistics
       ∧ stats !! "total_signals" = Some (PyInt 0)
       ∧ stats !! "wins" = None ∧ stats !! "losses" = None)
    ∧ (recent ≠ [] →
       stats !! "total_signals" = Some (PyInt (Z.of_nat total))
       ∧ stats !! "wins" = Some (PyInt (Z.of_nat wins))
       ∧ stats !! "losses" = Some (PyInt (Z.of_nat losses))
       ∧ stats !! "win_rate"
         = Some (PyFloat (inject_Z (Z.of_nat wins)
                          / inject_Z (Z.of_nat total) * 100))
       ∧ stats !! "average_roi"
         = Some (PyFloat (py_sum (current_roi <$> recent)
                          / inject_Z (Z.of_nat total)))
       ∧ stats !! "total_roi"
         = Some (PyFloat (py_sum (current_roi <$> recent)))).
Proof.
  intros Hobjs Hdays c Hc recent total wins losses.
  destruct s as [t e]; cbn [tracker env] in *.
  destruct (runs_get_statistics w days objs t (clock_reads e) Hobjs Hdays Hc
              e eq_refl) as (e' & _ & Hrun).
  rewrite Hrun; cbn [fst snd tracker]. fold c recent.
  eexists. split; [reflexivity|]. split; [done|].
  split.
  { intros x. subst recent. rewrite !list_elem_of_In, filter_In.
    unfold closed_after. split.
    - intros [Hin Hct]. split; [done|].
      destruct (close_time x) as [ct|]; [|done].
      exists ct. split; [done|]. by apply Z.ltb_lt.
    - intros [Hin (ct & -> & Hct)]. split; [done|]. by apply Z.ltb_lt. }
  split.
  { intros x. unfold is_win. destruct (py_gt_spec (current_roi x) 0);
      split; done. }
  split; [apply filter_wins_losses|].
  split.
  - intros ->. done.
  - intros Hne. destruct recent as [|x xs] eqn:Hrecent; [done|].
    unfold full_statistics. fold total wins losses.
    repeat split; by simplify_map_eq.
Qed.

Lemma statistics_over_window_witness :
  let s := (update_signal_price example_world TelegramBot example_id 52000
              (example_state TelegramBot)).2 in
  ∃ objs stats,
    mapM (λ l, heap (tracker s) !! l) (completed_signals (tracker s))
      = Some objs
    ∧ (get_statistics example_world 30 s).1 = Return stats
    ∧ stats !! "wins" = Some (PyInt 1)
    ∧ stats !! "losses" = Some (PyInt 0).
Proof.
  intros s.
  destruct (mapM (λ l, heap (tracker s) !! l) (completed_signals (tracker s)))
    as [objs|] eqn:Hobjs; [|vm_compute in Hobjs; discriminate].
  assert (Hdays : (Z.abs 30 ≤ timedelta_max_days)%Z)
    by (intros H; vm_compute in H; discriminate).
  assert (Hc : (datetime_min
                ≤ clock example_world (clock_reads (env s))
                  - 30 * microseconds_per_day ≤ datetime_max)%Z)
    by (split; intros H; vm_compute in H; discriminate).
  destruct (statistics_over_window example_world 30 s objs Hobjs Hdays Hc)
    as (stats & Hret & _ & _ & _ & _ & _ & Hfull).
  exists objs, stats. split; [done|]. split; [done|].
  vm_compute in Hobjs. injection Hobjs as <-.
  destruct Hfull as (_ & Hwins & Hlosses & _);
    [intros H; vm_compute in H; discriminate|].
  split; [exact Hwins|exact Hlosses].
Defined.

(** C8, as stated, fails for a window without signals: the dictionary
    that [get_statistics] returns for a tracker with an empty archive has
    no [wins] and no [losses].  It also fails for a window that
    [timedelta] cannot hold: [get_statistics(10 ** 9)] raises. *)
Lemma statistics_over_window_counterexample :
  (∃ stats,
     (get_statistics example_world 30 (__init__ false)).1 = Return stats
     ∧ stats !! "total_signals" = Some (PyInt 0)
     ∧ stats !! "wins" = None
     ∧ stats !! "losses" = None)
  ∧ (get_statistics example_world 1000000000 (__init__ false)).1
    = Raise OverflowError.
Proof.
  split; [|vm_compute; reflexivity].
  eexists. split; [vm_compute; reflexivity|]. done.
Qed.

(** * More of the code

    Properties of the methods beyond the ten claims: what a price
    update can raise and what it leaves alone, the levels of a whole
    lifetime, the return an archived signal carries, the retries of the
    database update, and the methods of the later copy that restart and
    poll. *)

(** ** The exceptions of a price update *)

Lemma example_state_wf v : wf (tracker (example_state v)).
Proof. apply (reachable_wf example_world v), reach_register, reach_init. Qed.

Lemma roi_result v m p :
  (∃ r, roi v m p = Return r)
  ∨ (v = Trading ∧ py_eq (entry_price m) 0 = true
     ∧ roi v m p = Raise ZeroDivisionError).
Proof.
  unfold roi. destruct (py_gt _ _); [|left; by eexists].
  destruct (py_eq (entry_price m) 0) eqn:Hz; [|left; by eexists].
  destruct v; cbn; [by right|left; by eexists].
Qed.

Lemma handle_result w v n m lvl p :
  (∃ e, result (handle w v n m lvl p) = Return e)
  ∨ (v = Trading ∧ py_eq (entry_price m) 0 = true
     ∧ result (handle w v n m lvl p) = Raise ZeroDivisionError).
Proof.
  unfold handle. destruct (py_eq (entry_price m) 0) eqn:Hz.
  - destruct v; cbn; [by right|left; by eexists].
  - left. destruct (closes m lvl); by eexists.
Qed.

Lemma store_roi_result v p (o : Outcome (option Event)) :
  (∃ ev, result (store_roi v p o) = Return ev)
  ∨ (∃ x, result o = Raise x ∧ result (store_roi v p o) = Raise x)
  ∨ (v = Trading ∧ py_eq (entry_price (object o)) 0 = true
     ∧ result (store_roi v p o) = Raise ZeroDivisionError).
Proof.
  unfold store_roi. destruct (result o) as [ev|x] eqn:Hr.
  - destruct (roi_result v (object o) p) as [[r ->]|(-> & Hz & ->)]; cbn.
    + left. by eexists.
    + right. right. done.
  - right. left. exists x. by rewrite Hr.
Qed.

(** A call ends in a value, or, in the earlier copy and at entry price
    zero, in [ZeroDivisionError]. *)
Lemma step_obj_result w v n m p :
  (∃ ev, result (step_obj w v n m p) = Return ev)
  ∨ (v = Trading ∧ py_eq (entry_price m) 0 = true
     ∧ result (step_obj w v n m p) = Raise ZeroDivisionError).
Proof.
  unfold step_obj. destruct (evaluate m p) as [lvl|].
  - destruct (store_roi_result v p
                (some_event (handle w v n (set_hit lvl m) lvl p)))
      as [H|[(x & Hx & Hr)|(Hv & Hz & Hr)]]; [by left| |].
    + right. cbn [some_event result] in Hx.
      destruct (handle_result w v n (set_hit lvl m) lvl p)
        as [[e He]|(Hv & Hz & He)]; rewrite He in Hx; [done|].
      injection Hx as <-. rewrite set_hit_entry_price in Hz. done.
    + right. split; [done|]. split; [|done].
      cbn [some_event object] in Hz.
      unfold handle in Hz. rewrite set_hit_entry_price in Hz.
      destruct (py_eq (entry_price m) 0) eqn:Hz'; [done|].
      destruct (closes (set_hit lvl m) lvl); cbn in Hz;
        destruct lvl; cbn in Hz; congruence.
  - destruct (store_roi_result v p
                {| result := Return None; object := m;
                   archived := false; reads := 0 |})
      as [H|[(x & Hx & Hr)|(Hv & Hz & Hr)]]; [by left|done|by right].
Qed.

(** X1.  On a tracker whose active identifiers lead to their objects,
    for a price and for signals whose entry price, stop loss and targets
    are numbers (the objects of the model; a level stored as [None]
    makes the comparison of the source raise [TypeError]),
    [update_signal_price] of the later copy does not raise: every call
    returns an event dictionary or [None].  A call of the earlier copy
    raises nothing but [ZeroDivisionError], and only on a signal whose
    entry price is zero. *)
Theorem update_raises_only_on_zero_entry w v sid price s :
  wf (tracker s) →
  (v = TelegramBot →
   ∃ event, (update_signal_price w v sid price s).1 = Return event)
  ∧ (∀ x, (update_signal_price w v sid price s).1 = Raise x →
       v = Trading ∧ x = ZeroDivisionError
       ∧ ∃ l m, active_signals (tracker s) !! sid = Some l
                ∧ heap (tracker s) !! l = Some m
                ∧ (entry_price m == 0)%Q).
Proof.
  intros Hwf.
  destruct (active_signals (tracker s) !! sid) as [l|] eqn:Ha.
  - destruct (Hwf sid l Ha) as (m & Hl & Hsid & _).
    destruct (update_signal_price_active w v sid price s l m Ha Hl Hsid)
      as (e' & -> & _). cbn [fst].
    destruct (step_obj_result w v (clock_reads (env s)) m price)
      as [[ev ->]|(-> & Hz & ->)].
    + split; [by eexists|done].
    + split; [done|]. intros x [= <-]. split; [done|]. split; [done|].
      exists l, m. split; [done|]. split; [done|].
      by destruct (py_eq_spec (entry_price m) 0).
  - rewrite update_signal_price_inactive by done. cbn.
    split; [by eexists|done].
Qed.

Lemma update_raises_only_on_zero_entry_witness :
  wf (tracker (example_state TelegramBot))
  ∧ ∃ event,
      (update_signal_price example_world TelegramBot example_id 50600
         (example_state TelegramBot)).1 = Return event.
Proof.
  split; [apply example_state_wf|].
  exact (proj1 (update_raises_only_on_zero_entry example_world TelegramBot
                  example_id 50600 (example_state TelegramBot)
                  (example_state_wf TelegramBot)) eq_refl).
Defined.

(** ** The other signals *)

(** X2.  A price update for one identifier leaves every other active
    signal alone: it stays active under its identifier, its object is
    what it was, and it is not moved to the archive. *)
Theorem update_leaves_other_signals w v sid price s sid' l' :
  wf (tracker s) → sid' ≠ sid →
  active_signals (tracker s) !! sid' = Some l' →
  let s' := (update_signal_price w v sid price s).2 in
  active_signals (tracker s') !! sid' = Some l'
  ∧ heap (tracker s') !! l' = heap (tracker s) !! l'
  ∧ (l' ∈ completed_signals (tracker s') →
     l' ∈ completed_signals (tracker s)).
Proof.
  intros Hwf Hne Ha' s'. subst s'.
  destruct (active_signals (tracker s) !! sid) as [l|] eqn:Ha;
    [|by rewrite update_signal_price_inactive].
  destruct (Hwf sid l Ha) as (m & Hl & Hsid & _).
  destruct (update_signal_price_active w v sid price s l m Ha Hl Hsid)
    as (e' & -> & _). cbn [snd tracker step_tracker heap active_signals
                           completed_signals].
  assert (Hll : l' ≠ l).
  { intros ->. destruct (Hwf sid' l Ha') as (m' & Hl' & Hsid' & _).
    congruence. }
  split; [|split].
  - destruct (archived _); [by rewrite lookup_delete_ne|done].
  - by rewrite lookup_insert_ne.
  - destruct (archived _); [|done].
    rewrite elem_of_app, list_elem_of_singleton. by intros [?|?].
Qed.

Lemma update_leaves_other_signals_witness :
  let s := example_pair TelegramBot in
  let s' :=
    (update_signal_price example_world TelegramBot example_id 52000 s).2 in
  (wf (tracker s) ∧ "ETHUSDT_1700000000" ≠ example_id
   ∧ active_signals (tracker s) !! "ETHUSDT_1700000000" = Some 1)
  ∧ active_signals (tracker s') !! "ETHUSDT_1700000000" = Some 1
  ∧ heap (tracker s') !! 1 = heap (tracker s) !! 1.
Proof.
  intros s s'.
  assert (Hwf : wf (tracker s))
    by (apply (reachable_wf example_world TelegramBot),
          reach_register, reach_register, reach_init).
  assert (Hne : "ETHUSDT_1700000000" ≠ example_id) by discriminate.
  assert (Ha : active_signals (tracker s) !! "ETHUSDT_1700000000" = Some 1)
    by (vm_compute; reflexivity).
  split; [done|].
  destruct (update_leaves_other_signals example_world TelegramBot example_id
              52000 s "ETHUSDT_1700000000" 1 Hwf Hne Ha) as (H1 & H2 & _).
  split; [exact H1|exact H2].
Defined.

(** ** Entry price zero along a path *)

(** With an entry price of zero no call fires a level, fills or closes;
    the calls only set flags. *)
Lemma feed_zero_entry w v sid l path : ∀ s m,
  active_signals (tracker s) !! sid = Some l →
  heap (tracker s) !! l = Some m →
  signal_id m = sid →
  py_eq (entry_price m) 0 = true →
  fired (feed w v sid path s).1 = []
  ∧ active_signals (tracker (feed w v sid path s).2) !! sid = Some l
  ∧ completed_signals (tracker (feed w v sid path s).2)
    = completed_signals (tracker s)
  ∧ ∃ m', heap (tracker (feed w v sid path s).2) !! l = Some m'
          ∧ fills m' = fills m ∧ status m' = status m.
Proof.
  induction path as [|p path IH]; intros s m Ha Hl Hsid Hz.
  - cbn. split; [done|]. split; [done|]. split; [done|]. by exists m.
  - rewrite feed_cons; cbn [fst snd]. rewrite fired_cons.
    destruct (update_signal_price_active w v sid p s l m Ha Hl Hsid)
      as (e' & Hupd & _).
    rewrite Hupd; cbn [fst snd].
    rewrite produced_step_obj, Hz.
    set (o := step_obj w v (clock_reads (env s)) m p).
    assert (Ho : archived o = false
                 ∧ signal_id (object o) = sid
                 ∧ entry_price (object o) = entry_price m
                 ∧ fills (object o) = fills m
                 ∧ status (object o) = status m).
    { subst o.
      destruct (step_obj_shape w v (clock_reads (env s)) m p)
        as [_ Harch _ Ho _|lvl _ _ Harch _ Ho _
           |lvl r _ Hz' _ _ _ _ _|lvl r _ Hz' _ _ _ _ _];
        [| |congruence..].
      - split; [done|]. by destruct Ho as [->|[r ->]].
      - split; [done|]. destruct Ho as [->|[r ->]]; by destruct lvl. }
    destruct Ho as (Harch & Hsid' & Hentry & Hfills & Hst).
    set (s1 := {| tracker := step_tracker sid l o (tracker s); env := e' |}).
    assert (Ha1 : active_signals (tracker s1) !! sid = Some l)
      by (cbn; by rewrite Harch).
    assert (Hl1 : heap (tracker s1) !! l = Some (object o))
      by (cbn; apply lookup_insert_eq).
    assert (Hz1 : py_eq (entry_price (object o)) 0 = true) by congruence.
    destruct (IH s1 (object o) Ha1 Hl1 Hsid' Hz1)
      as (Hf & Ha2 & Hc2 & m2 & Hl2 & Hfills2 & Hst2).
    split; [done|]. split; [done|].
    split; [rewrite Hc2; cbn; by rewrite Harch|].
    exists m2. split; [done|]. split; congruence.
Qed.

(** X3.  A signal whose entry price is zero is never closed.  Whatever
    prices are fed to it, no call produces a threshold event, records a
    fill or changes the status; the signal stays in the active set and
    never reaches the archive.  (The later copy answers the calls at a
    due level with an error dictionary, the earlier copy raises.) *)
Theorem zero_entry_signal_never_closes w v sid l m path s :
  active_signals (tracker s) !! sid = Some l →
  heap (tracker s) !! l = Some m →
  signal_id m = sid →
  (entry_price m == 0)%Q →
  let s' := (feed w v sid path s).2 in
  fired (feed w v sid path s).1 = []
  ∧ active_signals (tracker s') !! sid = Some l
  ∧ completed_signals (tracker s') = completed_signals (tracker s)
  ∧ ∃ m', heap (tracker s') !! l = Some m'
          ∧ fills m' = fills m ∧ status m' = status m.
Proof.
  intros Ha Hl Hsid Hz. apply feed_zero_entry; [done..|].
  by destruct (py_eq_spec (entry_price m) 0).
Qed.

Lemma zero_entry_signal_never_closes_witness :
  let s := (register_signal example_world TelegramBot example_zero
              (__init__ false)).2 in
  let r := feed example_world TelegramBot "ETHUSDT_1700000000"
             [5; 0; -1; 7]%Q s in
  (active_signals (tracker s) !! "ETHUSDT_1700000000" = Some 0
   ∧ heap (tracker s) !! 0 = Some example_zero_metrics
   ∧ (entry_price example_zero_metrics == 0)%Q)
  ∧ fired r.1 = []
  ∧ active_signals (tracker r.2) !! "ETHUSDT_1700000000" = Some 0
  ∧ completed_signals (tracker r.2) = [].
Proof.
  intros s r.
  assert (Ha : active_signals (tracker s) !! "ETHUSDT_1700000000" = Some 0)
    by (vm_compute; reflexivity).
  assert (Hl : heap (tracker s) !! 0 = Some example_zero_metrics)
    by (vm_compute; reflexivity).
  assert (Hz : (entry_price example_zero_metrics == 0)%Q) by reflexivity.
  split; [done|].
  destruct (zero_entry_signal_never_closes example_world TelegramBot
              "ETHUSDT_1700000000" 0 example_zero_metrics [5; 0; -1; 7]%Q s
              Ha Hl eq_refl Hz) as (H1 & H2 & H3 & _).
  split; [exact H1|]. split; [exact H2|exact H3].
Defined.

(** ** The levels of a lifetime *)

Lemma hit_filled m lvl p t lvl' :
  hit (filled m lvl p t) lvl' = hit m lvl' || bool_decide (lvl' = lvl).
Proof. destruct lvl, lvl'; cbn; by rewrite ?orb_false_r, ?orb_true_r. Qed.

Lemma feed_fired w v sid l path : ∀ s m,
  tracks s sid l m →
  lifetime (fired (feed w v sid path s).1)
  ∧ Forall (λ lvl, hit m lvl = false) (fired (feed w v sid path s).1).
Proof.
  induction path as [|p path IH]; intros s m Ht.
  - cbn. split; [|done]. exists [], []. split; [done|].
    split; [constructor|]. split; [done|by left].
  - destruct (py_eq (entry_price m) 0) eqn:Hz.
    { destruct Ht as (Ha & Hsid & m' & Hl & Hn).
      destruct (norm_inv m m' Hn) as (Hsid' & Hentry & _).
      destruct (feed_zero_entry w v sid l (p :: path) s m' Ha Hl)
        as (-> & _); [congruence..|].
      split; [|done]. exists [], []. split; [done|].
      split; [constructor|]. split; [done|by left]. }
    rewrite feed_cons; cbn [fst snd]. rewrite fired_cons.
    destruct (tracks_step w v sid l m p s Ht) as [Hidle Hfire].
    destruct (evaluate m p) as [lvl|] eqn:Hev.
    + destruct (Hfire lvl eq_refl Hz) as [-> Hnext].
      pose proof (evaluate_not_hit m p lvl Hev) as Hhit.
      destruct (closes (set_hit lvl m) lvl) eqn:Hc.
      * destruct Hnext as (Hgone & _).
        rewrite feed_inactive by done. cbn [fst].
        rewrite fired_replicate_None.
        split; [|by constructor].
        destruct lvl.
        -- exists [TP1], []. split; [done|].
           split; [apply NoDup_singleton|]. split; [|by left].
           constructor; [by left|done].
        -- exists [TP2], []. split; [done|].
           split; [apply NoDup_singleton|]. split; [|by left].
           constructor; [by right|done].
        -- exists [], [TP3]. split; [done|]. split; [constructor|].
           split; [done|]. right. by left.
        -- exists [], [STOP]. split; [done|]. split; [constructor|].
           split; [done|]. right. by right.
      * destruct Hnext as (Ht' & _).
        destruct (IH _ _ Ht')
          as [(pre & last & Heq & Hnd & Hpre & Hlast) Hall].
        rewrite Heq in Hall |- *.
        assert (Hlvl : lvl = TP1 ∨ lvl = TP2)
          by (destruct lvl; cbn in Hc; [by left|by right|done|done]).
        assert (Hmono : ∀ lvl',
                  hit (filled m lvl p (clock w (clock_reads (env s)))) lvl'
                  = false →
                  hit m lvl' = false ∧ lvl' ≠ lvl).
        { intros lvl'. rewrite hit_filled. intros H.
          apply orb_false_elim in H as [H1 H2].
          split; [done|]. by apply bool_decide_eq_false in H2. }
        split.
        -- exists (lvl :: pre), last. split; [done|].
           split; [|split; [by constructor|done]].
           constructor; [|done]. intros Hin.
           rewrite Forall_app in Hall. destruct Hall as [Hall _].
           rewrite Forall_forall in Hall.
           by destruct (Hmono lvl (Hall lvl Hin)).
        -- constructor; [done|].
           eapply Forall_impl; [exact Hall|]. intros lvl' H.
           by destruct (Hmono lvl' H).
    + destruct (Hidle eq_refl) as (-> & Ht' & _). by apply IH.
Qed.

(** X4.  Along any price path, one signal fires every level at most
    once and at most three levels in all; a level whose flag was set
    before does not fire; and TP3 and the stop-loss can only be the last
    level fired, since they close the signal. *)
Theorem levels_fire_once_and_closing_last w v sid path s :
  wf (tracker s) →
  let lvls := fired (feed w v sid path s).1 in
  NoDup lvls
  ∧ length lvls ≤ 3
  ∧ (∀ i lvl, lvls !! i = Some lvl → lvl = TP3 ∨ lvl = STOP →
       S i = length lvls)
  ∧ ∀ l m lvl, active_signals (tracker s) !! sid = Some l →
      heap (tracker s) !! l = Some m → lvl ∈ lvls → hit m lvl = false.
Proof.
  intros Hwf lvls. subst lvls.
  destruct (active_signals (tracker s) !! sid) as [l|] eqn:Ha.
  2:{ rewrite feed_inactive by done. cbn [fst]. rewrite fired_replicate_None.
      split; [constructor|]. split; [cbn; lia|]. split; [done|].
      intros ??? _ _ H. by apply elem_of_nil in H. }
  destruct (Hwf sid l Ha) as (m & Hl & Hsid & _).
  destruct (feed_fired w v sid l path s m (tracks_intro s sid l m Ha Hl Hsid))
    as [(pre & last & -> & Hnd & Hpre & Hlast) Hall].
  assert (Hlen : length pre ≤ 2).
  { apply (submseteq_length pre [TP1; TP2]).
    apply NoDup_submseteq; [done|].
    intros x Hx. rewrite Forall_forall in Hpre.
    destruct (Hpre x Hx) as [-> | ->]; rewrite !elem_of_cons; tauto. }
  assert (Hdisj : ∀ x, x ∈ pre → x ∈ last → False).
  { intros x Hx Hy. rewrite Forall_forall in Hpre.
    destruct Hlast as [-> |[-> | ->]]; [by apply elem_of_nil in Hy| |];
      apply list_elem_of_singleton in Hy; subst x;
      by destruct (Hpre _ Hx). }
  split; [|split; [|split]].
  - apply NoDup_app. split; [done|]. split; [done|].
    destruct Hlast as [-> |[-> | ->]];
      [constructor|apply NoDup_singleton..].
  - rewrite length_app. destruct Hlast as [-> |[-> | ->]]; cbn; lia.
  - intros i lvl Hi Hlvl. rewrite length_app.
    apply lookup_app_Some in Hi as [Hi|[Hge Hi]].
    + apply list_elem_of_lookup_2 in Hi. rewrite Forall_forall in Hpre.
      destruct (Hpre _ Hi) as [-> | ->]; by destruct Hlvl.
    + destruct Hlast as [-> |[-> | ->]]; [done| |];
        apply list_lookup_singleton_Some in Hi as [Hi _]; cbn; lia.
  - intros l' m' lvl Ha' Hl' Hin.
    assert (l' = l) as -> by congruence.
    assert (m' = m) as -> by congruence.
    rewrite Forall_forall in Hall. by apply Hall.
Qed.

Lemma levels_fire_once_and_closing_last_witness :
  let lvls := fired (feed example_world TelegramBot example_id
                       [51200; 50600; 48000; 51600; 50000]%Q
                       (example_state TelegramBot)).1 in
  wf (tracker (example_state TelegramBot))
  ∧ NoDup lvls ∧ length lvls ≤ 3.
Proof.
  intros lvls. split; [apply example_state_wf|].
  destruct (levels_fire_once_and_closing_last example_world TelegramBot
              example_id [51200; 50600; 48000; 51600; 50000]%Q
              (example_state TelegramBot) (example_state_wf TelegramBot))
    as (H1 & H2 & _).
  split; [exact H1|exact H2].
Defined.

(** ** The return of a closed signal *)

Lemma closed_percent_range m :
  (closed_percent m == 0 ∨ closed_percent m == 1 # 4
   ∨ closed_percent m == 1 # 2 ∨ closed_percent m == 3 # 4
   ∨ closed_percent m == 1)%Q.
Proof.
  unfold closed_percent, py_sum, tp1_percentage, tp2_percentage,
    tp3_percentage.
  destruct (tp1_hit m), (tp2_hit m), (tp3_hit m); cbn;
    [do 4 right|do 3 right; left|do 2 right; left|right; left
    |do 3 right; left|do 2 right; left|right; left|left]; lra.
Qed.

(** The return a closing call leaves in the archived object:
    [_close_signal] stores the sum of the fills, and the caller stores
    the running return over it. *)
Lemma closing_return w v n m lvl p :
  evaluate m p = Some lvl →
  py_eq (entry_price m) 0 = false →
  closes (set_hit lvl m) lvl = true →
  let o := step_obj w v n m p in
  archived o = true
  ∧ status (object o) = final_status lvl
  ∧ fills (object o)
    = fills m ++ [fill_of (set_hit lvl m) lvl p (clock w n)]
  ∧ (current_roi (object o)
     == py_sum (weighted_profit <$> fills (object o))
        + pct m p * (1 - closed_percent (set_hit lvl m)))%Q.
Proof.
  intros Hev Hz Hc o. subst o. unfold step_obj. rewrite Hev.
  unfold handle. rewrite set_hit_entry_price, Hz, Hc.
  unfold store_roi. cbn [some_event result object archived reads].
  set (c := closed_obj _ _ _).
  assert (Hcp : closed_percent c = closed_percent (set_hit lvl m))
    by reflexivity.
  assert (Hentry : entry_price c = entry_price m)
    by (subst c; destruct lvl; reflexivity).
  assert (Hpct : pct c p = pct m p)
    by (subst c; destruct lvl; reflexivity).
  unfold roi. rewrite Hcp, Hentry, Hz, Hpct.
  destruct (py_gt_spec (1 - closed_percent (set_hit lvl m)) 0) as [Hgt|Hle];
    cbn [result object archived].
  - split; [done|]. split; [by destruct lvl|]. split; [by destruct lvl|].
    cbn [current_roi set_current_roi]. reflexivity.
  - split; [done|]. split; [by destruct lvl|]. split; [by destruct lvl|].
    cbn [current_roi set_current_roi].
    assert (H0 : (1 - closed_percent (set_hit lvl m) == 0)%Q).
    { destruct (closed_percent_range (set_hit lvl m))
        as [H|[H|[H|[H|H]]]]; lra. }
    rewrite H0.
    change (fills (set_current_roi
                     (py_sum (weighted_profit <$> fills c) + 0) c))
      with (fills c). lra.
Qed.

Lemma closing_call w v sid price s l m lvl :
  active_signals (tracker s) !! sid = Some l →
  heap (tracker s) !! l = Some m →
  signal_id m = sid →
  ¬ (entry_price m == 0)%Q →
  evaluate m price = Some lvl →
  closes (set_hit lvl m) lvl = true →
  let s' := (update_signal_price w v sid price s).2 in
  ∃ m', heap (tracker s') !! l = Some m'
        ∧ active_signals (tracker s') !! sid = None
        ∧ completed_signals (tracker s') = completed_signals (tracker s) ++ [l]
        ∧ status m' = final_status lvl
        ∧ fills m' = fills m ++ [fill_of (set_hit lvl m) lvl price
                                   (clock w (clock_reads (env s)))]
        ∧ (current_roi m'
           == py_sum (weighted_profit <$> fills m')
              + pct m price * (1 - closed_percent (set_hit lvl m)))%Q.
Proof.
  intros Ha Hl Hsid Hz Hev Hc s'. subst s'.
  assert (Hz' : py_eq (entry_price m) 0 = false)
    by (by destruct (py_eq_spec (entry_price m) 0)).
  destruct (update_signal_price_active w v sid price s l m Ha Hl Hsid)
    as (e' & -> & _). cbn [snd tracker step_tracker heap active_signals
                           completed_signals].
  destruct (closing_return w v (clock_reads (env s)) m lvl price Hev Hz' Hc)
    as (-> & Hst & Hfills & Hroi).
  eexists. split; [apply lookup_insert_eq|].
  split; [apply lookup_delete_eq|]. done.
Qed.

(** X5.  When the stop-loss closes a signal, the return left in the
    archived object counts the loss twice.  The stop fill realises
    [loss = percent * (1 - closed share)], and the fills then add up to
    the earlier fills plus [loss]; but [update_signal_price] goes on to
    store the running return, which adds the unrealised return of the
    same share again, since the stop flag does not count as closed:
    [current_roi] ends as the earlier fills plus [2 * loss].  This is
    the figure [get_statistics] reads. *)
Theorem stopped_signal_counts_the_loss_twice w v sid price s l m :
  active_signals (tracker s) !! sid = Some l →
  heap (tracker s) !! l = Some m →
  signal_id m = sid →
  ¬ (entry_price m == 0)%Q →
  evaluate m price = Some STOP →
  let s' := (update_signal_price w v sid price s).2 in
  let loss := (pct m price * (1 - closed_percent m))%Q in
  ∃ m', heap (tracker s') !! l = Some m'
        ∧ completed_signals (tracker s') = completed_signals (tracker s) ++ [l]
        ∧ status m' = "stopped"
        ∧ (py_sum (weighted_profit <$> fills m')
           == py_sum (weighted_profit <$> fills m) + loss)%Q
        ∧ (current_roi m'
           == py_sum (weighted_profit <$> fills m) + 2 * loss)%Q.
Proof.
  intros Ha Hl Hsid Hz Hev s' loss.
  destruct (closing_call w v sid price s l m STOP Ha Hl Hsid Hz Hev eq_refl)
    as (m' & Hl' & _ & Hc & Hst & Hfills & Hroi).
  exists m'. split; [done|]. split; [done|]. split; [done|].
  assert (Hsum : (py_sum (weighted_profit <$> fills m')
                  == py_sum (weighted_profit <$> fills m) + loss)%Q).
  { rewrite Hfills, fmap_app. cbn [fmap list_fmap]. rewrite py_sum_app.
    reflexivity. }
  split; [done|]. rewrite Hroi, Hsum.
  change (closed_percent (set_hit STOP m)) with (closed_percent m).
  subst loss. lra.
Qed.

Lemma stopped_signal_counts_the_loss_twice_witness :
  let s := example_state TelegramBot in
  let s' :=
    (update_signal_price example_world TelegramBot example_id 48900 s).2 in
  (active_signals (tracker s) !! example_id = Some 0
   ∧ heap (tracker s) !! 0 = Some example_metrics
   ∧ ¬ (entry_price example_metrics == 0)%Q
   ∧ evaluate example_metrics 48900 = Some STOP)
  ∧ ∃ m', heap (tracker s') !! 0 = Some m'
          ∧ (py_sum (weighted_profit <$> fills m') == -11 # 5)%Q
          ∧ (current_roi m' == -22 # 5)%Q.
Proof.
  intros s s'.
  assert (Ha : active_signals (tracker s) !! example_id = Some 0)
    by (vm_compute; reflexivity).
  assert (Hl : heap (tracker s) !! 0 = Some example_metrics)
    by (vm_compute; reflexivity).
  assert (Hz : ¬ (entry_price example_metrics == 0)%Q)
    by (intros H; vm_compute in H; discriminate).
  split; [done|].
  destruct (stopped_signal_counts_the_loss_twice example_world TelegramBot
              example_id 48900 s 0 example_metrics Ha Hl eq_refl Hz eq_refl)
    as (m' & Hl' & _ & _ & Hsum & Hroi).
  exists m'. split; [exact Hl'|]. split.
  - rewrite Hsum. reflexivity.
  - rewrite Hroi. reflexivity.
Defined.

(** X6.  When TP3 closes a signal, its fill realises the TP3 share of 25
    per cent only, but the return left in the archived object values the
    whole share that the target flags had left open at the TP3 price:
    the earlier fills plus [percent * (1 - closed share)].  The archived
    return is the sum of the fills plus [percent] times the share that
    TP1 and TP2 had not closed (0.25 for TP1, 0.5 for TP2); the two
    agree when both had been hit before. *)
Theorem completed_signal_values_the_open_rest w v sid price s l m :
  active_signals (tracker s) !! sid = Some l →
  heap (tracker s) !! l = Some m →
  signal_id m = sid →
  ¬ (entry_price m == 0)%Q →
  evaluate m price = Some TP3 →
  let s' := (update_signal_price w v sid price s).2 in
  ∃ m', heap (tracker s') !! l = Some m'
        ∧ completed_signals (tracker s') = completed_signals (tracker s) ++ [l]
        ∧ status m' = "completed"
        ∧ (py_sum (weighted_profit <$> fills m')
           == py_sum (weighted_profit <$> fills m)
              + pct m price * tp3_percentage)%Q
        ∧ (current_roi m'
           == py_sum (weighted_profit <$> fills m)
              + pct m price * (1 - closed_percent m))%Q
        ∧ (current_roi m'
           == py_sum (weighted_profit <$> fills m')
              + pct m price * ((if tp1_hit m then 0 else 25 # 100)
                               + (if tp2_hit m then 0 else 50 # 100)))%Q
        ∧ (tp1_hit m = true → tp2_hit m = true →
           (current_roi m' == py_sum (weighted_profit <$> fills m'))%Q).
Proof.
  intros Ha Hl Hsid Hz Hev s'.
  destruct (closing_call w v sid price s l m TP3 Ha Hl Hsid Hz Hev eq_refl)
    as (m' & Hl' & _ & Hc & Hst & Hfills & Hroi).
  exists m'. split; [done|]. split; [done|]. split; [done|].
  assert (Hsum : (py_sum (weighted_profit <$> fills m')
                  == py_sum (weighted_profit <$> fills m)
                     + pct m price * tp3_percentage)%Q).
  { rewrite Hfills, fmap_app. cbn [fmap list_fmap]. rewrite py_sum_app.
    reflexivity. }
  pose proof (evaluate_not_hit m price TP3 Hev) as Hhit.
  assert (Hcp : (closed_percent (set_hit TP3 m)
                 == closed_percent m + tp3_percentage)%Q)
    by (by apply (closed_percent_set_hit m TP3)).
  assert (Hopen : (1 - closed_percent m
                   == tp3_percentage
                      + ((if tp1_hit m then 0 else 25 # 100)
                         + (if tp2_hit m then 0 else 50 # 100)))%Q).
  { cbn in Hhit. unfold closed_percent, py_sum, tp1_percentage,
      tp2_percentage, tp3_percentage. rewrite Hhit.
    by destruct (tp1_hit m), (tp2_hit m). }
  assert (Hrest : (current_roi m'
                   == py_sum (weighted_profit <$> fills m')
                      + pct m price * ((if tp1_hit m then 0 else 25 # 100)
                               + (if tp2_hit m then 0 else 50 # 100)))%Q).
  { assert (H : (1 - closed_percent (set_hit TP3 m)
                 == (if tp1_hit m then 0 else 25 # 100)
                    + (if tp2_hit m then 0 else 50 # 100))%Q)
      by (rewrite Hcp; lra).
    by rewrite Hroi, H. }
  split; [done|]. split; [|split; [done|]].
  - rewrite Hroi, Hsum, Hcp. lra.
  - intros H1 H2. rewrite Hrest, H1, H2. ring.
Qed.

Lemma completed_signal_values_the_open_rest_witness :
  let s := example_state TelegramBot in
  let s' :=
    (update_signal_price example_world TelegramBot example_id 52000 s).2 in
  (active_signals (tracker s) !! example_id = Some 0
   ∧ heap (tracker s) !! 0 = Some example_metrics
   ∧ ¬ (entry_price example_metrics == 0)%Q
   ∧ evaluate example_metrics 52000 = Some TP3)
  ∧ ∃ m', heap (tracker s') !! 0 = Some m'
          ∧ status m' = "completed"
          ∧ (py_sum (weighted_profit <$> fills m') == 1)%Q
          ∧ (current_roi m' == 4)%Q.
Proof.
  intros s s'.
  assert (Ha : active_signals (tracker s) !! example_id = Some 0)
    by (vm_compute; reflexivity).
  assert (Hl : heap (tracker s) !! 0 = Some example_metrics)
    by (vm_compute; reflexivity).
  assert (Hz : ¬ (entry_price example_metrics == 0)%Q)
    by (intros H; vm_compute in H; discriminate).
  split; [done|].
  destruct (completed_signal_values_the_open_rest example_world TelegramBot
              example_id 52000 s 0 example_metrics Ha Hl eq_refl Hz eq_refl)
    as (m' & Hl' & _ & Hst & Hsum & Hroi & _).
  exists m'. split; [exact Hl'|]. split; [exact Hst|]. split.
  - rewrite Hsum. reflexivity.
  - rewrite Hroi. reflexivity.
Defined.

(** ** A lock that goes away *)

(** The attempts that find the database locked, before the last one. *)
Lemma update_attempts_retry w v l final m t k :
  heap t !! l = Some m →
  ∀ a e r,
    a + k < max_retries →
    (∀ j, j < k → locked (db_outcome w (db_attempts e + j)) = true) →
    update_attempts w v l final (seq a (k + r)) {| tracker := t; env := e |} =
    update_attempts w v l final (seq (a + k) r)
      {| tracker := t;
         env := {| trace := trace e ++ backoff a k;
                   clock_reads := clock_reads e;
                   db_attempts := db_attempts e + k |} |}.
Proof.
  intros Hl. induction k as [|k IH]; intros a e r Ha Hlocked.
  - destruct e as [tr cr da]. cbn [trace clock_reads db_attempts backoff
                                    flat_map seq Nat.add].
    by rewrite app_nil_r, !Nat.add_0_r.
  - destruct (locked_inv _ (Hlocked 0 ltac:(lia))) as (msg & Ho & Hin).
    rewrite Nat.add_0_r in Ho.
    assert (Hlt : (a <? max_retries - 1) = true)
      by (apply Nat.ltb_lt; unfold max_retries in *; lia).
    rewrite backoff_cons.
    change (seq a (S k + r)) with (a :: seq (S a) (k + r)).
    cbn [update_attempts]. unfold bind at 1 2, deref, db_attempt;
      cbn -[Nat.ltb Nat.sub max_retries py_in seq update_attempts].
    rewrite Hl; cbn -[Nat.ltb Nat.sub max_retries py_in seq update_attempts].
    rewrite Ho, Hin, Hlt;
      cbn -[Nat.ltb Nat.sub max_retries py_in seq update_attempts].
    unfold with_env; cbn -[seq update_attempts backoff max_retries].
    rewrite IH; cbn -[backoff max_retries seq update_attempts].
    + replace (a + S k) with (S (a + k)) by lia.
      replace (db_attempts e + S k) with (S (db_attempts e + k)) by lia.
      by rewrite <- !app_assoc.
    + lia.
    + intros j Hj. cbn [db_attempts Nat.add].
      replace (S (db_attempts e + j)) with (db_attempts e + S j) by lia.
      apply Hlocked. lia.
Qed.

(** X7.  [_update_signal_in_db] of the later copy retries for as long as
    the database is locked: when the first [k] attempts (fewer than ten)
    fail with "database is locked" and the next one does not, the method
    has slept [retry_delay * 2 ** i] and logged a warning after each of
    the [k], and the attempt after them decides: if it commits, the
    update is written; any other error is logged and ends the loop at
    once.  [k + 1] attempts are made, and the tracker is as before. *)
Theorem update_retries_until_the_lock_is_gone w l final s m k :
  heap (tracker s) !! l = Some m →
  k < max_retries →
  (∀ j, j < k → locked (db_outcome w (db_attempts (env s) + j)) = true) →
  locked (db_outcome w (db_attempts (env s) + k)) = false →
  _update_signal_in_db w TelegramBot l final s =
    (Return tt,
     {| tracker := tracker s;
        env := {| trace :=
                    trace (env s) ++ backoff 0 k
                    ++ [ match db_outcome w (db_attempts (env s) + k) with
                         | Committed =>
                             SqlCommit (update_statement TelegramBot m final)
                         | _ => Log ERROR MsgDbUpdateError
                         end ];
                  clock_reads := clock_reads (env s);
                  db_attempts := db_attempts (env s) + S k |} |}).
Proof.
  intros Hl Hk Hlocked Hfree. destruct s as [t e]. cbn [tracker env] in *.
  unfold _update_signal_in_db.
  replace max_retries with (k + S (max_retries - S k)) at 1 by lia.
  rewrite (update_attempts_retry w TelegramBot l final m t k Hl 0 e)
    by (cbn [Nat.add]; done).
  cbn [Nat.add seq].
  cbn [update_attempts]. unfold bind at 1 2, deref, db_attempt;
    cbn -[Nat.ltb Nat.sub max_retries py_in seq update_attempts backoff].
  rewrite Hl;
    cbn -[Nat.ltb Nat.sub max_retries py_in seq update_attempts backoff].
  destruct (db_outcome w (db_attempts e + k)) as [|msg|] eqn:Ho;
    cbn -[Nat.ltb Nat.sub max_retries py_in seq update_attempts backoff].
  - unfold emit, with_env; cbn -[backoff].
    do 3 f_equal; [by rewrite <- !app_assoc|lia].
  - cbn [locked] in Hfree. rewrite Hfree.
    cbn -[backoff]. unfold log, emit, with_env; cbn -[backoff].
    do 3 f_equal; [by rewrite <- !app_assoc|lia].
  - unfold log, emit, with_env; cbn -[backoff].
    do 3 f_equal; [by rewrite <- !app_assoc|lia].
Qed.

Lemma update_retries_until_the_lock_is_gone_witness :
  let s := example_state TelegramBot in
  (heap (tracker s) !! 0 = Some example_metrics
   ∧ 2 < max_retries
   ∧ (∀ j, j < 2 →
        locked (db_outcome (busy_world 3) (db_attempts (env s) + j)) = true)
   ∧ locked (db_outcome (busy_world 3) (db_attempts (env s) + 2)) = false)
  ∧ trace (env (_update_signal_in_db (busy_world 3) TelegramBot 0 false s).2)
    = trace (env s) ++ backoff 0 2
      ++ [SqlCommit (update_statement TelegramBot example_metrics false)].
Proof.
  intros s.
  assert (Hl : heap (tracker s) !! 0 = Some example_metrics)
    by (vm_compute; reflexivity).
  assert (Hk : 2 < max_retries) by (unfold max_retries; lia).
  assert (Hlocked : ∀ j, j < 2 →
            locked (db_outcome (busy_world 3) (db_attempts (env s) + j)) = true)
    by (intros [|[|j]] Hj; [reflexivity|reflexivity|lia]).
  assert (Hfree : locked (db_outcome (busy_world 3) (db_attempts (env s) + 2))
                  = false) by reflexivity.
  split; [done|].
  rewrite (update_retries_until_the_lock_is_gone (busy_world 3) 0 false s
             example_metrics 2 Hl Hk Hlocked Hfree).
  reflexivity.
Defined.

(** ** Identifiers *)

(** X8.  The identifier of a signal is its symbol and the whole second
    of the clock, so two registrations of one symbol within a second
    collide: the second call returns the identifier of the first and
    takes its place in the active set.  The first signal keeps its
    object, with status "active", but no identifier leads to it any
    more: no price update can reach or close it. *)
Theorem same_second_registrations_collide w v d1 d2 s :
  wf (tracker s) →
  d_symbol d1 = d_symbol d2 →
  timestamp_int (clock w (clock_reads (env s)))
  = timestamp_int (clock w (S (S (clock_reads (env s))))) →
  let first := register_signal w v d1 s in
  let second := register_signal w v d2 first.2 in
  ∃ sid l1 l2,
    first.1 = Return sid ∧ second.1 = Return sid
    ∧ active_signals (tracker first.2) !! sid = Some l1
    ∧ active_signals (tracker second.2) !! sid = Some l2
    ∧ l1 ≠ l2
    ∧ (∃ m1, heap (tracker second.2) !! l1 = Some m1
             ∧ signal_id m1 = sid ∧ status m1 = "active"
             ∧ entry_price m1 = d_entry_price d1)
    ∧ (∃ m2, heap (tracker second.2) !! l2 = Some m2
             ∧ entry_price m2 = d_entry_price d2)
    ∧ (∀ sid', active_signals (tracker second.2) !! sid' ≠ Some l1)
    ∧ dom (active_signals (tracker second.2))
      = dom (active_signals (tracker first.2)).
Proof.
  intros Hwf Hsym Hsec first second. subst first second.
  rewrite (register_signal_spec w v d1 s). cbn [fst snd].
  rewrite register_signal_spec. cbn [fst snd tracker env clock_reads].
  set (n := clock_reads (env s)).
  set (sid := new_id d1 (clock w n)).
  assert (Hid : new_id d2 (clock w (S (S n))) = sid).
  { unfold sid, new_id. subst n. by rewrite Hsym, Hsec. }
  rewrite Hid.
  set (t1 := registered w d1 n (tracker s)).
  set (l1 := fresh (dom (heap (tracker s)))).
  set (l2 := fresh (dom (heap t1))).
  assert (Hl1 : heap (tracker s) !! l1 = None)
    by (apply not_elem_of_dom, is_fresh).
  assert (Hl2 : heap t1 !! l2 = None)
    by (apply not_elem_of_dom, is_fresh).
  assert (Hne : l1 ≠ l2).
  { intros Heq. rewrite <- Heq in Hl2. subst t1. cbn in Hl2.
    fold l1 in Hl2. by rewrite lookup_insert_eq in Hl2. }
  exists sid, l1, l2.
  split; [done|]. split; [done|].
  split; [cbn; apply lookup_insert_eq|].
  split; [cbn; rewrite Hid; apply lookup_insert_eq|].
  split; [done|].
  split.
  { eexists. split.
    - cbn. fold l1 t1 l2. rewrite lookup_insert_ne by done.
      apply lookup_insert_eq.
    - done. }
  split.
  { eexists. split; [cbn; fold t1 l2; apply lookup_insert_eq|done]. }
  split.
  { intros sid' Ha. cbn in Ha. rewrite Hid in Ha. fold l1 t1 l2 in Ha.
    destruct (decide (sid' = sid)) as [->|Hs].
    - rewrite lookup_insert_eq in Ha. injection Ha as Ha.
      exact (Hne (eq_sym Ha)).
    - rewrite !lookup_insert_ne in Ha by done.
      destruct (Hwf sid' l1 Ha) as (m' & Hm' & _).
      rewrite Hl1 in Hm'. discriminate. }
  cbn. rewrite Hid. fold l1 t1 l2.
  rewrite !dom_insert_L. by rewrite (assoc_L (∪)), (idemp_L (∪)).
Qed.

Lemma same_second_registrations_collide_witness :
  let s := __init__ false in
  let first := register_signal example_world Trading example_long s in
  let second := register_signal example_world Trading
                  {| d_symbol := "BTCUSDT"; d_direction := "short";
                     d_entry_price := 50100; d_stop_loss := 50600;
                     d_tp1 := None; d_tp2 := None; d_tp3 := None;
                     d_quality_score := None |} first.2 in
  (wf (tracker s)
   ∧ timestamp_int (clock example_world (clock_reads (env s)))
     = timestamp_int (clock example_world (S (S (clock_reads (env s))))))
  ∧ first.1 = Return example_id ∧ second.1 = Return example_id
  ∧ size (active_signals (tracker second.2)) = 1.
Proof.
  intros s first second.
  assert (Hwf : wf (tracker s))
    by (apply (reachable_wf example_world Trading), reach_init).
  assert (Hsec : timestamp_int (clock example_world (clock_reads (env s)))
                 = timestamp_int
                     (clock example_world (S (S (clock_reads (env s))))))
    by reflexivity.
  split; [done|].
  destruct (same_second_registrations_collide example_world Trading
              example_long
              {| d_symbol := "BTCUSDT"; d_direction := "short";
                 d_entry_price := 50100; d_stop_loss := 50600;
                 d_tp1 := None; d_tp2 := None; d_tp3 := None;
                 d_quality_score := None |} s Hwf eq_refl Hsec)
    as (sid & l1 & l2 & H1 & H2 & _).
  assert (sid = example_id) as ->
    by (vm_compute in H1; by injection H1 as <-).
  split; [exact H1|]. split; [exact H2|]. vm_compute. reflexivity.
Defined.

(** ** The figures of the statistics *)

Lemma Forall_list_filter {A} (P : A → Prop) (f : A → bool) xs :
  Forall P xs → Forall P (List.filter f xs).
Proof.
  induction 1 as [|x xs Hx _ IH]; [constructor|].
  cbn. destruct (f x); [by constructor|done].
Qed.

Lemma wins_none xs :
  Forall (λ x, is_win x = false) xs → List.filter is_win xs = [].
Proof.
  induction 1 as [|x xs Hx _ IH]; [done|]. cbn. by rewrite Hx.
Qed.

Lemma wins_all xs :
  Forall (λ x, is_win x = true) xs → List.filter is_win xs = xs.
Proof.
  induction 1 as [|x xs Hx _ IH]; [done|]. cbn. by rewrite Hx, IH.
Qed.

(** X9.  For a window that [timedelta] and [datetime] can hold,
    [get_statistics] returns figures that are consistent: the number of
    signals is at most the size of the archive and the win rate lies
    between 0 and 100; the win rate is 0 when no archived signal has a
    return above zero, and 100 when all of them have and the window is
    not empty.  For the empty window both figures are zero. *)
Theorem statistics_rates_are_consistent w days s objs :
  mapM (λ l, heap (tracker s) !! l) (completed_signals (tracker s))
    = Some objs →
  (Z.abs days ≤ timedelta_max_days)%Z →
  (datetime_min
   ≤ clock w (clock_reads (env s)) - days * microseconds_per_day
   ≤ datetime_max)%Z →
  ∃ stats n rate,
    (get_statistics w days s).1 = Return stats
    ∧ stats !! "total_signals" = Some (PyInt n)
    ∧ stats !! "win_rate" = Some (PyFloat rate)
    ∧ (0 ≤ n ≤ Z.of_nat (length objs))%Z
    ∧ (0 <= rate <= 100)%Q
    ∧ (Forall (λ x, py_gt (current_roi x) 0 = false) objs → (rate == 0)%Q)
    ∧ (Forall (λ x, py_gt (current_roi x) 0 = true) objs → (0 < n)%Z →
       (rate == 100)%Q).
Proof.
  intros Hobjs Hdays Hrange.
  destruct s as [t e]. cbn [tracker env] in *.
  destruct (runs_get_statistics w days objs t (clock_reads e)
              Hobjs Hdays Hrange e eq_refl) as (e' & _ & ->).
  cbn [fst].
  set (recent := List.filter _ objs).
  assert (Hle : length recent ≤ length objs) by apply filter_length_le.
  assert (Hsub : ∀ P : ROIMetrics → Prop, Forall P objs → Forall P recent)
    by (intros P; apply Forall_list_filter).
  destruct recent as [|x xs] eqn:Hrec.
  - exists empty_statistics, 0%Z, 0%Q.
    split; [done|]. split; [done|]. split; [done|].
    split; [lia|]. split; [lra|]. split; [done|]. lia.
  - rewrite <- Hrec in *.
    set (k := length recent) in *.
    set (wins := length (List.filter is_win recent)).
    assert (Hk : 0 < k) by (subst k; rewrite Hrec; cbn; lia).
    assert (Hw : wins ≤ k) by apply filter_length_le.
    assert (HkQ : (0 < inject_Z (Z.of_nat k))%Q).
    { change 0%Q with (inject_Z 0). rewrite <- Zlt_Qlt. lia. }
    assert (HwQ : (0 <= inject_Z (Z.of_nat wins) <= inject_Z (Z.of_nat k))%Q).
    { change 0%Q with (inject_Z 0). rewrite <- !Zle_Qle. lia. }
    eexists (full_statistics days recent), _, _.
    split; [by rewrite Hrec|].
    split; [reflexivity|]. split; [reflexivity|].
    fold k wins. split; [lia|]. split; [|split].
    + split.
      * apply Qmult_le_0_compat; [|lra].
        apply Qle_shift_div_l; [done|]. lra.
      * assert (H : (inject_Z (Z.of_nat wins) / inject_Z (Z.of_nat k) <= 1)%Q).
        { apply Qle_shift_div_r; [done|]. lra. }
        lra.
    + intros Hnone. subst wins.
      rewrite (wins_none recent (Hsub _ Hnone)). cbn [length].
      change (inject_Z (Z.of_nat 0)) with 0%Q. field. lra.
    + intros Hall _. subst wins.
      rewrite (wins_all recent (Hsub _ Hall)). fold k. field. lra.
Qed.

Lemma statistics_rates_are_consistent_witness :
  let s := (update_signal_price example_world TelegramBot example_id 48900
              (example_state TelegramBot)).2 in
  ∃ objs stats,
    (mapM (λ l, heap (tracker s) !! l) (completed_signals (tracker s))
       = Some objs
     ∧ (Z.abs 30 ≤ timedelta_max_days)%Z
     ∧ (datetime_min
        ≤ clock example_world (clock_reads (env s)) - 30 * microseconds_per_day
        ≤ datetime_max)%Z)
    ∧ (get_statistics example_world 30 s).1 = Return stats
    ∧ stats !! "total_signals" = Some (PyInt 1)
    ∧ stats !! "win_rate" = Some (PyFloat (0 / 1 * 100)).
Proof.
  intros s.
  destruct (mapM (λ l, heap (tracker s) !! l) (completed_signals (tracker s)))
    as [objs|] eqn:Hobjs; [|vm_compute in Hobjs; discriminate].
  assert (Hdays : (Z.abs 30 ≤ timedelta_max_days)%Z)
    by (intros H; vm_compute in H; discriminate).
  assert (Hc : (datetime_min
                ≤ clock example_world (clock_reads (env s))
                  - 30 * microseconds_per_day ≤ datetime_max)%Z)
    by (split; intros H; vm_compute in H; discriminate).
  destruct (statistics_rates_are_consistent example_world 30 s objs
              Hobjs Hdays Hc)
    as (stats & n & rate & Hret & _).
  exists objs, stats. split; [done|]. split; [exact Hret|].
  vm_compute in Hret. injection Hret as <-. split; reflexivity.
Defined.

(** ** Long and short *)

Lemma mirror_le e x y : py_le (2 * e - x) (2 * e - y) = py_ge x y.
Proof.
  destruct (py_le_spec (2 * e - x) (2 * e - y)), (py_ge_spec x y);
    try done; exfalso; lra.
Qed.

Lemma mirror_ge e x y : py_ge (2 * e - x) (2 * e - y) = py_le x y.
Proof.
  destruct (py_ge_spec (2 * e - x) (2 * e - y)), (py_le_spec x y);
    try done; exfalso; lra.
Qed.

Lemma reached_mirror m lvl p :
  direction m = "long" ∨ direction m = "short" →
  reached (mirror m) lvl (mirror_price m p) = reached m lvl p.
Proof.
  intros [Hd|Hd]; unfold reached, mirror, mirror_price;
    cbn [direction tp1 tp2 tp3 stop_loss entry_price]; rewrite Hd;
    repeat (destruct (decide _); try done);
    destruct lvl; by rewrite ?mirror_le, ?mirror_ge.
Qed.

Lemma evaluate_mirror m p :
  direction m = "long" ∨ direction m = "short" →
  evaluate (mirror m) (mirror_price m p) = evaluate m p.
Proof.
  intros Hd. unfold evaluate, due.
  rewrite !(reached_mirror m _ p Hd). done.
Qed.

Lemma pct_mirror m p :
  direction m = "long" ∨ direction m = "short" →
  ¬ (entry_price m == 0)%Q →
  (pct (mirror m) (mirror_price m p) == pct m p)%Q.
Proof.
  intros [Hd|Hd] Hz; unfold pct, mirror, mirror_price;
    cbn [direction entry_price]; rewrite Hd;
    repeat (destruct (decide _); try done); field; done.
Qed.

(** X10.  The branch for short signals is the mirror image of the branch
    for long ones.  Take a signal and its mirror image (the other
    direction, the stop and the targets mirrored about the entry price):
    a price update of the one and the update of the other at the
    mirrored price fire the same level or both none, close both signals
    or neither, and compute the same percentage. *)
Theorem short_mirrors_long w v sid price s s' l m :
  active_signals (tracker s) !! sid = Some l →
  heap (tracker s) !! l = Some m →
  active_signals (tracker s') !! sid = Some l →
  heap (tracker s') !! l = Some (mirror m) →
  signal_id m = sid →
  direction m = "long" ∨ direction m = "short" →
  let r := update_signal_price w v sid price s in
  let r' := update_signal_price w v sid (mirror_price m price) s' in
  produced r'.1 = produced r.1
  ∧ (active_signals (tracker r'.2) !! sid = None
     ↔ active_signals (tracker r.2) !! sid = None)
  ∧ (¬ (entry_price m == 0)%Q →
     (pct (mirror m) (mirror_price m price) == pct m price)%Q).
Proof.
  intros Ha Hl Ha' Hl' Hsid Hd r r'. subst r r'.
  destruct (update_signal_price_active w v sid price s l m Ha Hl Hsid)
    as (e1 & -> & _).
  destruct (update_signal_price_active w v sid (mirror_price m price) s' l
              (mirror m) Ha' Hl' Hsid) as (e2 & -> & _).
  cbn [fst snd tracker step_tracker active_signals].
  rewrite !produced_step_obj.
  change (entry_price (mirror m)) with (entry_price m).
  rewrite evaluate_mirror by done.
  split; [done|]. split; [|by apply pct_mirror].
  set (o := step_obj w v (clock_reads (env s)) m price).
  set (o' := step_obj w v (clock_reads (env s')) (mirror m)
               (mirror_price m price)).
  assert (Harch : archived o' = archived o).
  { subst o o'.
    destruct (step_obj_shape w v (clock_reads (env s)) m price)
      as [Hev H1 _ _ _|lvl Hev Hz H1 _ _ _
         |lvl r Hev Hz Hc H1 _ _ _|lvl r Hev Hz Hc H1 _ _ _];
    destruct (step_obj_shape w v (clock_reads (env s')) (mirror m)
                (mirror_price m price))
      as [Hev' H2 _ _ _|lvl' Hev' Hz' H2 _ _ _
         |lvl' r' Hev' Hz' Hc' H2 _ _ _|lvl' r' Hev' Hz' Hc' H2 _ _ _];
    rewrite evaluate_mirror in Hev' by done;
    change (entry_price (mirror m)) with (entry_price m) in *;
    try congruence.
    - assert (lvl' = lvl) as -> by congruence.
      assert (closes (set_hit lvl (mirror m)) lvl
              = closes (set_hit lvl m) lvl) by (by destruct lvl).
      congruence.
    - assert (lvl' = lvl) as -> by congruence.
      assert (closes (set_hit lvl (mirror m)) lvl
              = closes (set_hit lvl m) lvl) by (by destruct lvl).
      congruence. }
  rewrite Harch. destruct (archived o).
  - by rewrite !lookup_delete_eq.
  - by rewrite Ha, Ha'.
Qed.

Lemma short_mirrors_long_witness :
  let s := example_state TelegramBot in
  let s' := (register_signal example_world TelegramBot
               {| d_symbol := "BTCUSDT"; d_direction := "short";
                  d_entry_price := 50000; d_stop_loss := 51000;
                  d_tp1 := Some 49500%Q; d_tp2 := Some 49000%Q;
                  d_tp3 := Some 48500%Q; d_quality_score := Some 80%Q |}
               (__init__ false)).2 in
  (active_signals (tracker s) !! example_id = Some 0
   ∧ heap (tracker s) !! 0 = Some example_metrics
   ∧ active_signals (tracker s') !! example_id = Some 0
   ∧ heap (tracker s') !! 0 = Some (mirror example_metrics)
   ∧ (direction example_metrics = "long"
      ∨ direction example_metrics = "short"))
  ∧ produced (update_signal_price example_world TelegramBot example_id
                (mirror_price example_metrics 50600) s').1
    = produced (update_signal_price example_world TelegramBot example_id
                  50600 s).1.
Proof.
  intros s s'.
  assert (Ha : active_signals (tracker s) !! example_id = Some 0)
    by (vm_compute; reflexivity).
  assert (Hl : heap (tracker s) !! 0 = Some example_metrics)
    by (vm_compute; reflexivity).
  assert (Ha' : active_signals (tracker s') !! example_id = Some 0)
    by (vm_compute; reflexivity).
  assert (Hl' : heap (tracker s') !! 0 = Some (mirror example_metrics))
    by (vm_compute; reflexivity).
  assert (Hd : direction example_metrics = "long"
               ∨ direction example_metrics = "short") by (by left).
  split; [done|].
  exact (proj1 (short_mirrors_long example_world TelegramBot example_id 50600
                  s s' 0 example_metrics Ha Hl Ha' Hl' eq_refl Hd)).
Defined.

(** ** Prices from the exchanges *)

Section ExchangePrices.

Context (float_of_str : string → option Q) (int_of_str : string → option Z).
Context (validate_price : Q → string → bool).

Lemma binance_price_positive a p :
  binance_price float_of_str a = Some p → (0 < p)%Q.
Proof.
  unfold binance_price. intros H.
  destruct a as [|[ticker|]]; try done.
  destruct (negb _); [|done].
  destruct (ticker !! "price") as [x|]; [|done].
  destruct (py_float float_of_str x) as [q|]; [|done].
  destruct (py_gt_spec q 0); [|done]. by injection H as <-.
Qed.

Lemma bybit_price_positive a p :
  bybit_price float_of_str a = Some p → (0 < p)%Q.
Proof.
  unfold bybit_price. intros H.
  destruct a as [|[ticker|]]; try done.
  destruct (negb _); [|done].
  destruct (py_float float_of_str _) as [q|]; [|done].
  destruct (py_gt_spec q 0); [|done]. by injection H as <-.
Qed.

Lemma get_current_price_positive bot sym p :
  _get_current_price float_of_str bot sym = Some p → (0 < p)%Q.
Proof.
  unfold _get_current_price. intros H.
  destruct bot as [b|]; [|done].
  destruct (binance_connector b) as [c|].
  - destruct (binance_price float_of_str (c sym)) as [q|] eqn:Hb.
    + injection H as <-. by eapply binance_price_positive.
    + destruct (bybit_connector b) as [c'|]; [|done].
      by eapply bybit_price_positive.
  - destruct (bybit_connector b) as [c'|]; [|done].
    by eapply bybit_price_positive.
Qed.

(** X11.  [_get_current_price] never hands out a price that is zero or
    negative: whatever the connectors answer, the result is [None] or a
    number above zero.  A usable price from the Binance connector wins
    over whatever Bybit says; and without a Bybit connector a price can
    only come from a Binance ticker that has the key "price". *)
Theorem current_price_is_positive_and_binance_first bot sym :
  (∀ p, _get_current_price float_of_str bot sym = Some p → (0 < p)%Q)
  ∧ (∀ b c p, bot = Some b → binance_connector b = Some c →
       binance_price float_of_str (c sym) = Some p →
       _get_current_price float_of_str bot sym = Some p)
  ∧ (∀ b, bot = Some b → bybit_connector b = None →
       ∀ p, _get_current_price float_of_str bot sym = Some p →
         ∃ c ticker x, binance_connector b = Some c
                       ∧ c sym = Answers (Some ticker)
                       ∧ ticker !! "price" = Some x
                       ∧ py_float float_of_str x = Some p).
Proof.
  split; [intros p; apply get_current_price_positive|]. split.
  - intros b c p -> Hc Hp. unfold _get_current_price. by rewrite Hc, Hp.
  - intros b -> Hby p. unfold _get_current_price. rewrite Hby.
    destruct (binance_connector b) as [c|]; [|done].
    destruct (binance_price float_of_str (c sym)) as [q|] eqn:Hb; [|done].
    intros [= ->]. unfold binance_price in Hb.
    destruct (c sym) as [|[ticker|]] eqn:Hc; try done.
    destruct (negb _); [|done].
    destruct (ticker !! "price") as [x|] eqn:Hx; [|done].
    destruct (py_float float_of_str x) as [q|] eqn:Hq; [|done].
    destruct (py_gt q 0); [|done]. injection Hb as <-.
    by exists c, ticker, x.
Qed.

(** The keys of the dictionary that [get_ticker] builds. *)
Lemma get_ticker_keys response sym ticker :
  get_ticker float_of_str int_of_str validate_price response sym
    = Some ticker →
  ticker !! "price" = None ∧ ticker !! "lastPrice" = None
  ∧ ∃ q, ticker !! "last_price" = Some (VNum q)
         ∧ validate_price q sym = true.
Proof.
  unfold get_ticker. intros H.
  destruct response as [|status body]; [done|].
  destruct (status =? 200)%Z; [|done].
  destruct body as [data|]; [|done]. cbn [mbind option_bind] in H.
  repeat match type of H with
         | context [(?x ≫= ?f)] =>
             let o := fresh "o" in
             destruct x as [o|]; cbn [mbind option_bind] in H; [|done]
         | match ?x with Some _ => _ | None => None end = _ =>
             destruct x; [|done]
         end.
  destruct (validate_price o0 sym) eqn:Hv; [|done]. injection H as <-.
  split; [|split].
  - reflexivity.
  - reflexivity.
  - exists o0. split; [reflexivity|done].
Qed.

(** X12.  The ticker that [EnhancedBinanceConnector.get_ticker] returns
    carries its price under "last_price" and has no key "price", which
    is the key [_get_current_price] asks a Binance ticker for.  So with
    this connector as the Binance connector of the bot, the Binance
    branch never yields a price: the result is what the Bybit branch
    alone gives, and [None] when there is no Bybit connector. *)
Theorem binance_ticker_is_never_used responses bybit sym :
  let binance symbol :=
    Answers (get_ticker float_of_str int_of_str validate_price
               (responses symbol) symbol) in
  _get_current_price float_of_str
    (Some {| binance_connector := Some binance; bybit_connector := bybit |})
    sym
  = _get_current_price float_of_str
      (Some {| binance_connector := None; bybit_connector := bybit |}) sym
  ∧ (bybit = None →
     _get_current_price float_of_str
       (Some {| binance_connector := Some binance;
                bybit_connector := bybit |}) sym = None).
Proof.
  intros binance.
  assert (Hb : binance_price float_of_str (binance sym) = None).
  { subst binance. cbn beta. unfold binance_price.
    destruct (get_ticker _ _ _ _ _) as [ticker|] eqn:Ht; [|done].
    destruct (get_ticker_keys _ _ _ Ht) as (-> & _).
    by destruct (negb _). }
  unfold _get_current_price.
  cbn [binance_connector bybit_connector]. rewrite Hb.
  split; [done|]. by intros ->.
Qed.

End ExchangePrices.

Lemma current_price_is_positive_and_binance_first_witness :
  _get_current_price example_float (example_bot 50600) "BTCUSDT"
    = Some 50600%Q
  ∧ (0 < 50600)%Q.
Proof.
  assert (H : _get_current_price example_float (example_bot 50600) "BTCUSDT"
              = Some 50600%Q) by reflexivity.
  split; [exact H|].
  exact (proj1 (current_price_is_positive_and_binance_first example_float
                  (example_bot 50600) "BTCUSDT") 50600%Q H).
Defined.

Lemma binance_ticker_is_never_used_witness :
  let response := HttpResponse 200 (Some example_body) in
  let accept (q : Q) (_ : string) := py_gt q 0 in
  let binance symbol :=
    Answers (get_ticker example_float example_int accept response symbol) in
  (∃ ticker,
     get_ticker example_float example_int accept response "BTCUSDT"
       = Some ticker
     ∧ ticker !! "last_price" = Some (VNum 50600))
  ∧ _get_current_price example_float
      (Some {| binance_connector := Some binance; bybit_connector := None |})
      "BTCUSDT" = None.
Proof.
  intros response accept binance. split.
  - eexists. split; [vm_compute; reflexivity|reflexivity].
  - exact (proj2 (binance_ticker_is_never_used example_float example_int
                    accept (λ _, response) None "BTCUSDT") eq_refl).
Defined.

(** ** Restart *)

(** One row that the loop keeps. *)
Lemma load_rows_keep w row entry rest s :
  row_entry_price row = Some entry → py_eq entry 0 = false →
  ∃ entered e1,
    load_rows w (row :: rest) s =
    load_rows w rest
      {| tracker :=
           {| heap := <[fresh (dom (heap (tracker s))) :=
                          row_metrics row entry entered]> (heap (tracker s));
              active_signals :=
                <[row_signal_id row := fresh (dom (heap (tracker s)))]>
                  (active_signals (tracker s));
              completed_signals := completed_signals (tracker s);
              telegram := telegram (tracker s) |};
         env := e1 |}
    ∧ trace e1 = trace (env s) ∧ db_attempts e1 = db_attempts (env s)
    ∧ (∀ t, row_timestamp row = Some t →
         entered = t ∧ clock_reads e1 = clock_reads (env s))
    ∧ (row_timestamp row = None →
         entered = clock w (clock_reads (env s))
         ∧ clock_reads e1 = S (clock_reads (env s))).
Proof.
  intros He Hz. cbn [load_rows]. rewrite He, Hz.
  destruct (row_timestamp row) as [t|].
  - exists t, (env s). split; [destruct s as [t0 e0]; reflexivity|].
    split; [done|]. split; [done|]. split; [|done].
    by intros ? [= <-].
  - exists (clock w (clock_reads (env s))),
      {| trace := trace (env s); clock_reads := S (clock_reads (env s));
         db_attempts := db_attempts (env s) |}.
    split; [|done]. destruct s as [t0 e0]. reflexivity.
Qed.

Lemma load_rows_skip w row rest s :
  skipped row = true → load_rows w (row :: rest) s = load_rows w rest s.
Proof.
  unfold skipped. intros H. cbn [load_rows].
  destruct (row_entry_price row) as [entry|]; [by rewrite H|done].
Qed.

Lemma skipped_false row :
  skipped row = false ↔
  ∃ entry, row_entry_price row = Some entry ∧ py_eq entry 0 = false.
Proof.
  unfold skipped. destruct (row_entry_price row) as [entry|].
  - split; [by exists entry|by intros (? & [= <-] & ?)].
  - split; [done|by intros (? & ? & ?)].
Qed.

(** What the loop over the rows leaves. *)
Lemma load_rows_spec w rows : ∀ s,
  let s' := (load_rows w rows s).2 in
  (load_rows w rows s).1 = Return tt
  ∧ completed_signals (tracker s') = completed_signals (tracker s)
  ∧ telegram (tracker s') = telegram (tracker s)
  ∧ trace (env s') = trace (env s)
  ∧ db_attempts (env s') = db_attempts (env s)
  ∧ heap (tracker s) ⊆ heap (tracker s')
  ∧ dom (active_signals (tracker s'))
    = dom (active_signals (tracker s))
      ∪ list_to_set (row_signal_id <$> List.filter (λ r, negb (skipped r)) rows)
  ∧ (∀ sid l, active_signals (tracker s') !! sid = Some l →
      active_signals (tracker s) !! sid = Some l
      ∨ (heap (tracker s) !! l = None
         ∧ ∃ row entry entered,
             row ∈ rows ∧ row_entry_price row = Some entry
             ∧ py_eq entry 0 = false ∧ row_signal_id row = sid
             ∧ heap (tracker s') !! l = Some (row_metrics row entry entered)
             ∧ ∀ t, row_timestamp row = Some t → entered = t))
  ∧ ∀ l m, heap (tracker s') !! l = Some m →
      heap (tracker s) !! l = Some m
      ∨ ∃ row entry entered,
          row ∈ rows ∧ row_entry_price row = Some entry
          ∧ py_eq entry 0 = false ∧ m = row_metrics row entry entered.
Proof.
  induction rows as [|row rest IH]; intros s s'.
  - subst s'. cbn. repeat split; try done.
    + by rewrite (right_id_L ∅ (∪)).
    + intros sid l H. by left.
    + intros l m H. by left.
  - destruct (skipped row) eqn:Hsk.
    + subst s'. rewrite load_rows_skip by done.
      destruct (IH s) as (H1 & H2 & H3 & H4 & H5 & H6 & H7 & H8 & H9).
      cbn [List.filter]. rewrite Hsk. cbn [negb].
      repeat (split; [done|]). split.
      * intros sid l Ha.
        destruct (H8 sid l Ha) as [?|(Hn & r & en & ed & Hin & Hr)];
          [by left|right]. split; [done|].
        exists r, en, ed. split; [by apply list_elem_of_further|done].
      * intros l m Hl.
        destruct (H9 l m Hl) as [?|(r & en & ed & Hin & Hr)];
          [by left|right].
        exists r, en, ed. split; [by apply list_elem_of_further|done].
    + apply skipped_false in Hsk as Hsk'. destruct Hsk' as (entry & He & Hz).
      destruct (load_rows_keep w row entry rest s He Hz)
        as (entered & e1 & Heq & Htr & Hdb & Hts & _).
      subst s'. rewrite Heq.
      set (l0 := fresh (dom (heap (tracker s)))) in *.
      set (s1 := {| tracker := _; env := e1 |}).
      assert (Hfresh : heap (tracker s) !! l0 = None)
        by (apply not_elem_of_dom, is_fresh).
      destruct (IH s1) as (H1 & H2 & H3 & H4 & H5 & H6 & H7 & H8 & H9).
      split; [done|]. split; [done|]. split; [done|].
      split; [by rewrite H4|]. split; [by rewrite H5|].
      split; [|split; [|split]].
      * etrans; [|exact H6]. cbn. by apply insert_subseteq.
      * rewrite H7. cbn [List.filter]. rewrite Hsk. cbn [negb].
        cbn [fmap list_fmap list_to_set tracker active_signals s1].
        rewrite dom_insert_L.
        rewrite (comm_L (∪) {[row_signal_id row]}
                   (dom (active_signals (tracker s)))).
        by rewrite (assoc_L (∪)).
      * intros sid l Ha.
        destruct (H8 sid l Ha) as [Ha1|(Hn & r & en & ed & Hin & Hr)].
        -- cbn in Ha1. destruct (decide (sid = row_signal_id row)) as [->|Hne].
           ++ rewrite lookup_insert_eq in Ha1. injection Ha1 as <-.
              right. split; [done|]. exists row, entry, entered.
              split; [apply list_elem_of_here|]. split; [done|].
              split; [done|]. split; [done|]. split.
              ** eapply lookup_weaken; [|exact H6]. cbn.
                 apply lookup_insert_eq.
              ** intros t Ht. by destruct (Hts t Ht).
           ++ rewrite lookup_insert_ne in Ha1 by done. by left.
        -- right. split.
           ++ cbn in Hn. destruct (decide (l = l0)) as [->|Hl];
                [done|by rewrite lookup_insert_ne in Hn].
           ++ exists r, en, ed. split; [by apply list_elem_of_further|done].
      * intros l m Hl.
        destruct (H9 l m Hl) as [Hl1|(r & en & ed & Hin & Hr)].
        -- cbn in Hl1. destruct (decide (l = l0)) as [->|Hne].
           ++ rewrite lookup_insert_eq in Hl1. injection Hl1 as <-.
              right. exists row, entry, entered.
              split; [apply list_elem_of_here|done].
           ++ rewrite lookup_insert_ne in Hl1 by done. by left.
        -- right. exists r, en, ed.
           split; [by apply list_elem_of_further|done].
Qed.

Lemma start_monitoring_state w answer s :
  (start_monitoring w answer s).2 = (_load_active_signals_from_db w answer s).2
  ∧ (start_monitoring w answer s).1
    = Return (dom (active_signals
                     (tracker (_load_active_signals_from_db w answer s).2))).
Proof.
  unfold start_monitoring, bind, read.
  destruct answer as [rows|]; cbn [_load_active_signals_from_db].
  - destruct (load_rows_spec w rows s) as (Hr & _).
    destruct (load_rows w rows s) as [r s1]. cbn in Hr. by subst r.
  - done.
Qed.

(** X13.  [start_monitoring] starts a monitor for every signal that was
    tracked before and for every row of the answer whose entry price is
    neither NULL nor zero; the rows without a usable entry price are
    passed over.  The archive is not touched, the objects that were
    there stay as they were, and no write to the database is attempted.
    When every row is passed over, or when the query fails, the tracker
    is what it was. *)
Theorem start_monitoring_tracks_rows_with_an_entry_price w rows s :
  let kept := List.filter (λ row, negb (skipped row)) rows in
  let ids : gset string :=
    dom (active_signals (tracker s)) ∪ list_to_set (row_signal_id <$> kept) in
  let r := start_monitoring w (Some rows) s in
  r.1 = Return ids
  ∧ dom (active_signals (tracker r.2)) = ids
  ∧ completed_signals (tracker r.2) = completed_signals (tracker s)
  ∧ heap (tracker s) ⊆ heap (tracker r.2)
  ∧ db_attempts (env r.2) = db_attempts (env s)
  ∧ (Forall (λ row, skipped row = true) rows → tracker r.2 = tracker s)
  ∧ (start_monitoring w None s).1 = Return (dom (active_signals (tracker s)))
  ∧ tracker (start_monitoring w None s).2 = tracker s.
Proof.
  intros kept ids r. subst r.
  destruct (start_monitoring_state w (Some rows) s) as [-> ->].
  cbn [_load_active_signals_from_db].
  destruct (load_rows_spec w rows s)
    as (_ & Hcompl & _ & _ & Hdb & Hsub & Hdom & _ & _).
  split; [by rewrite Hdom|]. split; [done|]. split; [done|].
  split; [done|]. split; [done|]. split; [|done].
  clear. induction 1 as [|row rest Hrow _ IH]; [done|].
  by rewrite load_rows_skip.
Qed.

(** X14.  A signal that [start_monitoring] files under an identifier is
    a fresh object made from one of the rows: its entry price is that
    of the row and not zero, its identifier is the symbol and the row
    number, and it starts with no flag set, no fill, a return of zero
    and a quality score of zero.  The flags and fills the signal had
    before the restart are not read back.  Every other active
    identifier leads where it led before. *)
Theorem loaded_signals_start_unfilled w rows s sid l :
  let s' := (start_monitoring w (Some rows) s).2 in
  active_signals (tracker s') !! sid = Some l →
  active_signals (tracker s) !! sid = Some l
  ∨ (heap (tracker s) !! l = None
     ∧ ∃ row entry m,
         row ∈ rows ∧ row_signal_id row = sid
         ∧ row_entry_price row = Some entry ∧ ¬ (entry == 0)%Q
         ∧ heap (tracker s') !! l = Some m
         ∧ signal_id m = sid ∧ entry_price m = entry
         ∧ stop_loss m = row_stop_loss row
         ∧ tp1 m = row_tp1 row ∧ tp2 m = row_tp2 row ∧ tp3 m = row_tp3 row
         ∧ (∀ lvl, hit m lvl = false)
         ∧ fills m = [] ∧ current_roi m = 0%Q ∧ quality_score m = 0%Q
         ∧ close_time m = None
         ∧ (∀ t, row_timestamp row = Some t → entry_time m = t)).
Proof.
  intros s'. subst s'.
  destruct (start_monitoring_state w (Some rows) s) as [-> _].
  cbn [_load_active_signals_from_db]. intros Ha.
  destruct (load_rows_spec w rows s) as (_ & _ & _ & _ & _ & _ & _ & Hact & _).
  destruct (Hact sid l Ha)
    as [Ha0|(Hnew & row & en & ed & Hin & He & Hz & Hid & Hl & Hts)];
    [by left|right].
  split; [done|]. exists row, en, (row_metrics row en ed).
  split; [done|]. split; [done|]. split; [done|].
  split; [by destruct (py_eq_spec en 0)|].
  split; [done|]. split; [done|]. split; [done|]. split; [done|].
  split; [done|]. split; [done|]. split; [done|].
  split; [by intros []|]. done.
Qed.

Lemma loaded_signals_start_unfilled_witness :
  let s' := (start_monitoring example_world (Some example_rows)
               (__init__ false)).2 in
  active_signals (tracker s') !! "BTCUSDT_7" = Some 0
  ∧ ∃ m, heap (tracker s') !! 0 = Some m
         ∧ entry_price m = 50000%Q ∧ fills m = []
         ∧ ∀ lvl, hit m lvl = false.
Proof.
  intros s'.
  assert (Ha : active_signals (tracker s') !! "BTCUSDT_7" = Some 0)
    by (vm_compute; reflexivity).
  split; [exact Ha|].
  destruct (loaded_signals_start_unfilled example_world example_rows
              (__init__ false) "BTCUSDT_7" 0 Ha)
    as [Hold|(_ & row & entry & m & _ & _ & He & _ & Hl & _ & Hentry & _ & _
              & _ & _ & Hhit & Hfills & _)];
    [vm_compute in Hold; discriminate|].
  exists m. split; [exact Hl|]. split; [|done].
  vm_compute in Hl. injection Hl as <-. reflexivity.
Defined.

(** ** Polling *)

Lemma wf_update w v sid p s :
  wf (tracker s) → wf (tracker (update_signal_price w v sid p s).2).
Proof.
  intros Hwf.
  destruct (active_signals (tracker s) !! sid) as [l|] eqn:Ha;
    [|by rewrite update_signal_price_inactive].
  destruct (Hwf sid l Ha) as (m & Hl & Hsid & Hst).
  destruct (update_signal_price_active w v sid p s l m Ha Hl Hsid)
    as (e' & -> & _). cbn [snd tracker].
  set (o := step_obj w v (clock_reads (env s)) m p).
  destruct (step_obj_static w v (clock_reads (env s)) m p)
    as (Hsid' & Hentry & Hstatus). fold o in Hsid', Hentry, Hstatus.
  intros sid' l' Ha'. cbn in Ha'. cbn [heap step_tracker].
  destruct (decide (sid' = sid)) as [->|Hne].
  - destruct (archived o) eqn:Harch;
      [by rewrite lookup_delete_eq in Ha'|].
    assert (l' = l) as -> by congruence.
    exists (object o). rewrite lookup_insert_eq.
    split; [done|]. split; [congruence|]. rewrite Hstatus; done.
  - assert (Ha'' : active_signals (tracker s) !! sid' = Some l').
    { destruct (archived o); [by rewrite lookup_delete_ne in Ha'|done]. }
    destruct (Hwf sid' l' Ha'') as (m' & Hl' & Hm').
    exists m'. split; [|done].
    rewrite lookup_insert_ne; [done|]. intros Heq. subst l'.
    destruct Hm' as [Hsid2 _]. congruence.
Qed.

Lemma step_obj_symbol w v n m p :
  symbol (object (step_obj w v n m p)) = symbol m.
Proof.
  destruct (step_obj_shape w v n m p)
    as [_ _ _ Ho _|lvl _ _ _ _ Ho _
       |lvl r _ _ _ _ _ Ho _|lvl r _ _ _ Ha _ Ho _].
  - by destruct Ho as [->|[r ->]].
  - destruct Ho as [->|[r ->]]; by destruct lvl.
  - rewrite Ho. by destruct lvl.
  - rewrite Ho. by destruct lvl.
Qed.

Lemma feed_inactive_state w v sid path s :
  active_signals (tracker s) !! sid = None →
  (feed w v sid path s).2 = s.
Proof. intros Ha. by rewrite feed_inactive. Qed.

(** The loop leaves at once when the identifier is not active. *)
Lemma monitor_inactive w fs sid polls s :
  active_signals (tracker s) !! sid = None →
  _monitor_signal w fs sid polls s = (Return Exited, s).
Proof.
  intros Ha. destruct polls; cbn [_monitor_signal];
    unfold bind, read; cbn; by rewrite Ha.
Qed.

Lemma monitor_nil w fs sid s l :
  active_signals (tracker s) !! sid = Some l →
  _monitor_signal w fs sid [] s = (Return Polling, s).
Proof.
  intros Ha. cbn [_monitor_signal]. unfold bind, read; cbn. by rewrite Ha.
Qed.

(** One turn of the loop: the poll, the sleep, and the loop again. *)
Lemma monitor_cons w fs sid bot rest s l m :
  active_signals (tracker s) !! sid = Some l →
  heap (tracker s) !! l = Some m →
  _monitor_signal w fs sid (bot :: rest) s =
  _monitor_signal w fs sid rest
    (emit (Sleep 15) (poll w fs sid bot (symbol m) s)).2.
Proof.
  intros Ha Hl. cbn [_monitor_signal].
  unfold bind at 1. unfold read at 1. cbn [tracker]. rewrite Ha.
  unfold bind at 1. unfold deref at 1. rewrite Hl.
  unfold bind at 1. unfold poll.
  destruct (_get_current_price fs bot (symbol m)) as [p|] eqn:Hp.
  - apply get_current_price_positive in Hp.
    assert (Hz : py_eq p 0 = false).
    { destruct (py_eq_spec p 0) as [H|]; [|done]. rewrite H in Hp.
      by apply Qlt_irrefl in Hp. }
    rewrite Hz. unfold catch, ret, emit. unfold bind at 1 2.
    by destruct (update_signal_price w TelegramBot sid p s) as [[ev|x] s1].
  - unfold catch, ret, emit. by unfold bind at 1.
Qed.

(** The loop of [_monitor_signal] and [feed] on the prices of the polls,
    from states with the same tracker and the same clock. *)
Lemma monitor_feed w fs sid l polls : ∀ s s0 m,
  tracker s = tracker s0 →
  clock_reads (env s) = clock_reads (env s0) →
  wf (tracker s) →
  active_signals (tracker s) !! sid = Some l →
  heap (tracker s) !! l = Some m →
  let prices := omap (λ bot, _get_current_price fs bot (symbol m)) polls in
  let r := _monitor_signal w fs sid polls s in
  tracker r.2 = tracker (feed w TelegramBot sid prices s0).2
  ∧ (r.1 = Return Exited
     ∧ active_signals (tracker r.2) !! sid = None
     ∨ r.1 = Return Polling
       ∧ is_Some (active_signals (tracker r.2) !! sid)).
Proof.
  induction polls as [|bot rest IH]; intros s s0 m Ht Hn Hwf Ha Hl prices r.
  - subst r prices. rewrite (monitor_nil w fs sid s l Ha). cbn.
    split; [done|]. right. by rewrite Ha.
  - subst r prices. rewrite (monitor_cons w fs sid bot rest s l m Ha Hl).
    cbn [omap list_omap]. unfold poll.
    destruct (_get_current_price fs bot (symbol m)) as [p|] eqn:Hp.
    + rewrite feed_cons. cbn [snd].
      assert (Ha0 : active_signals (tracker s0) !! sid = Some l)
        by (by rewrite <- Ht).
      assert (Hl0 : heap (tracker s0) !! l = Some m) by (by rewrite <- Ht).
      destruct (Hwf sid l Ha) as (m' & Hl' & Hsid & _).
      assert (m' = m) as -> by congruence.
      pose proof (wf_update w TelegramBot sid p s Hwf) as Hwf1.
      destruct (update_signal_price_active w TelegramBot sid p s l m
                  Ha Hl Hsid) as (e1 & Hu1 & Hn1).
      destruct (update_signal_price_active w TelegramBot sid p s0 l m
                  Ha0 Hl0 Hsid) as (e2 & Hu2 & Hn2).
      rewrite Hu1 in Hwf1 |- *. rewrite Hu2. cbn [snd tracker] in *.
      rewrite <- Hn, <- Ht. rewrite <- Hn in Hn2.
      set (o := step_obj w TelegramBot (clock_reads (env s)) m p) in *.
      set (s1 := (emit (Sleep 15)
                    {| tracker := step_tracker sid l o (tracker s);
                       env := e1 |}).2).
      set (s2 := {| tracker := step_tracker sid l o (tracker s);
                    env := e2 |}).
      assert (Ht1 : tracker s1 = tracker s2) by done.
      assert (Hc1 : clock_reads (env s1) = clock_reads (env s2))
        by (cbn; congruence).
      destruct (archived o) eqn:Harch.
      * assert (Hgone : active_signals (tracker s1) !! sid = None).
        { cbn. rewrite Harch. apply lookup_delete_eq. }
        rewrite monitor_inactive by done.
        rewrite feed_inactive_state by (by rewrite <- Ht1).
        split; [done|]. by left.
      * assert (Ha1 : active_signals (tracker s1) !! sid = Some l)
          by (cbn; by rewrite Harch).
        assert (Hl1 : heap (tracker s1) !! l = Some (object o))
          by (cbn; apply lookup_insert_eq).
        destruct (IH s1 s2 (object o) Ht1 Hc1 Hwf1 Ha1 Hl1) as [H1 H2].
        subst o. rewrite step_obj_symbol in H1. done.
    + set (s1 := (emit (Sleep 15) s).2).
      by apply (IH s1 s0 m).
Qed.

(** X15.  [stop_monitoring] drops the open signals without closing them:
    after it every price update is a no-op that returns [None], every
    monitor loop leaves at its next check, and the archive, the objects
    and the database are as they were; the dropped signals are not
    archived and nothing is written about them. *)
Theorem stop_monitoring_drops_open_signals w v float_of_str s :
  let s' := (stop_monitoring s).2 in
  (∀ sid price, update_signal_price w v sid price s' = (Return None, s'))
  ∧ (∀ sid polls,
       _monitor_signal w float_of_str sid polls s' = (Return Exited, s'))
  ∧ completed_signals (tracker s') = completed_signals (tracker s)
  ∧ heap (tracker s') = heap (tracker s)
  ∧ db_attempts (env s') = db_attempts (env s).
Proof.
  intros s'.
  split; [intros sid price; by apply update_signal_price_inactive|].
  split; [intros sid polls; by apply monitor_inactive|].
  done.
Qed.

(** X16.  The loop of [_monitor_signal] does to the tracker what the
    calls of [update_signal_price] on the polled prices do, one after
    the other: polls that yield no price are skipped, every price that
    is passed on is above zero, and an exception of a call does not end
    the loop.  The loop leaves exactly when the signal is no longer
    active; while the signal is active it goes on polling. *)
Theorem monitor_feeds_the_polled_prices w float_of_str sid l m polls s :
  wf (tracker s) →
  active_signals (tracker s) !! sid = Some l →
  heap (tracker s) !! l = Some m →
  let prices :=
    omap (λ bot, _get_current_price float_of_str bot (symbol m)) polls in
  let r := _monitor_signal w float_of_str sid polls s in
  tracker r.2 = tracker (feed w TelegramBot sid prices s).2
  ∧ Forall (λ p, 0 < p)%Q prices
  ∧ (r.1 = Return Exited ∧ active_signals (tracker r.2) !! sid = None
     ∨ r.1 = Return Polling
       ∧ is_Some (active_signals (tracker r.2) !! sid)).
Proof.
  intros Hwf Ha Hl prices r.
  destruct (monitor_feed w float_of_str sid l polls s s m
              eq_refl eq_refl Hwf Ha Hl) as [H1 H2].
  split; [done|]. split; [|done].
  subst prices. apply Forall_forall. intros p Hp.
  apply list_elem_of_omap in Hp as (bot & _ & Hp).
  by eapply get_current_price_positive.
Qed.

Lemma monitor_feeds_the_polled_prices_witness :
  let s := example_state TelegramBot in
  let polls :=
    [example_bot 50600; None; example_bot 48900; example_bot 52000] in
  let r := _monitor_signal example_world example_float example_id polls s in
  (wf (tracker s)
   ∧ active_signals (tracker s) !! example_id = Some 0
   ∧ heap (tracker s) !! 0 = Some example_metrics)
  ∧ tracker r.2
    = tracker (feed example_world TelegramBot example_id
                 [50600; 48900; 52000]%Q s).2
  ∧ r.1 = Return Exited.
Proof.
  intros s polls r.
  assert (Ha : active_signals (tracker s) !! example_id = Some 0)
    by (vm_compute; reflexivity).
  assert (Hl : heap (tracker s) !! 0 = Some example_metrics)
    by (vm_compute; reflexivity).
  split; [split; [apply example_state_wf|done]|].
  destruct (monitor_feeds_the_polled_prices example_world example_float
              example_id 0 example_metrics polls s
              (example_state_wf TelegramBot) Ha Hl) as (H1 & _ & _).
  split; [exact H1|]. vm_compute. reflexivity.
Defined.

(** ** The archive *)

Lemma keeps_ret {A} (a : A) : keeps (ret a).
Proof. done. Qed.

Lemma keeps_raise {A} x : keeps (@raise A x).
Proof. done. Qed.

Lemma keeps_bind {A B} (c : M A) (k : A → M B) :
  keeps c → (∀ a, keeps (k a)) → keeps (bind c k).
Proof.
  intros Hc Hk s. unfold bind. specialize (Hc s).
  destruct (c s) as [[a|x] s1]; cbn in *; [|done].
  by rewrite Hk.
Qed.

Lemma keeps_now w : keeps (now w).
Proof. done. Qed.

Lemma keeps_read {A} (f : Tracker → A) : keeps (read f).
Proof. done. Qed.

Lemma keeps_deref l : keeps (deref l).
Proof. intros s. unfold deref. by destruct (heap (tracker s) !! l). Qed.

Lemma keeps_deref_all ls : keeps (deref_all ls).
Proof.
  induction ls as [|l ls IH]; [apply keeps_ret|].
  cbn [deref_all]. apply keeps_bind; [apply keeps_deref|]. intros m.
  apply keeps_bind; [done|]. intros ms. apply keeps_ret.
Qed.

Lemma keeps_py_div x y : keeps (py_div x y).
Proof.
  unfold py_div. destruct (py_eq y 0); [apply keeps_raise|apply keeps_ret].
Qed.

Lemma keeps_cutoff w days : keeps (cutoff w days).
Proof.
  unfold cutoff. apply keeps_bind; [apply keeps_now|]. intros t.
  destruct (_ <? _)%Z; [apply keeps_raise|].
  destruct (_ || _); [apply keeps_raise|apply keeps_ret].
Qed.

(** [get_statistics] reads the tracker and leaves it as it is, also
    where it raises. *)
Lemma keeps_get_statistics w days : keeps (get_statistics w days).
Proof.
  unfold get_statistics.
  apply keeps_bind; [apply keeps_cutoff|]. intros c.
  apply keeps_bind; [apply keeps_read|]. intros refs.
  apply keeps_bind; [apply keeps_deref_all|]. intros objs.
  destruct (List.filter _ objs) as [|x xs]; [apply keeps_ret|].
  apply keeps_bind.
  { destruct (_ <? _)%nat; [|apply keeps_ret].
    apply keeps_bind; [apply keeps_py_div|]. intros q. apply keeps_ret. }
  intros wr. apply keeps_bind; [apply keeps_py_div|]. intros a.
  apply keeps_ret.
Qed.

Lemma extends_refl t : extends t t.
Proof. split; [done|]. done. Qed.

Lemma extends_trans t1 t2 t3 : extends t1 t2 → extends t2 t3 → extends t1 t3.
Proof.
  intros [Hp1 Hf1] [Hp2 Hf2]. split; [by etrans|].
  intros l Hl. rewrite Hf2, Hf1; [done..|].
  destruct Hp1 as [k ->]. apply elem_of_app. by left.
Qed.

Lemma sound_init tg : sound (tracker (__init__ tg)).
Proof.
  split; [|split].
  - split; [intros sid l Ha|intros l m Hl]; by cbn in *.
  - constructor.
  - intros l Hl. by apply elem_of_nil in Hl.
Qed.

Lemma sound_register w v d s :
  sound (tracker s) →
  sound (tracker (register_signal w v d s).2)
  ∧ extends (tracker s) (tracker (register_signal w v d s).2).
Proof.
  intros (Hinv & Hnd & Hc).
  pose proof (inv_register w v d s Hinv) as Hinv'.
  rewrite register_signal_spec in Hinv' |- *. cbn [snd tracker] in *.
  set (l0 := fresh (dom (heap (tracker s)))).
  assert (Hfresh : heap (tracker s) !! l0 = None)
    by (apply not_elem_of_dom, is_fresh).
  assert (Hframe : ∀ l, l ∈ completed_signals (tracker s) →
            heap (registered w d (clock_reads (env s)) (tracker s)) !! l
            = heap (tracker s) !! l).
  { intros l Hl. destruct (Hc l Hl) as (m & Hm & _). cbn. fold l0.
    rewrite lookup_insert_ne; [done|]. intros <-. congruence. }
  split; [split; [done|split; [done|]]|split; [done|done]].
  intros l Hl. cbn in Hl. rewrite Hframe by done. by apply Hc.
Qed.

(** A price update keeps the invariant: it archives a location at most
    once, what it archives is closed, and it does not touch what was
    archived before. *)
Lemma sound_update w v sid p s :
  sound (tracker s) →
  sound (tracker (update_signal_price w v sid p s).2)
  ∧ extends (tracker s) (tracker (update_signal_price w v sid p s).2).
Proof.
  intros (Hinv & Hnd & Hc).
  pose proof (inv_update w v sid p s Hinv) as Hinv'.
  destruct (active_signals (tracker s) !! sid) as [l|] eqn:Ha.
  2:{ rewrite update_signal_price_inactive in Hinv' |- * by done.
      split; [done|apply extends_refl]. }
  destruct Hinv as [Hwf Hok].
  destruct (Hwf sid l Ha) as (m & Hl & Hsid & Hst).
  destruct (update_signal_price_active w v sid p s l m Ha Hl Hsid)
    as (e' & Heq & _). rewrite Heq in Hinv' |- *. cbn [snd tracker] in *.
  set (o := step_obj w v (clock_reads (env s)) m p) in *.
  assert (Hnot : l ∉ completed_signals (tracker s)).
  { intros Hin. destruct (Hc l Hin) as (m' & Hm' & [[H|H] _]);
      rewrite Hl in Hm'; injection Hm' as <-; rewrite Hst in H; done. }
  assert (Hframe : ∀ l', l' ∈ completed_signals (tracker s) →
            heap (step_tracker sid l o (tracker s)) !! l'
            = heap (tracker s) !! l').
  { intros l' Hl'. cbn. rewrite lookup_insert_ne; [done|].
    intros <-. done. }
  split; [split; [done|split]|split].
  - cbn. destruct (archived o); [|done].
    apply NoDup_app. split; [done|]. split; [|apply NoDup_singleton].
    intros x Hx Hx'. apply list_elem_of_singleton in Hx'. by subst x.
  - intros l' Hl'. cbn [step_tracker completed_signals] in Hl'.
    destruct (archived o) eqn:Harch.
    + apply elem_of_app in Hl' as [Hl'|Hl'].
      * rewrite Hframe by done. by apply Hc.
      * apply list_elem_of_singleton in Hl' as ->.
        exists (object o). split; [cbn; apply lookup_insert_eq|].
        subst o.
        destruct (step_obj_shape w v (clock_reads (env s)) m p)
          as [_ Ha' _ _ _|lvl _ _ Ha' _ _ _
             |lvl r _ _ _ Ha' _ _ _|lvl r _ _ _ _ _ Ho _];
          [congruence..|].
        rewrite Ho. split; [|by eexists].
        destruct lvl; [left|left|left|right]; reflexivity.
    + rewrite Hframe by done. by apply Hc.
  - cbn. destruct (archived o); [by apply prefix_app_r|done].
  - done.
Qed.

Lemma sound_feed w v sid path : ∀ s,
  sound (tracker s) →
  sound (tracker (feed w v sid path s).2)
  ∧ extends (tracker s) (tracker (feed w v sid path s).2).
Proof.
  induction path as [|p path IH]; intros s Hs.
  - split; [done|apply extends_refl].
  - rewrite feed_cons. cbn [snd].
    destruct (sound_update w v sid p s Hs) as [Hs1 He1].
    destruct (IH _ Hs1) as [Hs2 He2].
    split; [done|by eapply extends_trans].
Qed.

Lemma sound_monitor w fs sid polls s :
  sound (tracker s) →
  sound (tracker (_monitor_signal w fs sid polls s).2)
  ∧ extends (tracker s) (tracker (_monitor_signal w fs sid polls s).2).
Proof.
  intros Hs.
  destruct (active_signals (tracker s) !! sid) as [l|] eqn:Ha.
  2:{ rewrite monitor_inactive by done. split; [done|apply extends_refl]. }
  assert (Hwf : wf (tracker s)) by (by destruct Hs as [[? _] _]).
  destruct (Hwf sid l Ha) as (m & Hl & _).
  destruct (monitor_feed w fs sid l polls s s m eq_refl eq_refl Hwf Ha Hl)
    as [-> _].
  by apply sound_feed.
Qed.

(** Rows with status "active" keep the invariant. *)
Lemma sound_load w rows s :
  Forall (λ row, row_status row = "active") rows →
  sound (tracker s) →
  sound (tracker (load_rows w rows s).2)
  ∧ extends (tracker s) (tracker (load_rows w rows s).2).
Proof.
  intros Hrows ([Hwf Hok] & Hnd & Hc).
  destruct (load_rows_spec w rows s)
    as (_ & Hcompl & _ & _ & _ & Hsub & _ & Hact & Hheap).
  rewrite Forall_forall in Hrows.
  assert (Hframe : ∀ l, l ∈ completed_signals (tracker s) →
            heap (tracker (load_rows w rows s).2) !! l
            = heap (tracker s) !! l).
  { intros l Hl. destruct (Hc l Hl) as (m & Hm & _). rewrite Hm.
    by eapply lookup_weaken. }
  split; [split; [split|split]|split].
  - intros sid l Ha.
    destruct (Hact sid l Ha)
      as [Ha0|(_ & row & en & ed & Hin & _ & _ & Hid & Hl & _)].
    + destruct (Hwf sid l Ha0) as (m & Hm & Hrest).
      exists m. split; [by eapply lookup_weaken|done].
    + eexists. split; [exact Hl|]. split; [done|]. cbn. by apply Hrows.
  - intros l m Hl Hz.
    destruct (Hheap l m Hl) as [Hl0|(row & en & ed & Hin & _ & _ & ->)].
    + by eapply Hok.
    + right. split; [left; cbn; by apply Hrows|]. reflexivity.
  - by rewrite Hcompl.
  - intros l Hl. rewrite Hcompl in Hl. rewrite Hframe by done. by apply Hc.
  - by rewrite Hcompl.
  - done.
Qed.

Lemma sound_stop s :
  sound (tracker s) →
  sound (tracker (stop_monitoring s).2)
  ∧ extends (tracker s) (tracker (stop_monitoring s).2).
Proof.
  intros ([Hwf Hok] & Hnd & Hc).
  split; [split; [split|split]|split]; done.
Qed.

(** The invariant holds along every sequence of calls. *)
Lemma evolves_sound w v s s' :
  sound (tracker s) → evolves w v s s' →
  sound (tracker s') ∧ extends (tracker s) (tracker s').
Proof.
  intros Hs. induction 1 as [|s' d _ [IH1 IH2]|s' sid p _ [IH1 IH2]
    |s' days _ [IH1 IH2]|s' rows _ Hrows _ [IH1 IH2]|s' _ _ [IH1 IH2]
    |s' fs sid polls _ _ [IH1 IH2]|s' _ _ [IH1 IH2]].
  - split; [done|apply extends_refl].
  - destruct (sound_register w v d s' IH1).
    split; [done|by eapply extends_trans].
  - destruct (sound_update w v sid p s' IH1).
    split; [done|by eapply extends_trans].
  - by rewrite keeps_get_statistics.
  - destruct (start_monitoring_state w (Some rows) s') as [-> _].
    destruct (sound_load w rows s' Hrows IH1).
    split; [done|by eapply extends_trans].
  - by destruct (start_monitoring_state w None s') as [-> _].
  - destruct (sound_monitor w fs sid polls s' IH1).
    split; [done|by eapply extends_trans].
  - destruct (sound_stop s' IH1).
    split; [done|by eapply extends_trans].
Qed.



(** X18.  [get_statistics] never fails on the archive: in every state
    that calls of the public methods lead to from a new tracker, and
    for every window that [timedelta] and [datetime] can hold, it
    returns a dictionary whose number of signals lies between zero and
    the size of the archive.  Every reference of the archive leads to
    an object, and the division by the number of signals is made only
    when there is one. *)
Theorem statistics_return_on_every_state w v tg s days :
  evolves w v (__init__ tg) s →
  (Z.abs days ≤ timedelta_max_days)%Z →
  (datetime_min
   ≤ clock w (clock_reads (env s)) - days * microseconds_per_day
   ≤ datetime_max)%Z →
  ∃ stats n,
    (get_statistics w days s).1 = Return stats
    ∧ stats !! "total_signals" = Some (PyInt n)
    ∧ (0 ≤ n ≤ Z.of_nat (length (completed_signals (tracker s))))%Z.
Proof.
  intros H0 Hdays Hrange.
  destruct (evolves_sound w v _ _ (sound_init tg) H0) as [(_ & _ & Hc) _].
  assert (Hobjs : ∃ objs,
            mapM (λ l, heap (tracker s) !! l) (completed_signals (tracker s))
            = Some objs).
  { apply mapM_is_Some. apply Forall_forall. intros l Hl.
    destruct (Hc l Hl) as (m & Hm & _). by exists m. }
  destruct Hobjs as [objs Hobjs].
  pose proof (length_mapM _ _ _ Hobjs) as Hlen.
  destruct s as [t e]. cbn [tracker env] in *.
  destruct (runs_get_statistics w days objs t (clock_reads e)
              Hobjs Hdays Hrange e eq_refl) as (e' & _ & ->).
  cbn [fst].
  set (recent := List.filter _ objs).
  assert (Hle : length recent ≤ length objs) by apply filter_length_le.
  destruct recent as [|x xs] eqn:Hrec.
  - exists empty_statistics, 0%Z. split; [done|]. split; [done|]. lia.
  - eexists _, _. split; [done|]. split; [reflexivity|]. lia.
Qed.

Lemma statistics_return_on_every_state_witness :
  let s := (update_signal_price example_world TelegramBot example_id 52000
              (example_state TelegramBot)).2 in
  (evolves example_world TelegramBot (__init__ false) s
   ∧ (Z.abs 30 ≤ timedelta_max_days)%Z
   ∧ (datetime_min
      ≤ clock example_world (clock_reads (env s)) - 30 * microseconds_per_day
      ≤ datetime_max)%Z)
  ∧ ∃ stats, (get_statistics example_world 30 s).1 = Return stats.
Proof.
  intros s.
  assert (H0 : evolves example_world TelegramBot (__init__ false) s)
    by (apply evolves_update, evolves_register, evolves_refl).
  assert (Hdays : (Z.abs 30 ≤ timedelta_max_days)%Z)
    by (intros H; vm_compute in H; discriminate).
  assert (Hc : (datetime_min
                ≤ clock example_world (clock_reads (env s))
                  - 30 * microseconds_per_day ≤ datetime_max)%Z)
    by (split; intros H; vm_compute in H; discriminate).
  split; [done|].
  destruct (statistics_return_on_every_state example_world TelegramBot false
              s 30 H0 Hdays Hc) as (stats & n & Hret & _).
  by exists stats.
Defined.

(** ** Flags and fills *)

Lemma ledger_ok_ext m m' :
  fills m' = fills m → (∀ lvl, hit m' lvl = hit m lvl) →
  ledger_ok m → ledger_ok m'.
Proof.
  intros Hf Hh (lvls & Hl & Hnd & Hiff). exists lvls.
  rewrite Hf. split; [done|]. split; [done|].
  intros lvl. by rewrite Hh.
Qed.

Lemma ledger_ok_filled m lvl p t :
  hit m lvl = false → ledger_ok m → ledger_ok (filled m lvl p t).
Proof.
  intros Hhit (lvls & Hl & Hnd & Hiff). exists (lvls ++ [lvl]).
  split; [|split].
  - unfold filled. cbn [fills append_fill]. rewrite !fmap_app.
    assert (Hf : fills (set_hit lvl m) = fills m) by (by destruct lvl).
    rewrite Hf, Hl. by destruct lvl.
  - apply NoDup_app. split; [done|].
    split; [|apply NoDup_singleton].
    intros x Hx Hx'. apply list_elem_of_singleton in Hx'. subst x.
    apply Hiff in Hx. congruence.
  - intros lvl'. rewrite hit_filled, elem_of_app, list_elem_of_singleton.
    by rewrite orb_true_iff, bool_decide_eq_true, Hiff.
Qed.

Lemma ledger_ok_step w v n m p :
  ¬ (entry_price m == 0)%Q → ledger_ok m →
  ledger_ok (object (step_obj w v n m p)).
Proof.
  intros Hz Hok.
  destruct (step_obj_shape w v n m p)
    as [_ _ _ Ho _|lvl _ Hz' _ _ _ _
       |lvl r Hev _ _ _ _ Ho _|lvl r Hev _ _ _ _ Ho _].
  - by destruct Ho as [->|[r ->]].
  - by destruct (py_eq_spec (entry_price m) 0).
  - rewrite Ho.
    apply (ledger_ok_ext (filled m lvl p (clock w n))); [done|done|].
    apply ledger_ok_filled; [by eapply evaluate_not_hit|done].
  - rewrite Ho.
    apply (ledger_ok_ext (filled m lvl p (clock w n))); [done|done|].
    apply ledger_ok_filled; [by eapply evaluate_not_hit|done].
Qed.

Lemma ledger_update w v sid p s :
  wf (tracker s) → ledger (tracker s) →
  ledger (tracker (update_signal_price w v sid p s).2).
Proof.
  intros Hwf Hled.
  destruct (active_signals (tracker s) !! sid) as [l|] eqn:Ha;
    [|by rewrite update_signal_price_inactive].
  destruct (Hwf sid l Ha) as (m & Hl & Hsid & _).
  destruct (update_signal_price_active w v sid p s l m Ha Hl Hsid)
    as (e' & -> & _). cbn [snd tracker].
  intros l' m' Hl' Hz. cbn in Hl'.
  destruct (decide (l' = l)) as [->|Hne].
  - rewrite lookup_insert_eq in Hl'. injection Hl' as <-.
    destruct (step_obj_static w v (clock_reads (env s)) m p)
      as (_ & Hentry & _). rewrite Hentry in Hz.
    apply ledger_ok_step; [done|]. by eapply Hled.
  - rewrite lookup_insert_ne in Hl' by done. by eapply Hled.
Qed.

Lemma ledger_feed w v sid path : ∀ s,
  wf (tracker s) → ledger (tracker s) →
  ledger (tracker (feed w v sid path s).2).
Proof.
  induction path as [|p path IH]; intros s Hwf Hled; [done|].
  rewrite feed_cons. cbn [snd].
  apply IH; [by apply wf_update|by apply ledger_update].
Qed.

Lemma ledger_ok_new m :
  fills m = [] → (∀ lvl, hit m lvl = false) → ledger_ok m.
Proof.
  intros Hf Hh. exists []. rewrite Hf. split; [done|].
  split; [constructor|].
  intros lvl. rewrite Hh. split; [done|]. intros H. by apply elem_of_nil in H.
Qed.

Lemma ledger_init tg : ledger (tracker (__init__ tg)).
Proof. intros l m Hl. by cbn in Hl. Qed.

Lemma evolves_ledger w v s s' :
  sound (tracker s) → ledger (tracker s) → evolves w v s s' →
  ledger (tracker s').
Proof.
  intros Hs Hled.
  induction 1 as [|s' d Hev IH|s' sid p Hev IH
    |s' days Hev IH|s' rows _ Hrows Hev IH|s' _ Hev IH
    |s' fs sid polls _ Hev IH|s' _ Hev IH].
  - done.
  - rewrite register_signal_spec. cbn [snd tracker].
    intros l m Hl Hz. cbn in Hl.
    destruct (decide (l = fresh (dom (heap (tracker s'))))) as [->|Hne].
    + rewrite lookup_insert_eq in Hl. injection Hl as <-.
      apply ledger_ok_new; [done|by intros []].
    + rewrite lookup_insert_ne in Hl by done. by eapply IH.
  - destruct (evolves_sound w v s s' Hs Hev) as [[[Hwf _] _] _].
    by apply ledger_update.
  - by rewrite keeps_get_statistics.
  - destruct (start_monitoring_state w (Some rows) s') as [-> _].
    cbn [_load_active_signals_from_db].
    destruct (load_rows_spec w rows s')
      as (_ & _ & _ & _ & _ & _ & _ & _ & Hheap).
    intros l m Hl Hz.
    destruct (Hheap l m Hl) as [Hl0|(row & en & ed & _ & _ & _ & ->)];
      [by eapply IH|].
    apply ledger_ok_new; [done|by intros []].
  - by destruct (start_monitoring_state w None s') as [-> _].
  - destruct (evolves_sound w v s s' Hs Hev) as [[[Hwf _] _] _].
    destruct (active_signals (tracker s') !! sid) as [l|] eqn:Ha;
      [|by rewrite monitor_inactive].
    destruct (Hwf sid l Ha) as (m & Hl & _).
    destruct (monitor_feed w fs sid l polls s' s' m eq_refl eq_refl Hwf Ha Hl)
      as [-> _].
    by apply ledger_feed.
  - done.
Qed.

(** X19.  The fills of a signal and its flags always tell the same.  In
    every state that calls of the public methods lead to from a new
    tracker, a signal with an entry price other than zero has exactly
    one fill for every level whose flag is set and no other fill: no
    level is filled twice, and there are at most four fills. *)
Theorem fills_match_the_flags w v tg s l m :
  evolves w v (__init__ tg) s →
  heap (tracker s) !! l = Some m →
  ¬ (entry_price m == 0)%Q →
  ∃ lvls,
    fill_level <$> fills m = level_name <$> lvls
    ∧ NoDup lvls
    ∧ (∀ lvl, hit m lvl = true ↔ lvl ∈ lvls)
    ∧ length (fills m) ≤ 4.
Proof.
  intros Hev Hl Hz.
  destruct (evolves_ledger w v _ _ (sound_init tg) (ledger_init tg) Hev
              l m Hl Hz) as (lvls & Hf & Hnd & Hiff).
  exists lvls. split; [done|]. split; [done|]. split; [done|].
  rewrite <- (length_fmap fill_level), Hf, length_fmap.
  apply (submseteq_length lvls [TP1; TP2; TP3; STOP]).
  apply NoDup_submseteq; [done|].
  intros x _. rewrite !elem_of_cons. destruct x; tauto.
Qed.

Lemma fills_match_the_flags_witness :
  let s := (update_signal_price example_world TelegramBot example_id 50600
              (update_signal_price example_world TelegramBot example_id 51200
                 (example_state TelegramBot)).2).2 in
  ∃ m, (evolves example_world TelegramBot (__init__ false) s
        ∧ heap (tracker s) !! 0 = Some m
        ∧ ¬ (entry_price m == 0)%Q)
       ∧ fill_level <$> fills m = ["tp2"; "tp1"]
       ∧ ∃ lvls, fill_level <$> fills m = level_name <$> lvls ∧ NoDup lvls.
Proof.
  intros s.
  assert (H0 : evolves example_world TelegramBot (__init__ false) s)
    by (apply evolves_update, evolves_update, evolves_register, evolves_refl).
  destruct (heap (tracker s) !! 0) as [m|] eqn:Hl;
    [|vm_compute in Hl; discriminate].
  assert (Hm : entry_price m = 50000%Q
               ∧ fill_level <$> fills m = ["tp2"; "tp1"])
    by (vm_compute in Hl; injection Hl as <-; done).
  destruct Hm as [Hentry Hfills].
  assert (Hz : ¬ (entry_price m == 0)%Q)
    by (rewrite Hentry; intros H; vm_compute in H; discriminate).
  exists m. split; [done|]. split; [exact Hfills|].
  destruct (fills_match_the_flags example_world TelegramBot false s 0 m
              H0 Hl Hz) as (lvls & Hf & Hnd & _).
  by exists lvls.
Defined.

(** ** Telegram messages *)

Section Says.

Context (w : World).

Lemma says_ret {A} (a : A) t n : says (ret a) t n [].
Proof. intros e _. cbn. by rewrite app_nil_r. Qed.

Lemma says_raise {A} x t n : says (@raise A x) t n [].
Proof. intros e _. cbn. by rewrite app_nil_r. Qed.

Lemma says_bind {A B} (c : M A) (k : A → M B) t n a t1 n1 out1 out2 :
  runs c t n (Return a) t1 n1 → says c t n out1 → says (k a) t1 n1 out2 →
  says (bind c k) t n (out1 ++ out2).
Proof.
  intros Hr Hc Hk e He. specialize (Hc e He).
  destruct (Hr e He) as (e1 & He1 & Hrun). unfold bind. rewrite Hrun in Hc |- *.
  cbn in Hc. rewrite (Hk e1 He1), Hc. by rewrite app_assoc.
Qed.

Lemma says_bind_raise {A B} (c : M A) (k : A → M B) t n x t1 n1 out :
  runs c t n (Raise x) t1 n1 → says c t n out → says (bind c k) t n out.
Proof.
  intros Hr Hc e He. specialize (Hc e He).
  destruct (Hr e He) as (e1 & He1 & Hrun). unfold bind.
  by rewrite Hrun in Hc |- *.
Qed.

(** A computation that leaves the environment alone. *)
Lemma says_silent {A} (c : M A) t n :
  (∀ e, env (c {| tracker := t; env := e |}).2 = e) → says c t n [].
Proof. intros H e _. by rewrite H, app_nil_r. Qed.

Lemma says_deref l t n : says (deref l) t n [].
Proof.
  apply says_silent. intros e. unfold deref. cbn. by destruct (heap t !! l).
Qed.

Lemma says_assign l f t n : says (assign l f) t n [].
Proof.
  apply says_silent. intros e. unfold assign. cbn. by destruct (heap t !! l).
Qed.

Lemma says_read {A} (f : Tracker → A) t n : says (read f) t n [].
Proof. by apply says_silent. Qed.

Lemma says_write f t n : says (write f) t n [].
Proof. by apply says_silent. Qed.

Lemma says_del_active key t n : says (del_active key) t n [].
Proof.
  apply says_silent. intros e. unfold del_active, bind, read. cbn.
  by destruct (active_signals t !! key).
Qed.

Lemma says_now t n : says (now w) t n [].
Proof. intros e _. cbn. by rewrite app_nil_r. Qed.

Lemma says_log lvl msg t n : says (log lvl msg) t n [].
Proof.
  intros e _. cbn. unfold alerts. rewrite omap_app. cbn.
  reflexivity.
Qed.

Lemma says_sleep d t n : says (emit (Sleep d)) t n [].
Proof. intros e _. cbn. unfold alerts. by rewrite omap_app. Qed.

Lemma says_commit stmt t n : says (emit (SqlCommit stmt)) t n [].
Proof. intros e _. cbn. unfold alerts. by rewrite omap_app. Qed.

Lemma says_alert a t n : says (emit (TelegramAlert a)) t n [a].
Proof. intros e _. cbn. unfold alerts. by rewrite omap_app. Qed.

Lemma says_percent_return m price t n : says (percent_return m price) t n [].
Proof.
  apply says_silent. intros e. unfold percent_return, py_div, bind.
  by destruct (decide _), (py_eq _ _).
Qed.

Lemma alerts_snoc tr x :
  alerts (tr ++ [x])
  = alerts tr ++ match alert_of x with Some a => [a] | None => [] end.
Proof. unfold alerts. rewrite omap_app. cbn. by destruct (alert_of x). Qed.

Lemma says_update_attempts v l final atts t n :
  says (update_attempts w v l final atts) t n [].
Proof.
  induction atts as [|a atts IH]; intros e He; cbn [update_attempts].
  - cbn. by rewrite app_nil_r.
  - unfold bind at 1, deref; cbn.
    destruct (heap t !! l) as [m|]; cbn; [|by rewrite app_nil_r].
    destruct (db_outcome _ _); cbn.
    + by rewrite alerts_snoc.
    + destruct (_ && _); cbn; [|by rewrite alerts_snoc].
      unfold with_env; cbn [tracker env trace clock_reads db_attempts].
      rewrite IH by done. cbn [trace].
      by rewrite !alerts_snoc, !app_nil_r.
    + by rewrite alerts_snoc.
Qed.

Lemma says_update_signal_in_db v l final t n :
  says (_update_signal_in_db w v l final) t n [].
Proof.
  unfold _update_signal_in_db. destruct v; [|apply says_update_attempts].
  intros e He. unfold bind, deref; cbn.
  destruct (heap t !! l) as [m|]; cbn; [|by rewrite app_nil_r].
  destruct (db_outcome _ _); cbn; by rewrite alerts_snoc.
Qed.

Lemma says_send_tp_notification l lvl price pp m t n :
  heap t !! l = Some m → lvl ≠ STOP →
  says (_send_tp_notification l (level_name lvl) price pp) t n
    (if telegram t then [alert_with m lvl price pp] else []).
Proof.
  intros Hl Hlvl e He. unfold _send_tp_notification, bind, read, deref; cbn.
  destruct (telegram t); cbn; [|by rewrite app_nil_r]. rewrite Hl; cbn.
  rewrite !alerts_snoc. cbn. rewrite app_nil_r. f_equal.
  by destruct lvl.
Qed.

Lemma says_send_stop_notification l price lp m t n :
  heap t !! l = Some m →
  says (_send_stop_notification l price lp) t n
    (if telegram t then [alert_with m STOP price lp] else []).
Proof.
  intros Hl e He. unfold _send_stop_notification, bind, read, deref; cbn.
  destruct (telegram t); cbn; [|by rewrite app_nil_r]. rewrite Hl; cbn.
  rewrite !alerts_snoc. cbn. by rewrite app_nil_r.
Qed.

Lemma says_eq {A} (c : M A) t n out out' :
  says c t n out → out = out' → says c t n out'.
Proof. by intros H <-. Qed.

Lemma says_close_signal v l st m x t n :
  heap t !! l = Some m → active_signals t !! signal_id m = Some x →
  says (_close_signal w v l st) t n [].
Proof.
  intros Hl Ha. unfold _close_signal.
  eapply says_eq.
  { eapply says_bind; [by eapply runs_assign|apply says_assign|].
    eapply says_bind; [apply runs_now|apply says_now|].
    eapply says_bind;
      [eapply runs_assign; cbn; apply lookup_insert_eq|apply says_assign|].
    eapply says_bind;
      [eapply runs_deref; cbn; apply lookup_insert_eq|apply says_deref|].
    eapply says_bind;
      [eapply runs_assign; cbn; apply lookup_insert_eq|apply says_assign|].
    eapply says_bind; [apply runs_write|apply says_write|].
    eapply says_bind;
      [eapply runs_del_active; cbn; exact Ha|apply says_del_active|].
    eapply says_bind;
      [eapply runs_update_signal_in_db; cbn; apply lookup_insert_eq
      |apply says_update_signal_in_db|].
    apply says_log. }
  done.
Qed.

Lemma says_handle_tp_hit v l lvl price m x t n :
  heap t !! l = Some m → active_signals t !! signal_id m = Some x →
  lvl ≠ STOP →
  says (_handle_tp_hit w v l (level_name lvl) price) t n
    (handle_alerts t m lvl price).
Proof.
  intros Hl Ha Hlvl. unfold _handle_tp_hit, handle_alerts.
  destruct (py_eq (entry_price m) 0) eqn:Hz;
    [destruct (zero_entry_guard v) eqn:Hg|].
  - eapply says_eq.
    { eapply says_bind; [by eapply runs_deref|apply says_deref|]. cbv beta.
      rewrite Hz. cbn [andb].
      eapply says_bind; [apply runs_log|apply says_log|apply says_ret]. }
    done.
  - eapply says_eq.
    { eapply says_bind; [by eapply runs_deref|apply says_deref|]. cbv beta.
      rewrite Hz. cbn [andb].
      eapply says_bind_raise; [|apply says_percent_return].
      generalize (runs_percent_return m price t n). by rewrite Hz. }
    done.
  - eapply says_eq.
    { eapply says_bind; [by eapply runs_deref|apply says_deref|]. cbv beta.
      rewrite Hz, andb_false_r.
      eapply says_bind; [|apply says_percent_return|].
      { generalize (runs_percent_return m price t n). rewrite Hz. done. }
      cbv beta zeta.
      eapply says_bind; [apply runs_now|apply says_now|].
      eapply says_bind; [by eapply runs_assign|apply says_assign|].
      eapply says_bind; [apply runs_log|apply says_log|].
      eapply says_bind;
        [eapply runs_send_tp_notification; cbn; apply lookup_insert_eq
        |eapply says_send_tp_notification;
           [cbn; apply lookup_insert_eq|exact Hlvl]|].
      eapply says_bind;
        [eapply runs_deref; cbn; apply lookup_insert_eq|apply says_deref|].
      cbv beta.
      destruct (bool_decide _ || _).
      + eapply says_bind; [|eapply says_close_signal|apply says_ret].
        * eapply runs_close_signal; cbn; [apply lookup_insert_eq|exact Ha].
        * cbn. apply lookup_insert_eq.
        * cbn. exact Ha.
      + eapply says_bind; [apply runs_ret|apply says_ret|apply says_ret]. }
    cbn [telegram with_heap app]. destruct (telegram t); [|done].
    cbn. f_equal. by destruct lvl.
Qed.

Lemma says_handle_sl_hit v l price m x t n :
  heap t !! l = Some m → active_signals t !! signal_id m = Some x →
  says (_handle_sl_hit w v l price) t n (handle_alerts t m STOP price).
Proof.
  intros Hl Ha. unfold _handle_sl_hit, handle_alerts.
  destruct (py_eq (entry_price m) 0) eqn:Hz;
    [destruct (zero_entry_guard v) eqn:Hg|].
  - eapply says_eq.
    { eapply says_bind; [by eapply runs_deref|apply says_deref|]. cbv beta.
      rewrite Hz. cbn [andb].
      eapply says_bind; [apply runs_log|apply says_log|apply says_ret]. }
    done.
  - eapply says_eq.
    { eapply says_bind; [by eapply runs_deref|apply says_deref|]. cbv beta.
      rewrite Hz. cbn [andb].
      eapply says_bind_raise; [|apply says_percent_return].
      generalize (runs_percent_return m price t n). by rewrite Hz. }
    done.
  - eapply says_eq.
    { eapply says_bind; [by eapply runs_deref|apply says_deref|]. cbv beta.
      rewrite Hz, andb_false_r.
      eapply says_bind; [|apply says_percent_return|].
      { generalize (runs_percent_return m price t n). rewrite Hz. done. }
      cbv beta zeta.
      eapply says_bind; [apply runs_now|apply says_now|].
      eapply says_bind; [by eapply runs_assign|apply says_assign|].
      eapply says_bind; [apply runs_log|apply says_log|].
      eapply says_bind;
        [eapply runs_send_stop_notification; cbn; apply lookup_insert_eq
        |eapply says_send_stop_notification; cbn; apply lookup_insert_eq|].
      eapply says_bind; [|eapply says_close_signal|apply says_ret].
      + eapply runs_close_signal; cbn; [apply lookup_insert_eq|exact Ha].
      + cbn. apply lookup_insert_eq.
      + cbn. exact Ha. }
    cbn [telegram with_heap app]. by destruct (telegram t).
Qed.

Lemma says_calculate_current_roi v l price m t n :
  heap t !! l = Some m → says (_calculate_current_roi v l price) t n [].
Proof.
  intros Hl. unfold _calculate_current_roi.
  destruct (py_gt (1 - closed_percent m) 0) eqn:Hgt;
    [destruct (py_eq (entry_price m) 0) eqn:Hz;
       [destruct (zero_entry_guard v) eqn:Hg|]|].
  - eapply says_eq.
    { eapply says_bind; [by eapply runs_deref|apply says_deref|]. cbv beta.
      rewrite Hgt, Hz. cbn [andb].
      eapply says_bind; [apply runs_log|apply says_log|apply says_ret]. }
    done.
  - eapply says_eq.
    { eapply says_bind; [by eapply runs_deref|apply says_deref|]. cbv beta.
      rewrite Hgt, Hz. cbn [andb].
      eapply says_bind_raise; [|apply says_percent_return].
      generalize (runs_percent_return m price t n). by rewrite Hz. }
    done.
  - eapply says_eq.
    { eapply says_bind; [by eapply runs_deref|apply says_deref|]. cbv beta.
      rewrite Hgt, Hz, andb_false_r.
      eapply says_bind; [|apply says_percent_return|apply says_ret].
      generalize (runs_percent_return m price t n). by rewrite Hz. }
    done.
  - eapply says_eq.
    { eapply says_bind; [by eapply runs_deref|apply says_deref|]. cbv beta.
      rewrite Hgt. apply says_ret. }
    done.
Qed.

Lemma says_bind_ret {A B} (c : M A) (f : A → B) t n out :
  says c t n out → says (let* a := c in ret (f a)) t n out.
Proof.
  intros Hc e He. specialize (Hc e He). unfold bind.
  by destruct (c _) as [[a|x] s'].
Qed.

Lemma says_bind_silent {A B} (c : M A) (k : A → M B) t n a t1 n1 out :
  runs c t n (Return a) t1 n1 → says c t n [] → says (k a) t1 n1 out →
  says (bind c k) t n out.
Proof. intros Hr Hc Hk. by apply (says_bind c k t n a t1 n1 [] out). Qed.

Lemma says_bind_last {A B} (c : M A) (k : A → M B) t n r t1 n1 out :
  runs c t n r t1 n1 → says c t n out →
  (∀ a, r = Return a → says (k a) t1 n1 []) →
  says (bind c k) t n out.
Proof.
  intros Hr Hc Hk. destruct r as [a|x].
  - eapply says_eq; [eapply says_bind; [exact Hr|exact Hc|by apply Hk]|].
    apply app_nil_r.
  - by eapply says_bind_raise.
Qed.

Lemma handle_alerts_set_hit t m lvl price :
  handle_alerts t (set_hit lvl m) lvl price = handle_alerts t m lvl price.
Proof. by destruct lvl. Qed.

Lemma says_fire v sid l m lvl price t n :
  active_signals t !! sid = Some l → heap t !! l = Some m →
  signal_id m = sid →
  says (assign l (set_hit lvl) ;;;
        let* e := match lvl with
                  | STOP => _handle_sl_hit w v l price
                  | _ => _handle_tp_hit w v l (level_name lvl) price
                  end in
        ret (Some e)) t n (handle_alerts t m lvl price).
Proof.
  intros Ha Hl Hsid.
  assert (Hsid' : signal_id (set_hit lvl m) = sid) by by destruct lvl.
  eapply says_bind_silent; [by eapply runs_assign|apply says_assign|].
  cbv beta. apply says_bind_ret.
  rewrite <- (handle_alerts_set_hit _ m lvl).
  change (handle_alerts t (set_hit lvl m) lvl price)
    with (handle_alerts (with_heap (<[l:=set_hit lvl m]> (heap t)) t)
            (set_hit lvl m) lvl price).
  destruct lvl.
  1-3: eapply says_handle_tp_hit; cbn [heap with_heap active_signals];
    [apply lookup_insert_eq|rewrite Hsid'; exact Ha|done].
  eapply says_handle_sl_hit; cbn [heap with_heap active_signals];
    [apply lookup_insert_eq|rewrite Hsid'; exact Ha].
Qed.

Lemma says_finish v l price m (ev : option Event) t n :
  heap t !! l = Some m →
  says (let* r := _calculate_current_roi v l price in
        assign l (set_current_roi r) ;;;
        _update_signal_in_db w v l false ;;;
        ret ev) t n [].
Proof.
  intros Hl.
  eapply says_bind_last;
    [by apply runs_calculate_current_roi
    |by eapply says_calculate_current_roi|].
  intros r _.
  eapply says_bind_silent; [by eapply runs_assign|apply says_assign|].
  eapply says_bind_silent;
    [eapply runs_update_signal_in_db; cbn; apply lookup_insert_eq
    |eapply says_update_signal_in_db|apply says_ret].
Qed.

Lemma says_update_signal_price v sid price l m t n :
  active_signals t !! sid = Some l → heap t !! l = Some m →
  signal_id m = sid →
  says (update_signal_price w v sid price) t n (update_alerts t m price).
Proof.
  intros Ha Hl Hsid.
  set (o := match evaluate m price with
            | None => {| result := Return None; object := m;
                         archived := false; reads := 0 |}
            | Some lvl => some_event (handle w v n (set_hit lvl m) lvl price)
            end).
  unfold update_signal_price.
  eapply says_bind_silent;
    [apply (runs_read (λ t, active_signals t !! sid))|apply says_read|].
  cbv beta. rewrite Ha.
  eapply says_bind_silent; [by eapply runs_deref|apply says_deref|].
  cbv beta.
  assert (Hnone : step_tracker sid l
            {| result := Return (@None Event); object := m;
               archived := false; reads := 0 |} t = t)
    by by eapply step_tracker_same.
  match goal with
  | |- says (bind ?c ?k) _ _ _ =>
      assert (Hc : runs c t n (result o) (step_tracker sid l o t)
                     (n + reads o)
                   ∧ says c t n (update_alerts t m price))
  end.
  { subst o. unfold update_alerts, evaluate, due, reached, hit.
    destruct (decide (direction m = "long"));
      [|destruct (decide (direction m = "short"))].
    - destruct (negb (tp3_hit m) && py_ge price (tp3 m));
        [split; [by apply (runs_fire w v sid l m TP3)
                |by apply (says_fire v sid l m TP3)]|].
      destruct (negb (tp2_hit m) && py_ge price (tp2 m));
        [split; [by apply (runs_fire w v sid l m TP2)
                |by apply (says_fire v sid l m TP2)]|].
      destruct (negb (tp1_hit m) && py_ge price (tp1 m));
        [split; [by apply (runs_fire w v sid l m TP1)
                |by apply (says_fire v sid l m TP1)]|].
      destruct (negb (sl_hit m) && py_le price (stop_loss m));
        [split; [by apply (runs_fire w v sid l m STOP)
                |by apply (says_fire v sid l m STOP)]|].
      rewrite Hnone, Nat.add_0_r. split; [apply runs_ret|apply says_ret].
    - destruct (negb (tp3_hit m) && py_le price (tp3 m));
        [split; [by apply (runs_fire w v sid l m TP3)
                |by apply (says_fire v sid l m TP3)]|].
      destruct (negb (tp2_hit m) && py_le price (tp2 m));
        [split; [by apply (runs_fire w v sid l m TP2)
                |by apply (says_fire v sid l m TP2)]|].
      destruct (negb (tp1_hit m) && py_le price (tp1 m));
        [split; [by apply (runs_fire w v sid l m TP1)
                |by apply (says_fire v sid l m TP1)]|].
      destruct (negb (sl_hit m) && py_ge price (stop_loss m));
        [split; [by apply (runs_fire w v sid l m STOP)
                |by apply (says_fire v sid l m STOP)]|].
      rewrite Hnone, Nat.add_0_r. split; [apply runs_ret|apply says_ret].
    - rewrite !andb_false_r. rewrite Hnone, Nat.add_0_r.
      split; [apply runs_ret|apply says_ret]. }
  destruct Hc as [Hrun Hsays].
  eapply says_bind_last; [exact Hrun|exact Hsays|].
  intros ev _. eapply says_finish. cbn. apply lookup_insert_eq.
Qed.

End Says.

(** X20.  A call of [update_signal_price] hands a message to the
    Telegram handler exactly when it returns a threshold event and a
    handler is attached, and then exactly one, whatever the database
    does: the message names the symbol, the direction, the entry price,
    the price of the call and the level reached; for a target it shows
    the return of the whole position, for the stop the loss weighted by
    the share that was still open.  A call on an unknown identifier, a
    call that fires nothing and a call on a signal whose entry price is
    zero send nothing. *)
Theorem one_message_per_threshold_event w v sid price s :
  wf (tracker s) →
  let r := update_signal_price w v sid price s in
  alerts (trace (env r.2))
  = alerts (trace (env s))
    ++ match produced r.1, telegram (tracker s),
             active_signals (tracker s) !! sid
               ≫= (λ l, heap (tracker s) !! l) with
       | Some lvl, true, Some m => [alert_for m lvl price]
       | _, _, _ => []
       end.
Proof.
  intros Hwf r. subst r. destruct s as [t e]. cbn [tracker env] in *.
  destruct (active_signals t !! sid) as [l|] eqn:Ha.
  - destruct (Hwf sid l Ha) as (m & Hl & Hsid & _).
    cbn [mbind option_bind]. rewrite Hl.
    rewrite (says_update_signal_price w v sid price l m t (clock_reads e)
               Ha Hl Hsid e eq_refl). f_equal.
    destruct (update_signal_price_active w v sid price
                {| tracker := t; env := e |} l m Ha Hl Hsid)
      as (e' & -> & _). cbn [fst]. rewrite produced_step_obj.
    unfold update_alerts, handle_alerts.
    by destruct (py_eq (entry_price m) 0), (evaluate m price),
         (telegram t).
  - rewrite update_signal_price_inactive by done. cbn.
    by rewrite app_nil_r.
Qed.

Lemma one_message_per_threshold_event_witness :
  let s := example_notifying in
  let s' :=
    (update_signal_price example_world TelegramBot example_id 49000 s).2 in
  wf (tracker s)
  ∧ ∃ a, alerts (trace (env s')) = [a]
         ∧ template a = "STOP" ∧ alert_symbol a = "BTCUSDT"
         ∧ alert_current a = 49000%Q ∧ alert_level a = 49000%Q
         ∧ (alert_percent a == -2)%Q.
Proof.
  intros s s'.
  assert (Hwf : wf (tracker s))
    by apply (reachable_wf example_world TelegramBot), reach_register,
         reach_init.
  split; [exact Hwf|].
  pose proof (one_message_per_threshold_event example_world TelegramBot
                example_id 49000 s Hwf) as H.
  cbv zeta in H. subst s'. rewrite H.
  eexists. split; [vm_compute; reflexivity|]. by vm_compute.
Defined.
